(** * Open Food Facts cleaning pipeline: a shallow embedding of
      [clean_openfood.py] and the properties of its cleaning stages.

    The table is a pandas [DataFrame]; it is modelled column by column, the
    way pandas stores it.  Python strings are sequences of Unicode code
    points.  What the interpreter decides from tables that are not part of
    the script (the Unicode character database outside ASCII and the HTML
    entity table), and the order that the sorting routine of pandas gives
    to equal keys, is collected in the class [PyLib]; every definition and
    theorem is parametric in it, while the ASCII range is written out. *)

From Stdlib Require Import List String Ascii Bool Arith NArith ZArith QArith Qround Qpower Lia Lqa Permutation.
Import ListNotations.

(** ** Python strings *)

Definition pystr := list N.

(** A string literal of the script whose characters are all ASCII. *)
Definition py (s : string) : pystr :=
  List.map N_of_ascii (list_ascii_of_string s).

Definition pystr_eqb (a b : pystr) : bool :=
  if list_eq_dec N.eq_dec a b then true else false.

(** What the Python runtime looks up in tables: character properties and
    case mappings of the code points from 128 on, and the replacement of
    HTML character references ([html.unescape] past its fast path); and
    what pandas leaves to its sorting routine: [sort_values] sorts with
    an unstable quicksort by default, so that the place of a column among
    the columns with the same count is the routine's choice. *)
Class PyLib := {
  ud_isspace : N -> bool;
  ud_iscased : N -> bool;
  ud_isalnum : N -> bool;
  ud_totitle : N -> list N;
  (* lower-casing may look at the context (final sigma) *)
  ud_lower_at : pystr -> nat -> N -> list N;
  html_charref_sub : pystr -> pystr;
  (* [s.sort_values(ascending=False)] on the counts of the columns *)
  pd_sort_desc : list (pystr * nat) -> list (pystr * nat)
}.

(** Insertion into a list that is sorted by falling count; columns with
    the same count keep their order. *)
Fixpoint insert_desc (c : pystr * nat) (l : list (pystr * nat)) : list (pystr * nat) :=
  match l with
  | [] => [c]
  | d :: l' => if (snd d <=? snd c)%nat then c :: l else d :: insert_desc c l'
  end.

(** A runtime that knows nothing outside ASCII: non-ASCII characters are
    uncased, not spaces, not alphanumeric; character references stay.  It
    sorts by insertion, which gives one of the orders a sorting routine
    may give: columns with the same count stay in the order of the
    table. *)
Definition ascii_lib : PyLib := {|
  ud_isspace := fun _ => false;
  ud_iscased := fun _ => false;
  ud_isalnum := fun _ => false;
  ud_totitle := fun c => [c];
  ud_lower_at := fun _ _ c => [c];
  html_charref_sub := fun s => s;
  pd_sort_desc := fold_right insert_desc []
|}.

Definition between (lo hi c : N) : bool := (lo <=? c)%N && (c <=? hi)%N.

Definition is_ascii (c : N) : bool := (c <? 128)%N.
Definition ascii_isupper (c : N) : bool := between 65 90 c.
Definition ascii_islower (c : N) : bool := between 97 122 c.
Definition ascii_isalpha (c : N) : bool := ascii_isupper c || ascii_islower c.
Definition ascii_isdigit (c : N) : bool := between 48 57 c.
Definition ascii_isspace (c : N) : bool := between 9 13 c || between 28 32 c.
Definition ascii_tolower (c : N) : N := if ascii_isupper c then (c + 32)%N else c.
Definition ascii_toupper (c : N) : N := if ascii_islower c then (c - 32)%N else c.

Definition AMP : N := 38.
Definition COMMA : N := 44.
Definition COLON : N := 58.
Definition UNDERSCORE : N := 95.
Definition SPACE : N := 32.

Section Strings.
Context {L : PyLib}.

(** [Py_UNICODE_ISSPACE], used by [str.strip] and by the regex class [\s]. *)
Definition py_isspace (c : N) : bool :=
  if is_ascii c then ascii_isspace c else ud_isspace c.

(** [_PyUnicode_IsCased]. *)
Definition py_iscased (c : N) : bool :=
  if is_ascii c then ascii_isalpha c else ud_iscased c.

(** [_PyUnicode_ToTitleFull]. *)
Definition py_totitle (c : N) : list N :=
  if is_ascii c then [ascii_toupper c] else ud_totitle c.

(** [lower_ucs4]: the lower-case mapping of the character [c] found at
    index [i] of [s]. *)
Definition lower_ucs4 (s : pystr) (i : nat) (c : N) : list N :=
  if is_ascii c then [ascii_tolower c] else ud_lower_at s i c.

(** The regex class [\w] on [str] patterns: alphanumeric or underscore. *)
Definition re_isword (c : N) : bool :=
  if is_ascii c
  then ascii_isalpha c || ascii_isdigit c || (c =? UNDERSCORE)%N
  else ud_isalnum c.

(** [str.lower()] *)
Fixpoint do_lower (s : pystr) (i : nat) (rest : pystr) : pystr :=
  match rest with
  | [] => []
  | c :: rest' => lower_ucs4 s i c ++ do_lower s (S i) rest'
  end.

Definition str_lower (s : pystr) : pystr := do_lower s 0 s.

(** [str.title()]: the first cased character after an uncased one is
    title-cased, a character after a cased one is lower-cased. *)
Fixpoint do_title (s : pystr) (i : nat) (previous_is_cased : bool)
    (rest : pystr) : pystr :=
  match rest with
  | [] => []
  | c :: rest' =>
      (if previous_is_cased then lower_ucs4 s i c else py_totitle c)
        ++ do_title s (S i) (py_iscased c) rest'
  end.

Definition str_title (s : pystr) : pystr := do_title s 0 false s.

(** [str.strip()] *)
Fixpoint lstrip (s : pystr) : pystr :=
  match s with
  | c :: s' => if py_isspace c then lstrip s' else s
  | [] => []
  end.

Definition rstrip (s : pystr) : pystr := rev (lstrip (rev s)).

Definition str_strip (s : pystr) : pystr := rstrip (lstrip s).

(** [html.unescape]: a string without an ampersand is returned as it is. *)
Definition html_unescape (s : pystr) : pystr :=
  if existsb (N.eqb AMP) s then html_charref_sub s else s.

(** [prefix p s] is [Some rest] when [s = p ++ rest]. *)
Fixpoint strip_prefix (p s : pystr) : option pystr :=
  match p, s with
  | [], _ => Some s
  | a :: p', b :: s' => if (a =? b)%N then strip_prefix p' s' else None
  | _ :: _, [] => None
  end.

(** [s.replace(old, new)] for a non-empty [old]: the occurrences are found
    from the left and do not overlap.  [skip] counts the characters of a
    found occurrence that are still to be passed over. *)
Fixpoint replace_from (old new : pystr) (skip : nat) (s : pystr) : pystr :=
  match s with
  | [] => []
  | c :: s' =>
      match skip with
      | S k => replace_from old new k s'
      | O =>
          match strip_prefix old s with
          | Some _ => new ++ replace_from old new (List.length old - 1) s'
          | None => c :: replace_from old new 0 s'
          end
      end
  end.

Definition str_replace (old new s : pystr) : pystr := replace_from old new 0 s.

(** [s.split(",")]: always at least one piece. *)
Fixpoint str_split (sep : N) (s : pystr) : list pystr :=
  match s with
  | [] => [[]]
  | c :: s' =>
      if (c =? sep)%N then [] :: str_split sep s'
      else match str_split sep s' with
           | piece :: pieces => (c :: piece) :: pieces
           | [] => [[c]]
           end
  end.

(** [sep.join(pieces)] *)
Fixpoint str_join (sep : pystr) (pieces : list pystr) : pystr :=
  match pieces with
  | [] => []
  | [p] => p
  | p :: ps => p ++ sep ++ str_join sep ps
  end.

(** *** The three regular expressions of the script *)

(** [\b\w{2,3}:] tried at one position: [prev_word] tells whether the
    character before the position is a word character.  The greedy
    [\w{2,3}] first takes three word characters and gives one back when no
    colon follows.  The result is the length of the match. *)
Definition match_code_colon (prev_word : bool) (s : pystr) : option nat :=
  match s with
  | c1 :: c2 :: t =>
      if negb prev_word && re_isword c1 && re_isword c2 then
        match t with
        | c3 :: t' =>
            if re_isword c3 then
              match t' with
              | c4 :: _ => if (c4 =? COLON)%N then Some 4%nat else None
              | [] => None
              end
            else if (c3 =? COLON)%N then Some 3%nat else None
        | [] => None
        end
      else None
  | _ => None
  end.

(** [re.sub(r"\b\w{2,3}:", "", s)]: matches are looked for from the left,
    a match is left out and the search goes on behind it. *)
Fixpoint sub_code_colon (prev_word : bool) (skip : nat) (s : pystr) : pystr :=
  match s with
  | [] => []
  | c :: s' =>
      match skip with
      | S k => sub_code_colon (re_isword c) k s'
      | O =>
          match match_code_colon prev_word s with
          | Some n => sub_code_colon (re_isword c) (n - 1) s'
          | None => c :: sub_code_colon (re_isword c) 0 s'
          end
      end
  end.

Definition remove_code_colon (s : pystr) : pystr := sub_code_colon false 0 s.

(** [re.sub(r"\s+", " ", s)]: every run of white space becomes one space. *)
Fixpoint sub_spaces (in_run : bool) (s : pystr) : pystr :=
  match s with
  | [] => []
  | c :: s' =>
      if py_isspace c
      then (if in_run then [] else [SPACE]) ++ sub_spaces true s'
      else c :: sub_spaces false s'
  end.

Definition collapse_spaces (s : pystr) : pystr := sub_spaces false s.

(** The class [[a-z]] under [re.IGNORECASE] on a [str] pattern: the 52
    ASCII letters and the four letters that case-fold into them. *)
Definition re_az_ignorecase (c : N) : bool :=
  ascii_isalpha c
  || (c =? 304)%N || (c =? 305)%N || (c =? 383)%N || (c =? 8490)%N.

(** [remove_lang_prefix] on a string:
    [re.sub(r'^[a-z]{2}[:_]', '', text, flags=re.IGNORECASE).strip()]. *)
Definition remove_lang_prefix_str (text : pystr) : pystr :=
  str_strip
    match text with
    | c1 :: c2 :: c3 :: rest =>
        if re_az_ignorecase c1 && re_az_ignorecase c2
           && ((c3 =? COLON)%N || (c3 =? UNDERSCORE)%N)
        then rest else text
    | _ => text
    end.

End Strings.


(** ** Floating-point cells

    A float is a NaN (the missing value of pandas), an infinity or a finite
    number, kept as the rational it denotes.  Arithmetic results are rounded
    to the width of the column (binary64 as read from the file, binary32
    after [astype("float32")]), to nearest with ties to even. *)

Inductive float : Type :=
| NaN
| PInf
| NInf
| Fin (q : Q).

Inductive width : Type := F64 | F32.

Definition float_isnan (x : float) : bool :=
  match x with NaN => true | _ => false end.

(** [x < y] and [x > y] of IEEE: false as soon as a NaN is involved. *)
Definition float_ltb (x y : float) : bool :=
  match x, y with
  | NaN, _ | _, NaN => false
  | _, NInf => false
  | NInf, _ => true
  | PInf, _ => false
  | Fin _, PInf => true
  | Fin a, Fin b => negb (Qle_bool b a)
  end.

Definition float_gtb (x y : float) : bool := float_ltb y x.

Definition float_leb (x y : float) : bool :=
  match x, y with
  | NaN, _ | _, NaN => false
  | NInf, _ => true
  | _, PInf => true
  | _, NInf => false
  | PInf, _ => false
  | Fin a, Fin b => Qle_bool a b
  end.

(** [x == y] of IEEE. *)
Definition float_eqb (x y : float) : bool :=
  match x, y with
  | PInf, PInf | NInf, NInf => true
  | Fin a, Fin b => Qeq_bool a b
  | _, _ => false
  end.

Definition float_neg (x : float) : float :=
  match x with
  | NaN => NaN | PInf => NInf | NInf => PInf | Fin q => Fin (- q)%Q
  end.

Definition prec (w : width) : Z := match w with F64 => 53 | F32 => 24 end.
Definition emax (w : width) : Z := match w with F64 => 1024 | F32 => 128 end.

Definition pow2 (k : Z) : Q := (2 ^ k)%Q.

(** The exponent [e] with [2^e <= q < 2^(e+1)], for a positive [q]. *)
Definition Qlog2_floor (q : Q) : Z :=
  let e0 := (Z.log2 (Qnum q) - Z.log2 (Zpos (Qden q)))%Z in
  if Qle_bool (pow2 e0) q then e0 else (e0 - 1)%Z.

Definition round_half_even (x : Q) : Z :=
  let f := Qfloor x in
  match ((x - inject_Z f) ?= (1 # 2))%Q with
  | Lt => f
  | Gt => (f + 1)%Z
  | Eq => if Z.even f then f else (f + 1)%Z
  end.

(** Rounding of a positive rational: the result is a multiple of the unit
    in the last place of [q] (of the smallest subnormal for a tiny [q]) and
    overflows to infinity from [2^emax] on. *)
Definition round_pos (w : width) (q : Q) : float :=
  let ex := Z.max (Qlog2_floor q - prec w + 1) (3 - emax w - prec w) in
  let r := Qred (inject_Z (round_half_even (q / pow2 ex)) * pow2 ex) in
  if Qle_bool (pow2 (emax w)) r then PInf else Fin r.

Definition round_to (w : width) (q : Q) : float :=
  match (q ?= 0)%Q with
  | Eq => Fin 0
  | Gt => round_pos w q
  | Lt => float_neg (round_pos w (- q)%Q)
  end.

(** Conversion of a float to the width [w]. *)
Definition float_cast (w : width) (x : float) : float :=
  match x with
  | Fin q => round_to w q
  | _ => x
  end.

Definition float_add (w : width) (x y : float) : float :=
  match x, y with
  | NaN, _ | _, NaN => NaN
  | PInf, NInf | NInf, PInf => NaN
  | PInf, _ | _, PInf => PInf
  | NInf, _ | _, NInf => NInf
  | Fin a, Fin b => round_to w (a + b)%Q
  end.

Definition float_half (w : width) (x : float) : float :=
  match x with
  | Fin a => round_to w (a / 2)%Q
  | _ => x
  end.

(** The mean of the two middle values, as [numpy.mean] takes it: the sum,
    then the division by the count. *)
Definition mean2 (w : width) (x y : float) : float :=
  float_half w (float_add w x y).

Fixpoint insert_sorted (x : float) (l : list float) : list float :=
  match l with
  | [] => [x]
  | y :: l' => if float_leb x y then x :: l else y :: insert_sorted x l'
  end.

Definition sort_floats (l : list float) : list float :=
  fold_right insert_sorted [] l.

(** [numpy.nanmedian] of the values that are not NaN: NaN when there is
    none, the middle value of an odd number of values, the mean of the two
    middle values otherwise. *)
Definition median_of (w : width) (l : list float) : float :=
  let s := sort_floats l in
  let n := List.length s in
  if (n =? 0)%nat then NaN
  else if Nat.odd n then nth (n / 2) s NaN
  else mean2 w (nth (n / 2 - 1) s NaN) (nth (n / 2) s NaN).

Definition dropna (l : list float) : list float :=
  filter (fun x => negb (float_isnan x)) l.


(** ** Cells, columns and tables *)

(** A cell of an [object] column is a Python [str] or a float; the missing
    value of such a column is the float NaN (the missing markers of pandas
    are not told apart: every operation of the script treats them alike). *)
Inductive value : Type :=
| VStr (s : pystr)
| VNum (x : float).

Definition NA : value := VNum NaN.

Definition isna (v : value) : bool :=
  match v with VNum NaN => true | _ => false end.

Definition is_str (v : value) : bool :=
  match v with VStr _ => true | VNum _ => false end.

Definition is_num (v : value) : bool := negb (is_str v).

(** A column with its dtype: [object], or a float dtype of some width (an
    integer column of the file stands as the float column of its values). *)
Inductive Series : Type :=
| ObjSeries (cells : list value)
| FloatSeries (w : width) (cells : list float).

Definition values (s : Series) : list value :=
  match s with
  | ObjSeries l => l
  | FloatSeries _ l => List.map VNum l
  end.

Definition series_len (s : Series) : nat := List.length (values s).

(** The columns in their order, and the number of rows ([len(df.index)]). *)
Record DataFrame : Type := {
  nrows : nat;
  columns : list (pystr * Series)
}.

Definition shape (df : DataFrame) : nat * nat :=
  (nrows df, List.length (columns df)).

(** Every column has one cell per row. *)
Definition wf (df : DataFrame) : Prop :=
  Forall (fun c => series_len (snd c) = nrows df) (columns df).

(** ** Exceptions *)

Inductive pyerror : Type :=
| KeyError (key : pystr)
| AttributeError
| TypeError
| ValueError.

Inductive result (A : Type) : Type :=
| Ok (a : A)
| Raise (e : pyerror).

Arguments Ok {A} a.
Arguments Raise {A} e.

Definition bind {A B} (r : result A) (k : A -> result B) : result B :=
  match r with
  | Ok a => k a
  | Raise e => Raise e
  end.

Notation "x <- c ;; k" := (bind c (fun x => k))
  (at level 61, c at next level, right associativity).

Fixpoint mapM {A B} (f : A -> result B) (l : list A) : result (list B) :=
  match l with
  | [] => Ok []
  | a :: l' => b <- f a ;; bs <- mapM f l' ;; Ok (b :: bs)
  end.

(** ** Column access of a table *)

Fixpoint lookup (name : pystr) (cols : list (pystr * Series)) : option Series :=
  match cols with
  | [] => None
  | (n, s) :: cols' => if pystr_eqb n name then Some s else lookup name cols'
  end.

Definition has_column (df : DataFrame) (name : pystr) : bool :=
  match lookup name (columns df) with Some _ => true | None => false end.

(** [df[name]] *)
Definition getitem (df : DataFrame) (name : pystr) : result Series :=
  match lookup name (columns df) with
  | Some s => Ok s
  | None => Raise (KeyError name)
  end.

Fixpoint assign (name : pystr) (s : Series) (cols : list (pystr * Series))
  : list (pystr * Series) :=
  match cols with
  | [] => [(name, s)]
  | (n, s0) :: cols' =>
      if pystr_eqb n name then (n, s) :: cols'
      else (n, s0) :: assign name s cols'
  end.

(** [df[name] = s]: an existing column is replaced where it stands, a new
    one is added as the last column. *)
Definition setitem (df : DataFrame) (name : pystr) (s : Series) : DataFrame :=
  {| nrows := nrows df; columns := assign name s (columns df) |}.

(** [df.drop(columns=[name])]: a label that is not found raises. *)
Definition drop_column (df : DataFrame) (name : pystr) : result DataFrame :=
  if has_column df name
  then Ok {| nrows := nrows df;
             columns := filter (fun c => negb (pystr_eqb (fst c) name)) (columns df) |}
  else Raise (KeyError name).

(** The cell of row [i] in column [name]. *)
Definition cell (df : DataFrame) (name : pystr) (i : nat) : option value :=
  match lookup name (columns df) with
  | Some s => nth_error (values s) i
  | None => None
  end.

(** ** Selection of rows by a boolean mask *)

Fixpoint select {A} (mask : list bool) (l : list A) : list A :=
  match mask, l with
  | b :: mask', a :: l' => if b then a :: select mask' l' else select mask' l'
  | _, _ => []
  end.

Definition count_true (mask : list bool) : nat :=
  List.length (filter (fun b => b) mask).

Definition select_series (mask : list bool) (s : Series) : Series :=
  match s with
  | ObjSeries l => ObjSeries (select mask l)
  | FloatSeries w l => FloatSeries w (select mask l)
  end.

(** [df[mask]], for a mask that has one entry per row. *)
Definition select_rows (mask : list bool) (df : DataFrame) : DataFrame :=
  {| nrows := count_true mask;
     columns := List.map (fun c => (fst c, select_series mask (snd c))) (columns df) |}.

(** ** Operations of pandas on a column *)

Definition all_floats (l : list value) : option (list float) :=
  fold_right
    (fun v acc =>
       match v, acc with
       | VNum x, Some xs => Some (x :: xs)
       | _, _ => None
       end)
    (Some []) l.

(** The dtype pandas infers for the results of [Series.apply]: a float
    column when every result is a float, an [object] column otherwise. *)
Definition infer_series (l : list value) : Series :=
  match all_floats l with
  | Some xs => FloatSeries F64 xs
  | None => ObjSeries l
  end.

(** [s.apply(f)]: a column without rows is returned as it is. *)
Definition series_apply (f : value -> result value) (s : Series) : result Series :=
  match values s with
  | [] => Ok s
  | l => l' <- mapM f l ;; Ok (infer_series l')
  end.

(** The [.str] accessor is refused unless the column is an [object] column
    that holds a string or nothing but missing values. *)
Definition str_accessor (s : Series) : result (list value) :=
  match s with
  | ObjSeries l =>
      if existsb is_str l || forallb isna l then Ok l else Raise AttributeError
  | FloatSeries _ _ => Raise AttributeError
  end.

(** A method of the [.str] accessor: a cell that is not a string becomes
    missing. *)
Definition str_cell (f : pystr -> pystr) (v : value) : value :=
  match v with
  | VStr x => VStr (f x)
  | VNum _ => NA
  end.

Definition str_method (f : pystr -> pystr) (s : Series) : result Series :=
  l <- str_accessor s ;;
  Ok (ObjSeries (List.map (str_cell f) l)).

(** [s.fillna(v)]: a float column filled with a string becomes an [object]
    column, unless there was nothing to fill. *)
Definition fill_cell (v c : value) : value := if isna c then v else c.

Definition fillna (v : value) (s : Series) : Series :=
  match s with
  | ObjSeries l => ObjSeries (List.map (fill_cell v) l)
  | FloatSeries w l =>
      match v with
      | VNum x => FloatSeries w (List.map (fun c => if float_isnan c then x else c) l)
      | VStr _ =>
          if existsb float_isnan l
          then ObjSeries (List.map (fun c => if float_isnan c then v else VNum c) l)
          else s
      end
  end.

Definition str_in (olds : list pystr) (v : value) : bool :=
  match v with
  | VStr x => existsb (pystr_eqb x) olds
  | VNum _ => false
  end.

(** [s.replace(olds, new)] for strings [olds]: the cells equal to one of
    them are replaced; no cell of a float column is. *)
Definition replace_cell (olds : list pystr) (new c : value) : value :=
  if str_in olds c then new else c.

Definition series_replace (olds : list pystr) (new : value) (s : Series) : Series :=
  match s with
  | ObjSeries l => ObjSeries (List.map (replace_cell olds new) l)
  | FloatSeries _ _ => s
  end.

(** Equality of a cell and a dictionary key ([==] of Python; the float
    [1.0] finds the key [1]). *)
Definition key_eqb (k v : value) : bool :=
  match k, v with
  | VStr a, VStr b => pystr_eqb a b
  | VNum x, VNum y => float_eqb x y
  | _, _ => false
  end.

Fixpoint dict_get (d : list (value * value)) (v : value) : option value :=
  match d with
  | [] => None
  | (k, r) :: d' => if key_eqb k v then Some r else dict_get d' v
  end.

(** [s.map(d)] for a dictionary [d]: a cell that is no key becomes missing;
    the column is a float column when the dictionary holds numbers and an
    [object] column when it holds strings. *)
Definition map_cell (d : list (value * value)) (v : value) : value :=
  match dict_get d v with
  | Some r => r
  | None => NA
  end.

Definition series_map (d : list (value * value)) (s : Series) : Series :=
  let l := List.map (map_cell d) (values s) in
  if forallb is_num (List.map snd d)
  then match all_floats l with
       | Some xs => FloatSeries F64 xs
       | None => ObjSeries l
       end
  else ObjSeries l.

(** [s != text] *)
Definition ne_str (text : pystr) (s : Series) : list bool :=
  List.map (fun v => match v with
                     | VStr x => negb (pystr_eqb x text)
                     | VNum _ => true
                     end) (values s).

(** [(s < lo) | (s > hi)]: comparing a string with a number raises. *)
Definition out_of_range (lo hi : float) (x : float) : bool :=
  float_ltb x lo || float_gtb x hi.

Definition floats_of (s : Series) : result (list float) :=
  match s with
  | FloatSeries _ l => Ok l
  | ObjSeries l =>
      match all_floats l with
      | Some xs => Ok xs
      | None => Raise TypeError
      end
  end.

Definition width_of (s : Series) : width :=
  match s with
  | FloatSeries w _ => w
  | ObjSeries _ => F64
  end.

Definition with_floats (s : Series) (l : list float) : Series :=
  match s with
  | FloatSeries w _ => FloatSeries w l
  | ObjSeries _ => ObjSeries (List.map VNum l)
  end.

(** [s.median()]: the median of the values that are not missing. *)
Definition series_median (s : Series) : result float :=
  l <- floats_of s ;; Ok (median_of (width_of s) (dropna l)).

(** [s.astype("float32")] *)
Definition astype_float32 (s : Series) : result Series :=
  match s with
  | FloatSeries _ l => Ok (FloatSeries F32 (List.map (float_cast F32) l))
  | ObjSeries l =>
      match all_floats l with
      | Some xs => Ok (FloatSeries F32 (List.map (float_cast F32) xs))
      | None => Raise ValueError
      end
  end.

(** ** Duplicated rows *)

Definition value_same (a b : value) : bool :=
  match a, b with
  | VStr x, VStr y => pystr_eqb x y
  | VNum NaN, VNum NaN => true
  | VNum x, VNum y => float_eqb x y
  | _, _ => false
  end.

Fixpoint row_same (r1 r2 : list value) : bool :=
  match r1, r2 with
  | [], [] => true
  | a :: r1', b :: r2' => value_same a b && row_same r1' r2'
  | _, _ => false
  end.

Definition row_at (df : DataFrame) (i : nat) : list value :=
  List.map (fun c => nth i (values (snd c)) NA) (columns df).

Definition rows (df : DataFrame) : list (list value) :=
  List.map (row_at df) (seq 0 (nrows df)).

(** A row is flagged when an earlier row has the same cells in all columns. *)
Fixpoint dup_flags (seen : list (list value)) (rs : list (list value)) : list bool :=
  match rs with
  | [] => []
  | r :: rs' => existsb (row_same r) seen :: dup_flags (r :: seen) rs'
  end.

(** [df.empty]: no row or no column. *)
Definition df_empty (df : DataFrame) : bool :=
  (nrows df =? 0)%nat || (List.length (columns df) =? 0)%nat.

(** [df.duplicated()]; an empty table gives an empty column of flags. *)
Definition duplicated (df : DataFrame) : list bool :=
  if df_empty df then [] else dup_flags [] (rows df).

(** [df.drop_duplicates()]: the first occurrence is kept. *)
Definition drop_duplicates (df : DataFrame) : DataFrame :=
  if df_empty df then df else select_rows (List.map negb (duplicated df)) df.

(** ** The column names and literals of the script *)

Definition product_name := py "product_name".
Definition brands := py "brands".
Definition categories := py "categories".
Definition categories_top := py "categories_top".
Definition countries := py "countries".
Definition ingredients_text := py "ingredients_text".
Definition labels := py "labels".
Definition packaging := py "packaging".
Definition nutriscore_grade := py "nutriscore_grade".
Definition nutriscore_numeric := py "nutriscore_numeric".
Definition nova_group := py "nova_group".
Definition nova_group_label := py "nova_group_label".
Definition environmental_score_score := py "environmental_score_score".

Definition Unknown : value := VStr (py "Unknown").
Definition unknown : value := VStr (py "unknown").
Definition Xxx : pystr := py "Xxx".

Definition num (z : Z) : value := VNum (Fin (inject_Z z)).

Definition country_map : list (pystr * pystr) :=
  [ (py "Fr", py "France"); (py "De", py "Germany");
    (py "Gb", py "United Kingdom"); (py "Us", py "United States");
    (py "Uk", py "United Kingdom");
    (py "Espa" ++ [241%N] ++ py "a", py "Spain"); (py "Espana", py "Spain");
    (py "Francia", py "France"); (py "Frankreich", py "France");
    (py "Vereinigte Staaten Von Amerika", py "United States");
    (py "Brasil", py "Brazil"); (py "Brasilien", py "Brazil");
    (py "Griechenland", py "Greece"); (py "Irland", py "Ireland");
    (py "Alemania", py "Germany"); (py "Belgien", py "Belgium");
    (py "Selestosina", py "Unknown"); (py "Ca", py "Canada");
    (py "European Union", py "European Union"); (py "World", py "World") ].

(** [country_map.get(c, c)] *)
Fixpoint get_or (d : list (pystr * pystr)) (c default : pystr) : pystr :=
  match d with
  | [] => default
  | (k, v) :: d' => if pystr_eqb k c then v else get_or d' c default
  end.

Definition country_get (c : pystr) : pystr := get_or country_map c c.

Definition nutri_map : list (value * value) :=
  [ (VStr (py "a"), num 1); (VStr (py "b"), num 2); (VStr (py "c"), num 3);
    (VStr (py "d"), num 4); (VStr (py "e"), num 5); (unknown, num 0) ].

Definition nova_map : list (value * value) :=
  [ (num 1, VStr (py "Unprocessed or Minimally Processed"));
    (num 2, VStr (py "Processed Culinary Ingredients"));
    (num 3, VStr (py "Processed Foods"));
    (num 4, VStr (py "Ultra-Processed Foods"));
    (unknown, Unknown) ].

Definition num_cols : list pystr :=
  [ py "energy-kcal_100g"; py "fat_100g"; py "saturated-fat_100g";
    py "sugars_100g"; py "salt_100g"; py "proteins_100g"; py "fiber_100g";
    py "carbohydrates_100g" ].

(** ** The cleaning stages *)

Section Stages.
Context {L : PyLib}.

(** [df[name] = f(df[name])] *)
Definition update (name : pystr) (f : Series -> result Series) (df : DataFrame)
  : result DataFrame :=
  s <- getitem df name ;;
  s' <- f s ;;
  Ok (setitem df name s').

(** [lambda x: html.unescape(x) if pd.notnull(x) else x] *)
Definition unescape_cell (v : value) : result value :=
  match v with
  | VStr s => Ok (VStr (html_unescape s))
  | VNum x => if float_isnan x then Ok v else Raise TypeError
  end.

(** The product name of a cell when the [Xxx] filter looks at it. *)
Definition normalized_name (v : value) : value :=
  match v with
  | VStr s => VStr (str_title (str_strip (html_unescape s)))
  | VNum _ => NA
  end.

Definition clean_product_name (df : DataFrame) : result DataFrame :=
  df <- update product_name (series_apply unescape_cell) df ;;
  df <- update product_name
          (fun s => s <- str_method str_strip s ;; str_method str_title s) df ;;
  mask <- (s <- getitem df product_name ;; Ok (ne_str Xxx s)) ;;
  let df := select_rows mask df in
  update product_name (fun s => Ok (fillna Unknown s)) df.

Definition clean_brands (df : DataFrame) : result DataFrame :=
  df <- update brands (series_apply unescape_cell) df ;;
  df <- update brands
          (fun s => s <- str_method str_title s ;; str_method str_strip s) df ;;
  df <- update brands
          (fun s => Ok (series_replace [py "Xylimgxyling"] Unknown s)) df ;;
  df <- update brands (str_method (str_replace [8217%N] (py "'"))) df ;;
  df <- update brands
          (fun s => s <- str_method (str_replace (py ", ") (py ",")) s ;;
                    str_method (str_replace (py ",") (py ", ")) s) df ;;
  update brands (fun s => Ok (fillna Unknown s)) df.

(** [remove_lang_prefix]: anything that is not a string is returned as it
    is. *)
Definition remove_lang_prefix (text : value) : result value :=
  match text with
  | VStr s => Ok (VStr (remove_lang_prefix_str s))
  | VNum _ => Ok text
  end.

(** [.str.split(",").str[0]] on a string. *)
Definition first_segment (s : pystr) : pystr := hd [] (str_split COMMA s).

Definition clean_categories (df : DataFrame) : result DataFrame :=
  df <- update categories
          (fun s => Ok (series_replace [py "undefined"; py "za"] NA s)) df ;;
  df <- update categories
          (fun s => s <- str_method str_strip s ;;
                    series_apply remove_lang_prefix (fillna Unknown s)) df ;;
  s <- getitem df categories ;;
  s <- str_method first_segment s ;;
  s <- str_method str_title s ;;
  Ok (setitem df categories_top (fillna Unknown s)).

(** [lambda x: ", ".join(country_map.get(c.strip(), c.strip())
                         for c in x.split(","))] *)
Definition map_countries (x : pystr) : pystr :=
  str_join (py ", ")
    (List.map (fun c => country_get (str_strip c)) (str_split COMMA x)).

Definition map_countries_cell (v : value) : result value :=
  match v with
  | VStr x => Ok (VStr (map_countries x))
  | VNum _ => Raise AttributeError
  end.

(** The chain of [.str] methods of lines 77 and 78 on a string. *)
Definition tidy_countries (s : pystr) : pystr :=
  str_title
    (str_replace (py ",") (py ", ")
       (str_replace (py ", ") (py ",") (str_strip (remove_code_colon s)))).

Definition clean_countries (df : DataFrame) : result DataFrame :=
  df <- update countries (str_method remove_code_colon) df ;;
  df <- update countries
          (fun s => s <- str_method str_strip s ;;
                    s <- str_method (str_replace (py ", ") (py ",")) s ;;
                    s <- str_method (str_replace (py ",") (py ", ")) s ;;
                    str_method str_title s) df ;;
  df <- update countries (fun s => Ok (fillna Unknown s)) df ;;
  update countries (series_apply map_countries_cell) df.

Definition clean_ingredients_labels_packaging (df : DataFrame) : result DataFrame :=
  df <- update ingredients_text
          (fun s => s <- str_method str_strip (fillna Unknown s) ;;
                    s <- str_method str_lower s ;;
                    str_method collapse_spaces s) df ;;
  df <- update labels
          (fun s => s <- str_method remove_code_colon (fillna Unknown s) ;;
                    s <- str_method str_lower s ;;
                    s <- str_method (str_replace (py ", ") (py ",")) s ;;
                    str_method (str_replace (py ",") (py ", ")) s) df ;;
  df <- update packaging
          (fun s => s <- str_method remove_code_colon s ;;
                    s <- str_method (str_replace (py ", ") (py ",")) s ;;
                    s <- str_method (str_replace (py ",") (py ", ")) s ;;
                    s <- str_method str_strip s ;;
                    str_method str_title (fillna Unknown s)) df ;;
  update packaging
    (fun s => Ok (series_replace
                    [py "40g"; py "packaging"; py "plaza vea"; py "za"]
                    Unknown s)) df.

Definition clean_nutriscore (df : DataFrame) : result DataFrame :=
  df <- update nutriscore_grade
          (fun s => str_method str_lower
                      (series_replace [py "not-applicable"] Unknown
                         (fillna unknown s))) df ;;
  s <- getitem df nutriscore_grade ;;
  let df := setitem df nutriscore_numeric (series_map nutri_map s) in
  drop_column df environmental_score_score.

Definition clean_nova_group (df : DataFrame) : result DataFrame :=
  df <- update nova_group (fun s => Ok (fillna unknown s)) df ;;
  s <- getitem df nova_group ;;
  Ok (setitem df nova_group_label (series_map nova_map s)).

Definition LO : float := Fin 0.
Definition HI : float := Fin 1000.

(** [df.loc[(df[col] < 0) | (df[col] > 1000), col] = np.nan] on the cells
    of the column. *)
Definition mask_outliers (l : list float) : list float :=
  List.map (fun x => if out_of_range LO HI x then NaN else x) l.

(** The body of the loop of [clean_nutritional_columns]. *)
Definition clean_numeric_column (df : DataFrame) (col : pystr) : result DataFrame :=
  df <- update col
          (fun s => l <- floats_of s ;; Ok (with_floats s (mask_outliers l))) df ;;
  update col
    (fun s => m <- series_median s ;; astype_float32 (fillna (VNum m) s)) df.

Fixpoint for_each (cols : list pystr) (df : DataFrame) : result DataFrame :=
  match cols with
  | [] => Ok df
  | col :: cols' => df <- clean_numeric_column df col ;; for_each cols' df
  end.

Definition clean_nutritional_columns (df : DataFrame) : result DataFrame :=
  for_each num_cols df.

End Stages.

(** ** The reporter and the pipeline *)

(** What [print] is given, call by call; the values formatted into an
    f-string are kept as values next to the text before them, and the
    pictographs that open most lines are left out of the text. *)
Inductive printed : Type :=
| Text (s : string)
| ShapeLine (label : string) (sh : nat * nat)
| CountLine (label : string) (n : Z)
| MissingTable (counts : list (pystr * nat)).

Definition newline : string := String (ascii_of_nat 10) EmptyString.

(** ["=" * 35] *)
Definition rule : string := "===================================".

(** [df.isnull().sum()] *)
Definition missing_counts (df : DataFrame) : list (pystr * nat) :=
  List.map (fun c => (fst c, List.length (filter isna (values (snd c))))) (columns df).

Section Reporter.
Context {L : PyLib}.

(** [missing[missing > 0].sort_values(ascending=False)] *)
Definition remaining_missing (df : DataFrame) : list (pystr * nat) :=
  pd_sort_desc (filter (fun c => (0 <? snd c)%nat) (missing_counts df)).

Definition show_cleaning_summary (df : DataFrame) (original_shape : nat * nat)
  : list printed * DataFrame :=
  let cleaned_shape := shape df in
  let removed_rows := (Z.of_nat (fst original_shape) - Z.of_nat (fst cleaned_shape))%Z in
  let removed_cols := (Z.of_nat (snd original_shape) - Z.of_nat (snd cleaned_shape))%Z in
  let missing := remaining_missing df in
  ([ Text (newline ++ rule);
     Text "CLEANING SUMMARY";
     Text rule;
     ShapeLine "Original Shape      : " original_shape;
     ShapeLine "Cleaned Shape       : " cleaned_shape;
     CountLine "Rows Removed         : " removed_rows;
     CountLine "Columns Removed      : " removed_cols;
     Text (newline ++ "TRANSFORMATIONS SUMMARY");
     Text "- product_name: HTML unescaped, stripped, title-cased, filled missing with 'Unknown', and removed 'Xxx'";
     Text "- brands: Cleaned casing, spacing, and punctuation; replaced known bad values; filled NAs";
     Text "- categories: Cleaned hierarchy; extracted top-level; handled undefined/unknown";
     Text "- countries: Normalized codes to country names; unified formatting and naming";
     Text "- ingredients_text / labels / packaging: Cleaned formatting, lang codes removed, lower/title cased";
     Text "- nutriscore_grade: Normalized to lowercase, 'not-applicable' fixed; mapped to numeric score";
     Text "- nova_group: Nulls filled with 'unknown'; mapped to readable labels";
     Text "- nutritional columns: Outliers capped, filled missing with median, converted to float32";
     Text "- Dropped: 'environmental_score_score' column (too sparse or irrelevant)";
     Text (newline ++ "MISSING VALUE CHECK") ]
   ++ (match missing with
       | [] => [ Text "No missing values left!" ]
       | _ :: _ => [ Text "Remaining missing values (top 10):";
                     MissingTable (firstn 10 missing) ]
       end)
   ++ [ Text (rule ++ newline) ],
   df).

End Reporter.

(** What one run leaves behind: the logged number of duplicated rows, the
    table given to [save_data] and the printed summary. *)
Record pipeline_run : Type := {
  duplicate_rows : nat;
  saved : DataFrame;
  console : list printed
}.

Section Pipeline.
Context {L : PyLib}.

(** [run_pipeline], from the table that [load_data] has read. *)
Definition run_pipeline (raw : DataFrame) : result pipeline_run :=
  let df := raw in
  let duplicate_rows := count_true (duplicated df) in
  let df := drop_duplicates df in
  let original_shape := shape df in
  df <- clean_product_name df ;;
  df <- clean_brands df ;;
  df <- clean_categories df ;;
  df <- clean_countries df ;;
  df <- clean_ingredients_labels_packaging df ;;
  df <- clean_nutriscore df ;;
  df <- clean_nova_group df ;;
  df <- clean_nutritional_columns df ;;
  let written := df in
  let (out, df) := show_cleaning_summary df original_shape in
  Ok {| duplicate_rows := duplicate_rows; saved := written; console := out |}.

End Pipeline.

(** ** The tables as objects of the interpreter

    A [DataFrame] of pandas is an object: an assignment [df[c] = s] or a
    [drop(..., inplace=True)] changes it for every holder of a reference,
    while [df.isnull()], [sum], a selection by a mask, [sort_values] and
    [head] build new objects.  The definitions of this module follow the
    script statement by statement on a heap of such objects, next to what
    has been printed, what has been logged and the file that [save_data]
    writes. *)

Module InPlace.

Inductive object : Type :=
| Frame (df : DataFrame)
| Counts (c : list (pystr * nat)).

Definition ref : Type := nat.

Record world : Type := {
  heap : list object;
  stdout : list printed;
  stderr : list string;
  csv : option DataFrame
}.

(** A statement: it may raise, return a value, and change the world. *)
Definition io (A : Type) : Type := world -> result (A * world).

Definition ret {A} (a : A) : io A := fun w => Ok (a, w).

Definition and_then {A B} (c : io A) (k : A -> io B) : io B :=
  fun w => match c w with
           | Ok (a, w') => k a w'
           | Raise e => Raise e
           end.

Notation "x <~ c ;; k" := (and_then c (fun x => k))
  (at level 61, c at next level, right associativity).
Notation "c ;;; k" := (and_then c (fun _ => k))
  (at level 61, right associativity).

Definition lift {A} (r : result A) : io A :=
  fun w => match r with
           | Ok a => Ok (a, w)
           | Raise e => Raise e
           end.

(** A new object; its reference is the next free place of the heap. *)
Definition alloc (o : object) : io ref :=
  fun w => Ok (List.length (heap w),
               {| heap := heap w ++ [o]; stdout := stdout w;
                  stderr := stderr w; csv := csv w |}).

Fixpoint put {A} (i : nat) (a : A) (l : list A) : list A :=
  match l, i with
  | [], _ => []
  | _ :: l', O => a :: l'
  | b :: l', S i' => b :: put i' a l'
  end.

(** The object behind a reference is changed, for every holder of the
    reference. *)
Definition store (r : ref) (o : object) : io unit :=
  fun w => Ok (tt, {| heap := put r o (heap w); stdout := stdout w;
                      stderr := stderr w; csv := csv w |}).

(** The object behind a reference.  In Python a reference always leads
    to an object of the expected kind; the other case is there to make
    the functions total. *)
Definition frame_at (r : ref) : io DataFrame :=
  fun w => match nth_error (heap w) r with
           | Some (Frame df) => Ok (df, w)
           | _ => Raise TypeError
           end.

Definition counts_at (r : ref) : io (list (pystr * nat)) :=
  fun w => match nth_error (heap w) r with
           | Some (Counts c) => Ok (c, w)
           | _ => Raise TypeError
           end.

(** [print(...)] *)
Definition py_print (p : printed) : io unit :=
  fun w => Ok (tt, {| heap := heap w; stdout := stdout w ++ [p];
                      stderr := stderr w; csv := csv w |}).

(** [logger.info(...)]: the log goes to the standard error stream; the
    message is kept without its pictograph and without the level that
    the handler puts before it. *)
Definition logger_info (s : string) : io unit :=
  fun w => Ok (tt, {| heap := heap w; stdout := stdout w;
                      stderr := stderr w ++ [s]; csv := csv w |}).

(** [df.shape] *)
Definition df_shape (df : ref) : io (nat * nat) :=
  d <~ frame_at df ;; ret (shape d).

(** [df[name]] *)
Definition df_getitem (df : ref) (name : pystr) : io Series :=
  d <~ frame_at df ;; lift (getitem d name).

(** [df[name] = s] *)
Definition df_setitem (df : ref) (name : pystr) (s : Series) : io unit :=
  d <~ frame_at df ;; store df (Frame (setitem d name s)).

(** [df.drop(columns=[name], inplace=True)] *)
Definition df_drop_inplace (df : ref) (name : pystr) : io unit :=
  d <~ frame_at df ;; d' <~ lift (drop_column d name) ;; store df (Frame d').

(** [df.isnull().sum()]: a new Series; the table of flags in between is
    not kept. *)
Definition isnull_sum (df : ref) : io ref :=
  d <~ frame_at df ;; alloc (Counts (missing_counts d)).

(** [s[s > 0]] *)
Definition positive (s : ref) : io ref :=
  c <~ counts_at s ;; alloc (Counts (filter (fun x => (0 <? snd x)%nat) c)).

(** [s.sort_values(ascending=False)], without [inplace] *)
Definition sort_values_desc {L : PyLib} (s : ref) : io ref :=
  c <~ counts_at s ;; alloc (Counts (pd_sort_desc c)).

(** [s.empty] *)
Definition series_empty (s : ref) : io bool :=
  c <~ counts_at s ;; ret (match c with [] => true | _ :: _ => false end).

(** [s.head(n)] *)
Definition series_head (n : nat) (s : ref) : io ref :=
  c <~ counts_at s ;; alloc (Counts (firstn n c)).

(** [print(s)] for a Series of counts *)
Definition print_counts (s : ref) : io unit :=
  c <~ counts_at s ;; py_print (MissingTable c).

(** [df.to_csv(filename, index=False)] *)
Definition to_csv (df : ref) : io unit :=
  d <~ frame_at df ;;
  fun w => Ok (tt, {| heap := heap w; stdout := stdout w;
                      stderr := stderr w; csv := Some d |}).

Section Script.
Context {L : PyLib}.

(** Lines 106 to 117: the stage writes to the table it is given and
    returns that table. *)
Definition clean_nova_group (df : ref) : io ref :=
  logger_info "Cleaning nova_group" ;;;
  s <~ df_getitem df nova_group ;;
  df_setitem df nova_group (fillna unknown s) ;;;
  s <~ df_getitem df nova_group ;;
  df_setitem df nova_group_label (series_map nova_map s) ;;;
  ret df.

(** Lines 131 to 133 *)
Definition save_data (df : ref) : io unit :=
  to_csv df ;;;
  logger_info "Cleaned data saved to cleaned_openfood.csv".

(** Lines 136 to 172 *)
Definition show_cleaning_summary (df : ref) (original_shape : nat * nat)
  : io ref :=
  logger_info "Generating cleaning summary..." ;;;
  cleaned_shape <~ df_shape df ;;
  let removed_rows := (Z.of_nat (fst original_shape) - Z.of_nat (fst cleaned_shape))%Z in
  let removed_cols := (Z.of_nat (snd original_shape) - Z.of_nat (snd cleaned_shape))%Z in
  py_print (Text (newline ++ rule)) ;;;
  py_print (Text "CLEANING SUMMARY") ;;;
  py_print (Text rule) ;;;
  py_print (ShapeLine "Original Shape      : " original_shape) ;;;
  py_print (ShapeLine "Cleaned Shape       : " cleaned_shape) ;;;
  py_print (CountLine "Rows Removed         : " removed_rows) ;;;
  py_print (CountLine "Columns Removed      : " removed_cols) ;;;
  py_print (Text (newline ++ "TRANSFORMATIONS SUMMARY")) ;;;
  py_print (Text "- product_name: HTML unescaped, stripped, title-cased, filled missing with 'Unknown', and removed 'Xxx'") ;;;
  py_print (Text "- brands: Cleaned casing, spacing, and punctuation; replaced known bad values; filled NAs") ;;;
  py_print (Text "- categories: Cleaned hierarchy; extracted top-level; handled undefined/unknown") ;;;
  py_print (Text "- countries: Normalized codes to country names; unified formatting and naming") ;;;
  py_print (Text "- ingredients_text / labels / packaging: Cleaned formatting, lang codes removed, lower/title cased") ;;;
  py_print (Text "- nutriscore_grade: Normalized to lowercase, 'not-applicable' fixed; mapped to numeric score") ;;;
  py_print (Text "- nova_group: Nulls filled with 'unknown'; mapped to readable labels") ;;;
  py_print (Text "- nutritional columns: Outliers capped, filled missing with median, converted to float32") ;;;
  py_print (Text "- Dropped: 'environmental_score_score' column (too sparse or irrelevant)") ;;;
  py_print (Text (newline ++ "MISSING VALUE CHECK")) ;;;
  missing <~ isnull_sum df ;;
  missing <~ positive missing ;;
  missing <~ sort_values_desc missing ;;
  empty <~ series_empty missing ;;
  (if negb empty
   then py_print (Text "Remaining missing values (top 10):") ;;;
        top <~ series_head 10 missing ;;
        print_counts top
   else py_print (Text "No missing values left!")) ;;;
  py_print (Text (rule ++ newline)) ;;;
  ret df.

End Script.

End InPlace.

(** ** The stages read cell by cell *)

Section Cells.
Context {L : PyLib}.

(** Line 100 on one cell of [nutriscore_grade]. *)
Definition nutriscore_code (v : value) : value :=
  str_cell str_lower
    (replace_cell [py "not-applicable"] Unknown (fill_cell unknown v)).

(** Lines 108 to 115: the label stored for a raw NOVA group. *)
Definition nova_label (v : value) : value :=
  map_cell nova_map (fill_cell unknown v).

(** A value that the numeric sanitizer accepts: it lies in [0, 1000]. *)
Definition in_range (x : float) : bool := float_leb LO x && float_leb x HI.

(** The sanitizer in the words of the specification, for a column with
    the cells [l] read at the width [w]: one median, taken over the
    accepted cells only, stands in for every other cell; then the column
    is stored as float32. *)
Definition valid_median (w : width) (l : list float) : float :=
  median_of w (filter in_range l).

Definition sanitized (w : width) (l : list float) : list float :=
  List.map (fun x => float_cast F32 (if in_range x then x else valid_median w l)) l.

(** The cells of a column, none when the column does not exist. *)
Definition column_values (df : DataFrame) (name : pystr) : list value :=
  match lookup name (columns df) with
  | Some s => values s
  | None => []
  end.

(** [df["product_name"] != "Xxx"] of line 54, seen from the raw cell. *)
Definition kept (v : value) : bool :=
  match normalized_name v with
  | VStr x => negb (pystr_eqb x Xxx)
  | VNum _ => true
  end.

Definition xxx_mask (df : DataFrame) : list bool :=
  List.map kept (column_values df product_name).

(** The rows that the [Xxx] filter takes out of a table. *)
Definition xxx_rows (df : DataFrame) : nat :=
  List.length (filter negb (xxx_mask df)).

(** "xxx" in any letter case. *)
Definition is_xxx_anycase (s : pystr) : bool :=
  pystr_eqb (List.map ascii_tolower s) (py "xxx").

End Cells.

(** The NOVA groups that [nova_map] knows. *)
Definition known_group (x : float) : bool :=
  existsb (fun k => float_eqb (Fin (inject_Z k)) x) [1; 2; 3; 4]%Z.

(** A column of an [object] dtype whose cells are strings or missing, and
    one whose cells are all strings: what the text stages leave behind. *)
Definition text_series (s : Series) : bool :=
  match s with
  | ObjSeries l => forallb (fun v => is_str v || isna v) l
  | FloatSeries _ _ => false
  end.

Definition str_series (s : Series) : bool :=
  match s with
  | ObjSeries l => forallb is_str l
  | FloatSeries _ _ => false
  end.

(** The column [name] exists and has the property [P]. *)
Definition column_is (P : Series -> bool) (df : DataFrame) (name : pystr) : bool :=
  match lookup name (columns df) with
  | Some s => P s
  | None => false
  end.

(** The column program [f] returns on every column with the property [P],
    and what it returns has the property [Q]. *)
Definition runs_on (P Q : Series -> bool) (f : Series -> result Series) : Prop :=
  forall s, P s = true -> exists s', f s = Ok s' /\ Q s' = true.

(** ** A small table to run the stages on *)

Definition txt (s : string) : value := VStr (py s).
Definition fl (n : Z) (d : positive) : float := Fin (n # d).

Definition sample : DataFrame := {|
  nrows := 5;
  columns :=
    [ (product_name, ObjSeries [txt "  nutella &amp; co "; txt "xXx"; NA; txt "nutella"; NA]);
      (brands, ObjSeries [txt "ferrero,kinder"; txt "b"; NA; txt "ferrero"; NA]);
      (categories, ObjSeries [txt "en:spreads,sweet"; txt "za"; NA; txt "undefined"; NA]);
      (countries, ObjSeries [txt "en:fr,Us"; txt "Xyzland"; NA; txt "DE, world"; NA]);
      (ingredients_text, ObjSeries [txt "Sugar,   palm oil "; txt "x"; NA; txt "Sugar"; NA]);
      (labels, ObjSeries [txt "en:Organic, fr:bio"; txt "x"; NA; txt "Vegan"; NA]);
      (packaging, ObjSeries [txt "en:glass,jar"; txt "x"; NA; txt "40g"; NA]);
      (nutriscore_grade, ObjSeries [txt "E"; txt "a"; NA; txt "not-applicable"; NA]);
      (nova_group, FloatSeries F64 [fl 4 1; fl 1 1; NaN; fl 5 1; NaN]);
      (environmental_score_score, FloatSeries F64 [fl 30 1; NaN; NaN; NaN; NaN]);
      (py "energy-kcal_100g", FloatSeries F64 [fl 539 1; fl 100 1; NaN; fl 5000 1; NaN]);
      (py "fat_100g", FloatSeries F64 [fl 309 10; fl (-1) 1; NaN; fl 1 10; NaN]);
      (py "saturated-fat_100g", FloatSeries F64 [fl 106 10; fl 1 1; NaN; PInf; NaN]);
      (py "sugars_100g", FloatSeries F64 [fl 563 10; fl 1 1; NaN; fl 2 1; NaN]);
      (py "salt_100g", FloatSeries F64 [NaN; fl 2000 1; NaN; NaN; NaN]);
      (py "proteins_100g", FloatSeries F64 [fl 63 10; fl 1 1; NaN; fl 2 1; NaN]);
      (py "fiber_100g", FloatSeries F64 [fl 0 1; fl 1 1; NaN; fl 1000 1; NaN]);
      (py "carbohydrates_100g", FloatSeries F64 [fl 575 10; fl 1 1; NaN; fl 2 1; NaN]) ]
|}.

(** One row whose NOVA group is 5. *)
Definition nova_five : DataFrame := {|
  nrows := 1;
  columns := [ (nova_group, FloatSeries F64 [fl 5 1]) ]
|}.

(** Three countries cells. *)
Definition countries_table : DataFrame := {|
  nrows := 3;
  columns := [ (countries, ObjSeries [txt "Fr"; txt "Us"; txt "Xyzland"]) ]
|}.

(** Three grades, with the column that the nutriscore stage drops. *)
Definition grades_table : DataFrame := {|
  nrows := 3;
  columns :=
    [ (nutriscore_grade, ObjSeries [txt "a"; NA; txt "not-applicable"]);
      (environmental_score_score, FloatSeries F64 [fl 30 1; NaN; NaN]) ]
|}.

(** ** Labels, cells and tables for the further properties *)

(** The labels of the columns, in their order. *)
Definition names (df : DataFrame) : list pystr := List.map fst (columns df).

(** The columns that the stages read, in the order in which the pipeline
    first asks for them. *)
Definition expected_columns : list pystr :=
  [ product_name; brands; categories; countries; ingredients_text; labels;
    packaging; nutriscore_grade; environmental_score_score; nova_group ]
  ++ num_cols.

(** The columns that the stages derive. *)
Definition derived_columns : list pystr :=
  [ categories_top; nutriscore_numeric; nova_group_label ].

Definition without (name : pystr) (l : list pystr) : list pystr :=
  filter (fun n => negb (pystr_eqb n name)) l.

Definition has_name (l : list pystr) (c : pystr) : bool :=
  existsb (pystr_eqb c) l.

(** The labels after [df[c] = ...]: a new label goes to the end. *)
Definition with_column (c : pystr) (l : list pystr) : list pystr :=
  if has_name l c then l else l ++ [c].

(** The labels of the table that a run saves, from the labels of the table
    it read. *)
Definition saved_labels (l : list pystr) : list pystr :=
  with_column nova_group_label
    (without environmental_score_score
       (with_column nutriscore_numeric (with_column categories_top l))).

(** Counts that do not rise along the list. *)
Fixpoint falling (l : list (pystr * nat)) : bool :=
  match l with
  | a :: (b :: _) as t => (snd b <=? snd a)%nat && falling t
  | _ => true
  end.

(** What every sorting routine does, whatever it does with equal counts:
    it returns the entries it was given, in falling order. *)
Definition sorts_falling (L : PyLib) : Prop :=
  forall l, Permutation (pd_sort_desc l) l /\ falling (pd_sort_desc l) = true.

(** Every comma is followed by a space. *)
Fixpoint comma_spaced (s : pystr) : bool :=
  match s with
  | [] => true
  | c :: s' =>
      (if (c =? COMMA)%N
       then match s' with
            | c' :: _ => (c' =? SPACE)%N
            | [] => false
            end
       else true)
      && comma_spaced s'
  end.

(** The two replacements of lines 64, 78, 93 and 94 in a row:
    [.replace(", ", ",").replace(",", ", ")]. *)
Definition space_commas (s : pystr) : pystr :=
  str_replace (py ",") (py ", ") (str_replace (py ", ") (py ",") s).

(** The result of a function applied by [Series.apply] to a cell on
    which it returns. *)
Definition returned (f : value -> result value) (v : value) : value :=
  match f v with
  | Ok b => b
  | Raise _ => v
  end.

Section MoreCells.
Context {L : PyLib}.

(** Lines 60 to 65 on a brands cell that holds a string. *)
Definition brand_of (s : pystr) : pystr :=
  let t := str_strip (str_title (html_unescape s)) in
  let t := if pystr_eqb t (py "Xylimgxyling") then py "Unknown" else t in
  space_commas (str_replace [8217%N] (py "'") t).

(** Lines 70 and 71 on a categories cell that holds a string. *)
Definition category_of (s : pystr) : pystr :=
  if pystr_eqb s (py "undefined") || pystr_eqb s (py "za")
  then py "Unknown"
  else remove_lang_prefix_str (str_strip s).

(** Line 72 on the cleaned categories cell. *)
Definition category_top_of (s : pystr) : pystr :=
  str_title (first_segment s).

(** Lines 92 to 95 on a cell that holds a string. *)
Definition ingredients_of (s : pystr) : pystr :=
  collapse_spaces (str_lower (str_strip s)).

Definition labels_of (s : pystr) : pystr :=
  space_commas (str_lower (remove_code_colon s)).

Definition packaging_of (s : pystr) : pystr :=
  let t := str_title (str_strip (space_commas (remove_code_colon s))) in
  if existsb (pystr_eqb t)
       [py "40g"; py "packaging"; py "plaza vea"; py "za"]
  then py "Unknown" else t.

(** The same lines on any cell, step by step. *)
Definition brand_cell (v : value) : value :=
  fill_cell Unknown
    (str_cell (str_replace (py ",") (py ", "))
       (str_cell (str_replace (py ", ") (py ","))
          (str_cell (str_replace [8217%N] (py "'"))
             (replace_cell [py "Xylimgxyling"] Unknown
                (str_cell str_strip
                   (str_cell str_title (returned unescape_cell v))))))).

Definition category_cell (v : value) : value :=
  returned remove_lang_prefix
    (fill_cell Unknown
       (str_cell str_strip
          (replace_cell [py "undefined"; py "za"] NA v))).

Definition category_top_cell (v : value) : value :=
  fill_cell Unknown (str_cell str_title (str_cell first_segment v)).

Definition ingredients_cell (v : value) : value :=
  str_cell collapse_spaces
    (str_cell str_lower (str_cell str_strip (fill_cell Unknown v))).

Definition labels_cell (v : value) : value :=
  str_cell (str_replace (py ",") (py ", "))
    (str_cell (str_replace (py ", ") (py ","))
       (str_cell str_lower
          (str_cell remove_code_colon (fill_cell Unknown v)))).

Definition packaging_cell (v : value) : value :=
  replace_cell [py "40g"; py "packaging"; py "plaza vea"; py "za"] Unknown
    (str_cell str_title
       (fill_cell Unknown
          (str_cell str_strip
             (str_cell (str_replace (py ",") (py ", "))
                (str_cell (str_replace (py ", ") (py ","))
                   (str_cell remove_code_colon v)))))).

End MoreCells.

(** No white space but single plain spaces: the form that
    [re.sub(r"\s+", " ", s)] leaves. *)
Fixpoint single_spaced {L : PyLib} (s : pystr) : bool :=
  match s with
  | [] => true
  | c :: s' =>
      (if py_isspace c
       then (c =? SPACE)%N
            && match s' with
               | c' :: _ => negb (py_isspace c')
               | [] => true
               end
       else true)
      && single_spaced s'
  end.

(** ASCII text in title case: a lower-case letter only follows a letter. *)
Fixpoint titled (previous_is_letter : bool) (s : pystr) : bool :=
  match s with
  | [] => true
  | c :: s' =>
      (if ascii_islower c then previous_is_letter else true)
      && titled (ascii_isalpha c) s'
  end.

(** A token that the country mapping leaves alone in a joined cell. *)
Definition settled {L : PyLib} (e : pystr) : Prop :=
  ~ In COMMA e /\ str_strip e = e /\ country_get e = e.

(** Two NOVA cells that hold text. *)
Definition nova_text : DataFrame := {|
  nrows := 2;
  columns := [ (nova_group, ObjSeries [txt "unknown"; txt "n/a"]) ]
|}.

(** Two rows without a product name: the column of a file in which no
    name is filled in is read as a column of floats. *)
Definition no_names : DataFrame := {|
  nrows := 2;
  columns := [ (product_name, FloatSeries F64 [NaN; NaN]);
               (brands, ObjSeries [txt "a"; txt "b"]) ]
|}.

(** The interpreter after [save_data] has written the sample: one table
    on the heap, nothing printed yet. *)
Definition sample_world : InPlace.world := {|
  InPlace.heap := [InPlace.Frame sample];
  InPlace.stdout := [];
  InPlace.stderr := [];
  InPlace.csv := Some sample
|}.

(** The sample with a column that the script does not name. *)
Definition coded : DataFrame :=
  setitem sample (py "code")
    (ObjSeries [txt "c1"; txt "c2"; txt "c3"; txt "c4"; txt "c5"]).

(** Two text columns without any value, read as columns of floats. *)
Definition float_text : DataFrame := {|
  nrows := 2;
  columns := [ (product_name, FloatSeries F64 [NaN; NaN]);
               (countries, FloatSeries F64 [NaN; NaN]) ]
|}.

(** A nutritional column that holds text. *)
Definition kcal_text : DataFrame := {|
  nrows := 2;
  columns := [ (py "energy-kcal_100g", ObjSeries [num 12; txt "n/a"]) ]
|}.

(** ** The definitions at work on small inputs *)

Example title_ex : str_title (L:=ascii_lib) (py "hello wORLD, it's 3d") = py "Hello World, It'S 3D".
Proof. reflexivity. Qed.
Example strip_ex : str_strip (L:=ascii_lib) (py "  a b  ") = py "a b".
Proof. reflexivity. Qed.
Example replace_ex : str_replace (py ", ") (py ",") (py "a, b,c,  d") = py "a,b,c, d".
Proof. reflexivity. Qed.
Example split_ex : str_split COMMA (py "a,,b,") = [py "a"; []; py "b"; []].
Proof. reflexivity. Qed.
Example code_ex : remove_code_colon (L:=ascii_lib) (py "en:France, fr:us,abcd:x, de:") = py "France, us,abcd:x, ".
Proof. reflexivity. Qed.
Example spaces_ex : collapse_spaces (L:=ascii_lib) (py "a   b c  ") = py "a b c ".
Proof. reflexivity. Qed.
Example round32_ex : round_to F32 (1 # 10)%Q = Fin (13421773 # 134217728)%Q.
Proof. vm_compute. reflexivity. Qed.
Example median_ex : median_of F64 [Fin 3%Q; Fin 1%Q; Fin 4%Q; Fin 2%Q] = Fin (5 # 2)%Q.
Proof. vm_compute. reflexivity. Qed.

(** ** Columns of a table: what an assignment changes and what it keeps *)

Lemma pystr_eqb_eq (a b : pystr) : pystr_eqb a b = true <-> a = b.
Proof.
  unfold pystr_eqb. destruct (list_eq_dec N.eq_dec a b); split; intros; congruence.
Qed.

Lemma pystr_eqb_refl (a : pystr) : pystr_eqb a a = true.
Proof. now apply pystr_eqb_eq. Qed.

Lemma pystr_eqb_neq (a b : pystr) : a <> b -> pystr_eqb a b = false.
Proof.
  intros H. destruct (pystr_eqb a b) eqn:E; [|reflexivity].
  now apply pystr_eqb_eq in E.
Qed.

Lemma lookup_assign_same name s cols : lookup name (assign name s cols) = Some s.
Proof.
  induction cols as [|[n s0] cols IH]; simpl.
  - now rewrite pystr_eqb_refl.
  - destruct (pystr_eqb n name) eqn:E; simpl; rewrite E; auto.
Qed.

Lemma lookup_assign_other name other s cols :
  name <> other -> lookup other (assign name s cols) = lookup other cols.
Proof.
  intros Hne. induction cols as [|[n s0] cols IH]; simpl.
  - now rewrite pystr_eqb_neq.
  - destruct (pystr_eqb n name) eqn:E; simpl.
    + apply pystr_eqb_eq in E. subst n. now rewrite pystr_eqb_neq.
    + now rewrite IH.
Qed.

Lemma lookup_filter_other name other cols :
  name <> other ->
  lookup other (filter (fun c => negb (pystr_eqb (fst c) name)) cols) = lookup other cols.
Proof.
  intros Hne. induction cols as [|[n s0] cols IH]; simpl; [reflexivity|].
  destruct (pystr_eqb n name) eqn:E; simpl.
  - apply pystr_eqb_eq in E. subst n. now rewrite pystr_eqb_neq.
  - now rewrite IH.
Qed.

Lemma lookup_filter_same name cols :
  lookup name (filter (fun c => negb (pystr_eqb (fst c) name)) cols) = None.
Proof.
  induction cols as [|[n s0] cols IH]; simpl; [reflexivity|].
  destruct (pystr_eqb n name) eqn:E; simpl; [|rewrite E]; exact IH.
Qed.

Lemma lookup_select mask name cols :
  lookup name (List.map (fun c => (fst c, select_series mask (snd c))) cols)
  = option_map (select_series mask) (lookup name cols).
Proof.
  induction cols as [|[n s0] cols IH]; simpl; [reflexivity|].
  destruct (pystr_eqb n name); simpl; auto.
Qed.

(** Inversion of the steps of the exception monad. *)
Lemma bind_ok {A B} (r : result A) (k : A -> result B) b :
  bind r k = Ok b -> exists a, r = Ok a /\ k a = Ok b.
Proof. destruct r; simpl; intros H; [eauto | discriminate]. Qed.

Ltac inv_bind H :=
  let a := fresh "x" in
  let H1 := fresh "Hstep" in
  apply bind_ok in H; destruct H as (a & H1 & H).

Lemma getitem_ok df name s :
  getitem df name = Ok s -> lookup name (columns df) = Some s.
Proof. unfold getitem. destruct (lookup name (columns df)); congruence. Qed.

Lemma update_ok name f df df' :
  update name f df = Ok df' ->
  exists s s', lookup name (columns df) = Some s /\ f s = Ok s'
               /\ df' = setitem df name s'.
Proof.
  unfold update. intros H. inv_bind H. inv_bind H.
  apply getitem_ok in Hstep. inversion H. eauto.
Qed.

Lemma update_nrows name f df df' :
  update name f df = Ok df' -> nrows df' = nrows df.
Proof. intros H. apply update_ok in H. destruct H as (s & s' & _ & _ & ->). reflexivity. Qed.

Lemma update_lookup_other name other f df df' :
  update name f df = Ok df' -> name <> other ->
  lookup other (columns df') = lookup other (columns df).
Proof.
  intros H Hne. apply update_ok in H. destruct H as (s & s' & _ & _ & ->).
  simpl. now apply lookup_assign_other.
Qed.

Lemma update_has_column name other f df df' :
  update name f df = Ok df' -> has_column df' other = has_column df other.
Proof.
  intros H. apply update_ok in H. destruct H as (s & s' & Hs & _ & ->).
  unfold has_column. simpl.
  destruct (list_eq_dec N.eq_dec name other) as [->|Hne].
  - now rewrite lookup_assign_same, Hs.
  - now rewrite lookup_assign_other.
Qed.

Lemma setitem_has_column name other s df :
  name <> other -> has_column (setitem df name s) other = has_column df other.
Proof. intros Hne. unfold has_column. simpl. now rewrite lookup_assign_other. Qed.

Lemma select_rows_has_column mask df name :
  has_column (select_rows mask df) name = has_column df name.
Proof.
  unfold has_column, select_rows. simpl. rewrite lookup_select.
  now destruct (lookup name (columns df)).
Qed.

(** ** Cell by cell: what the column operations do to one cell *)

Lemma all_floats_values l xs : all_floats l = Some xs -> List.map VNum xs = l.
Proof.
  revert xs. induction l as [|v l IH]; simpl; intros xs H.
  - inversion H. reflexivity.
  - destruct v; [discriminate|].
    destruct (all_floats l) eqn:E; [|discriminate].
    inversion H. simpl. f_equal. now apply IH.
Qed.

Lemma values_infer_series l : values (infer_series l) = l.
Proof.
  unfold infer_series. destruct (all_floats l) eqn:E; simpl; [|reflexivity].
  now apply all_floats_values.
Qed.

Lemma values_fillna_str u s :
  values (fillna (VStr u) s) = List.map (fill_cell (VStr u)) (values s).
Proof.
  destruct s as [l|w l]; simpl; [reflexivity|].
  destruct (existsb float_isnan l) eqn:E; simpl.
  - rewrite map_map. apply map_ext. intros [| | |q]; reflexivity.
  - rewrite map_map. apply map_ext_in. intros x Hx.
    destruct x; try reflexivity.
    assert (existsb float_isnan l = true) by (apply existsb_exists; eauto).
    congruence.
Qed.

Lemma values_series_replace olds new s :
  values (series_replace olds new s) = List.map (replace_cell olds new) (values s).
Proof.
  destruct s as [l|w l]; simpl; [reflexivity|].
  rewrite map_map. symmetry. apply map_ext. reflexivity.
Qed.

Lemma str_method_values f s s' :
  str_method f s = Ok s' -> s' = ObjSeries (List.map (str_cell f) (values s)).
Proof.
  unfold str_method, str_accessor. intros H. inv_bind H.
  destruct s as [l|w l]; [|discriminate].
  destruct (existsb is_str l || forallb isna l); [|discriminate].
  inversion Hstep. subst. inversion H. reflexivity.
Qed.

Lemma values_series_map d s :
  values (series_map d s) = List.map (map_cell d) (values s).
Proof.
  unfold series_map.
  destruct (forallb is_num (List.map snd d)); [|reflexivity].
  destruct (all_floats (List.map (map_cell d) (values s))) eqn:E; [|reflexivity].
  simpl. now apply all_floats_values.
Qed.

Lemma mapM_nth {A B} (f : A -> result B) l l' i a :
  mapM f l = Ok l' -> nth_error l i = Some a ->
  exists b, f a = Ok b /\ nth_error l' i = Some b.
Proof.
  revert l' i. induction l as [|x l IH]; intros l' i H Hi.
  - destruct i; discriminate.
  - simpl in H. inv_bind H. inv_bind H. inversion H. subst l'.
    destruct i; simpl in *.
    + inversion Hi. subst. eauto.
    + eapply IH; eauto.
Qed.

Lemma series_apply_nth f s s' i a :
  series_apply f s = Ok s' -> nth_error (values s) i = Some a ->
  exists b, f a = Ok b /\ nth_error (values s') i = Some b.
Proof.
  unfold series_apply. intros H Hi.
  destruct (values s) as [|v l] eqn:E.
  - destruct i; discriminate.
  - inv_bind H. inversion H. rewrite values_infer_series.
    eapply mapM_nth; eauto.
Qed.

Lemma cell_setitem_same df name s i :
  cell (setitem df name s) name i = nth_error (values s) i.
Proof. unfold cell. simpl. now rewrite lookup_assign_same. Qed.

Lemma cell_setitem_other df name other s i :
  name <> other -> cell (setitem df name s) other i = cell df other i.
Proof. intros H. unfold cell. simpl. now rewrite lookup_assign_other. Qed.

(** After [df[name] = f(df[name])] with a cell-wise [f], the cell of a row
    is the image of the cell it had. *)
Lemma update_cell name f g df df' i :
  update name f df = Ok df' ->
  (forall s s', f s = Ok s' -> values s' = List.map g (values s)) ->
  cell df' name i = option_map g (cell df name i).
Proof.
  intros H Hf. apply update_ok in H. destruct H as (s & s' & Hs & Hfs & ->).
  rewrite cell_setitem_same. unfold cell. rewrite Hs.
  rewrite (Hf _ _ Hfs). apply nth_error_map.
Qed.

(** ** The nutriscore stage *)

Section Nutriscore.
Context {L : PyLib}.

Lemma drop_column_ok df name df' :
  drop_column df name = Ok df' ->
  has_column df name = true /\ nrows df' = nrows df /\
  columns df' = filter (fun c => negb (pystr_eqb (fst c) name)) (columns df).
Proof.
  unfold drop_column. destruct (has_column df name); [|discriminate].
  intros H. inversion H. auto.
Qed.

Lemma cell_drop_other df name other df' i :
  drop_column df name = Ok df' -> name <> other ->
  cell df' other i = cell df other i.
Proof.
  intros H Hne. apply drop_column_ok in H. destruct H as (_ & _ & Hc).
  unfold cell. rewrite Hc. now rewrite lookup_filter_other.
Qed.

Lemma nutriscore_grade_step s s' :
  str_method str_lower
    (series_replace [py "not-applicable"] Unknown (fillna unknown s)) = Ok s' ->
  values s' = List.map nutriscore_code (values s).
Proof.
  intros H. apply str_method_values in H. subst s'. simpl.
  rewrite values_series_replace. unfold unknown. rewrite values_fillna_str.
  rewrite !map_map. reflexivity.
Qed.

(** The two columns the stage writes, cell by cell. *)
Lemma clean_nutriscore_cells df df' i :
  clean_nutriscore df = Ok df' ->
  cell df' nutriscore_grade i = option_map nutriscore_code (cell df nutriscore_grade i)
  /\ cell df' nutriscore_numeric i
     = option_map (map_cell nutri_map) (cell df' nutriscore_grade i).
Proof.
  unfold clean_nutriscore. intros H. inv_bind H. inv_bind H.
  apply getitem_ok in Hstep0.
  assert (Hg : cell x nutriscore_grade i
               = option_map nutriscore_code (cell df nutriscore_grade i)).
  { eapply update_cell; eauto. intros s s'. apply nutriscore_grade_step. }
  rewrite !(cell_drop_other _ _ _ _ i H) by discriminate.
  rewrite cell_setitem_same, cell_setitem_other by discriminate.
  split; [exact Hg|].
  rewrite values_series_map, nth_error_map.
  unfold cell. now rewrite Hstep0.
Qed.

Lemma clean_nutriscore_raises df :
  has_column df environmental_score_score = false ->
  exists e, clean_nutriscore df = Raise e.
Proof.
  intros Habs. unfold clean_nutriscore.
  destruct (update nutriscore_grade _ df) as [df1|e] eqn:E1; simpl; [|eauto].
  destruct (getitem df1 nutriscore_grade) as [s|e] eqn:E2; simpl; [|eauto].
  unfold drop_column.
  rewrite setitem_has_column by discriminate.
  rewrite (update_has_column _ environmental_score_score _ _ _ E1), Habs. eauto.
Qed.

Lemma clean_nutriscore_drops df df' :
  clean_nutriscore df = Ok df' ->
  has_column df' environmental_score_score = false.
Proof.
  unfold clean_nutriscore. intros H. inv_bind H. inv_bind H.
  apply drop_column_ok in H. destruct H as (_ & _ & Hcols).
  unfold has_column. rewrite Hcols. now rewrite lookup_filter_same.
Qed.

(** C5: the nutriscore stage drops [environmental_score_score] whenever it
    returns a table, and on a table without that column it raises an
    exception instead of returning one. *)
Theorem clean_nutriscore_drops_or_raises (df : DataFrame) :
  (forall df', clean_nutriscore df = Ok df' ->
     has_column df environmental_score_score = true
     /\ has_column df' environmental_score_score = false)
  /\ (has_column df environmental_score_score = false ->
      exists e, clean_nutriscore df = Raise e).
Proof.
  split; [|apply clean_nutriscore_raises].
  intros df' H.
  destruct (has_column df environmental_score_score) eqn:Hc.
  - split; [reflexivity|]. now apply clean_nutriscore_drops in H.
  - destruct (clean_nutriscore_raises _ Hc) as (e & He). congruence.
Qed.

(** C7: after the nutriscore stage a row whose grade is "a" has the number
    1, and a row whose grade was missing or "not-applicable" has 0. *)
Theorem nutriscore_mapping (df df' : DataFrame) (i : nat) :
  clean_nutriscore df = Ok df' ->
  (cell df' nutriscore_grade i = Some (txt "a") ->
   cell df' nutriscore_numeric i = Some (num 1))
  /\ (cell df nutriscore_grade i = Some (txt "a") ->
      cell df' nutriscore_numeric i = Some (num 1))
  /\ (cell df nutriscore_grade i = Some NA ->
      cell df' nutriscore_numeric i = Some (num 0))
  /\ (cell df nutriscore_grade i = Some (txt "not-applicable") ->
      cell df' nutriscore_numeric i = Some (num 0)).
Proof.
  intros H. destruct (clean_nutriscore_cells _ _ i H) as (Hg & Hn).
  rewrite Hn. rewrite Hg.
  repeat split; intros Hc; rewrite ?Hc in *; try rewrite Hg in Hc;
    try (rewrite Hc); reflexivity.
Qed.

End Nutriscore.

(** ** The NOVA stage *)

Lemma clean_nova_group_cells df df' i :
  clean_nova_group df = Ok df' ->
  cell df' nova_group_label i = option_map nova_label (cell df nova_group i).
Proof.
  unfold clean_nova_group. intros H. inv_bind H. inv_bind H.
  apply getitem_ok in Hstep0. inversion H. subst df'. clear H.
  rewrite cell_setitem_same, values_series_map, nth_error_map.
  assert (Hc : cell x nova_group i
               = option_map (fill_cell unknown) (cell df nova_group i)).
  { eapply update_cell; eauto. intros s s' Hs. inversion Hs.
    apply values_fillna_str. }
  unfold cell in Hc at 1. rewrite Hstep0 in Hc. rewrite Hc.
  now destruct (cell df nova_group i).
Qed.

Lemma clean_nova_group_total df :
  has_column df nova_group = true -> exists df', clean_nova_group df = Ok df'.
Proof.
  unfold has_column, clean_nova_group, update, getitem. intros H.
  destruct (lookup nova_group (columns df)) as [s|] eqn:E; [|discriminate].
  simpl. rewrite lookup_assign_same. simpl. eauto.
Qed.

Lemma nova_label_unlisted x :
  float_isnan x = false -> known_group x = false -> nova_label (VNum x) = NA.
Proof.
  intros Hn Hk. unfold known_group in Hk. simpl in Hk.
  repeat (apply orb_false_iff in Hk; destruct Hk as [? Hk]).
  destruct x; try discriminate; try reflexivity.
  unfold nova_label, map_cell. simpl in *.
  repeat match goal with H : Qeq_bool _ _ = false |- _ => rewrite H; clear H end.
  reflexivity.
Qed.

Lemma nova_label_listed q k r :
  In (k, r) [ (1%Z, txt "Unprocessed or Minimally Processed");
              (4%Z, txt "Ultra-Processed Foods") ] ->
  (q == inject_Z k)%Q -> nova_label (VNum (Fin q)) = r.
Proof.
  intros Hin Hq. unfold nova_label, map_cell. simpl.
  assert (Hne : forall j, j <> k -> Qeq_bool (inject_Z j) q = false).
  { intros j Hj. destruct (Qeq_bool (inject_Z j) q) eqn:E; [|reflexivity].
    apply Qeq_bool_iff in E. rewrite Hq in E.
    apply (proj1 (inject_Z_injective j k)) in E. contradiction. }
  assert (Heq : Qeq_bool (inject_Z k) q = true).
  { apply Qeq_bool_iff. now symmetry. }
  destruct Hin as [Hin|[Hin|[]]]; inversion Hin; subst k r.
  - now rewrite Heq.
  - rewrite !Hne by discriminate. now rewrite Heq.
Qed.

(** C8, as the code has it: the stage returns a table whenever the column
    exists; group 1 and group 4 get their labels; a missing group gets
    "Unknown", and so does the string "unknown", which is the value that
    fills the missing cells and the one string among the keys of
    [nova_map]; every other value that is present, a number that is none
    of 1, 2, 3, 4 or a string other than "unknown", gets a missing
    label. *)
Theorem nova_mapping (df : DataFrame) :
  has_column df nova_group = true ->
  exists df', clean_nova_group df = Ok df' /\
    forall i,
      (forall q, cell df nova_group i = Some (VNum (Fin q)) -> (q == 1)%Q ->
         cell df' nova_group_label i
         = Some (txt "Unprocessed or Minimally Processed"))
      /\ (forall q, cell df nova_group i = Some (VNum (Fin q)) -> (q == 4)%Q ->
         cell df' nova_group_label i = Some (txt "Ultra-Processed Foods"))
      /\ (cell df nova_group i = Some NA ->
          cell df' nova_group_label i = Some Unknown)
      /\ (forall x, cell df nova_group i = Some (VNum x) ->
          float_isnan x = false -> known_group x = false ->
          cell df' nova_group_label i = Some NA)
      /\ (cell df nova_group i = Some unknown ->
          cell df' nova_group_label i = Some Unknown)
      /\ (forall s, cell df nova_group i = Some (VStr s) ->
          s <> py "unknown" ->
          cell df' nova_group_label i = Some NA).
Proof.
  intros Hc. destruct (clean_nova_group_total _ Hc) as (df' & Hok).
  exists df'. split; [exact Hok|]. intros i.
  rewrite (clean_nova_group_cells _ _ i Hok).
  split; [|split; [|split; [|split; [|split]]]].
  - intros q -> Hq. simpl. f_equal.
    apply (nova_label_listed q 1); simpl; auto.
  - intros q -> Hq. simpl. f_equal.
    apply (nova_label_listed q 4); simpl; auto.
  - intros ->. reflexivity.
  - intros x -> Hn Hk. simpl. f_equal. now apply nova_label_unlisted.
  - intros ->. reflexivity.
  - intros s -> Hs. simpl. f_equal.
    unfold nova_label, map_cell. cbn [fill_cell isna].
    cbn [nova_map dict_get key_eqb num unknown].
    rewrite pystr_eqb_neq; [reflexivity|]. intros E. apply Hs. now symmetry.
Qed.

(** ** The countries stage *)

Section Countries.
Context {L : PyLib}.

Lemma str_method_map f s s' :
  str_method f s = Ok s' -> values s' = List.map (str_cell f) (values s).
Proof. intros H. apply str_method_values in H. now subst s'. Qed.

Lemma tidy_step s s' :
  (s1 <- str_method str_strip s ;;
   s2 <- str_method (str_replace (py ", ") (py ",")) s1 ;;
   s3 <- str_method (str_replace (py ",") (py ", ")) s2 ;;
   str_method str_title s3) = Ok s' ->
  values s'
  = List.map (fun v => str_cell str_title
                (str_cell (str_replace (py ",") (py ", "))
                   (str_cell (str_replace (py ", ") (py ","))
                      (str_cell str_strip v)))) (values s).
Proof.
  intros H. inv_bind H. inv_bind H. inv_bind H.
  apply str_method_map in Hstep, Hstep0, Hstep1, H.
  rewrite H, Hstep1, Hstep0, Hstep, !map_map. reflexivity.
Qed.

(** The countries cell of a row that held a string, after the stage. *)
Lemma clean_countries_cell df df' i s :
  clean_countries df = Ok df' ->
  cell df countries i = Some (VStr s) ->
  cell df' countries i = Some (VStr (map_countries (tidy_countries s))).
Proof.
  unfold clean_countries. intros H Hc. inv_bind H. inv_bind H. inv_bind H.
  apply (update_cell _ _ (str_cell remove_code_colon) _ _ i) in Hstep;
    [|intros; now apply str_method_map].
  apply (update_cell _ _
           (fun v => str_cell str_title
              (str_cell (str_replace (py ",") (py ", "))
                 (str_cell (str_replace (py ", ") (py ","))
                    (str_cell str_strip v)))) _ _ i) in Hstep0;
    [|intros; now apply tidy_step].
  apply (update_cell _ _ (fill_cell Unknown) _ _ i) in Hstep1;
    [|intros ? ? Hs; inversion Hs; apply values_fillna_str].
  rewrite Hstep0, Hstep, Hc in Hstep1. simpl in Hstep1.
  apply update_ok in H. destruct H as (c & c' & Hl & Happ & ->).
  rewrite cell_setitem_same.
  unfold cell in Hstep1. rewrite Hl in Hstep1.
  destruct (series_apply_nth _ _ _ _ _ Happ Hstep1) as (b & Hb & Hn).
  rewrite Hn. simpl in Hb. inversion Hb. reflexivity.
Qed.

Lemma get_or_unlisted d c default :
  (forall k v, In (k, v) d -> k <> c) -> get_or d c default = default.
Proof.
  induction d as [|[k v] d IH]; intros H; simpl; [reflexivity|].
  rewrite pystr_eqb_neq.
  - apply IH. intros k' v' Hin. apply (H k' v'). now right.
  - apply (H k v). now left.
Qed.

(** C6: a countries cell "Fr" ends as "France", "Us" as "United States",
    and "Xyzland" stays; in general every comma-separated token of the
    tidied cell is looked up in [country_map], and a token that is no key
    of the table is kept as it is. *)
Theorem countries_mapping (df df' : DataFrame) (i : nat) :
  clean_countries df = Ok df' ->
  (cell df countries i = Some (txt "Fr") ->
   cell df' countries i = Some (txt "France"))
  /\ (cell df countries i = Some (txt "Us") ->
      cell df' countries i = Some (txt "United States"))
  /\ (cell df countries i = Some (txt "Xyzland") ->
      cell df' countries i = Some (txt "Xyzland"))
  /\ (forall s, cell df countries i = Some (VStr s) ->
      cell df' countries i
      = Some (VStr (str_join (py ", ")
                      (List.map (fun c => country_get (str_strip c))
                         (str_split COMMA (tidy_countries s))))))
  /\ country_get (py "Fr") = py "France"
  /\ country_get (py "Us") = py "United States"
  /\ (forall c, (forall k v, In (k, v) country_map -> k <> c) ->
      country_get c = c).
Proof.
  intros H. repeat split.
  - intros Hc. now rewrite (clean_countries_cell _ _ _ _ H Hc).
  - intros Hc. now rewrite (clean_countries_cell _ _ _ _ H Hc).
  - intros Hc. now rewrite (clean_countries_cell _ _ _ _ H Hc).
  - intros s Hc. now rewrite (clean_countries_cell _ _ _ _ H Hc).
  - intros c Hc. now apply get_or_unlisted.
Qed.

End Countries.

(** ** Row selection *)

Lemma values_select_series mask s :
  values (select_series mask s) = select mask (values s).
Proof.
  destruct s as [l|w l]; simpl; [reflexivity|].
  revert mask. induction l as [|x l IH]; intros [|[|] mask]; simpl;
    try reflexivity; now rewrite IH.
Qed.

Lemma select_nth {A} (mask : list bool) (l : list A) i :
  nth_error mask i = Some true ->
  nth_error (select mask l) (count_true (firstn i mask)) = nth_error l i.
Proof.
  revert l i. induction mask as [|b mask IH]; intros l i Hi.
  - destruct i; discriminate.
  - destruct l as [|a l].
    + destruct b; simpl; now destruct i, (count_true _).
    + destruct i as [|i]; simpl in Hi.
      * inversion Hi. reflexivity.
      * unfold count_true in *. destruct b; simpl; now apply IH.
Qed.

Lemma select_length {A} (mask : list bool) (l : list A) :
  List.length mask = List.length l ->
  List.length (select mask l) = count_true mask.
Proof.
  revert l. induction mask as [|b mask IH]; intros [|a l] H; simpl in *;
    try discriminate; try reflexivity.
  unfold count_true in *. destruct b; simpl; rewrite IH; auto.
Qed.

Lemma count_true_negb mask :
  (count_true (List.map negb mask) + count_true mask = List.length mask)%nat.
Proof.
  unfold count_true. induction mask as [|[|] mask IH]; simpl; lia.
Qed.

Lemma count_true_false mask :
  (count_true mask + List.length (filter negb mask) = List.length mask)%nat.
Proof.
  unfold count_true. induction mask as [|[|] mask IH]; simpl; lia.
Qed.

Lemma select_map_In {A} (p : A -> bool) (l : list A) a :
  In a (select (List.map p l) l) -> p a = true.
Proof.
  induction l as [|x l IH]; simpl; [tauto|].
  destruct (p x) eqn:E; simpl; [intros [<-|H]|]; auto.
Qed.

Lemma select_map {A B} (f : A -> B) mask (l : list A) :
  select mask (List.map f l) = List.map f (select mask l).
Proof.
  revert mask. induction l as [|x l IH]; intros [|[|] mask]; simpl;
    try reflexivity; now rewrite IH.
Qed.

(** ** The product-name stage *)

Section ProductName.
Context {L : PyLib}.

Lemma unescape_then_normalize l l' :
  mapM unescape_cell l = Ok l' ->
  List.map (fun v => str_cell str_title (str_cell str_strip v)) l'
  = List.map normalized_name l.
Proof.
  revert l'. induction l as [|v l IH]; intros l' H; simpl in H.
  - inversion H. reflexivity.
  - inv_bind H. inv_bind H. inversion H. subst l'. simpl.
    rewrite (IH _ Hstep0). f_equal.
    destruct v as [s|y]; simpl in Hstep.
    + inversion Hstep. reflexivity.
    + destruct (float_isnan y); inversion Hstep. reflexivity.
Qed.

Lemma normalize_steps s0 s1 s2 :
  series_apply unescape_cell s0 = Ok s1 ->
  (s <- str_method str_strip s1 ;; str_method str_title s) = Ok s2 ->
  s2 = ObjSeries (List.map normalized_name (values s0)).
Proof.
  intros H1 H2. inv_bind H2.
  apply str_method_values in Hstep, H2. subst x s2. simpl. f_equal.
  rewrite map_map.
  unfold series_apply in H1. destruct (values s0) as [|v l] eqn:E.
  - inversion H1. subst s1. now rewrite E.
  - inv_bind H1. inversion H1. rewrite values_infer_series.
    now apply unescape_then_normalize.
Qed.

Lemma ne_str_normalized l :
  ne_str Xxx (ObjSeries (List.map normalized_name l)) = List.map kept l.
Proof.
  unfold ne_str. simpl. rewrite map_map. reflexivity.
Qed.

(** What the stage returns: the rows that pass the filter, in all columns,
    with the normalized and filled product name. *)
Lemma clean_product_name_spec df df' :
  clean_product_name df = Ok df' ->
  nrows df' = count_true (xxx_mask df)
  /\ (forall other, other <> product_name ->
      lookup other (columns df')
      = option_map (select_series (xxx_mask df)) (lookup other (columns df)))
  /\ has_column df product_name = true
  /\ column_values df' product_name
     = List.map (fill_cell Unknown)
         (select (xxx_mask df)
            (List.map normalized_name (column_values df product_name))).
Proof.
  unfold clean_product_name. intros H. inv_bind H. inv_bind H. inv_bind H.
  inv_bind Hstep1. inversion Hstep1. subst x1. clear Hstep1.
  apply update_ok in Hstep. destruct Hstep as (s0 & s1 & Hs0 & Happ & ->).
  apply update_ok in Hstep0. destruct Hstep0 as (s1' & s2 & Hs1 & Hstr & ->).
  simpl in Hs1. rewrite lookup_assign_same in Hs1. inversion Hs1. subst s1'.
  pose proof (normalize_steps _ _ _ Happ Hstr) as ->.
  apply getitem_ok in Hstep2. simpl in Hstep2.
  rewrite lookup_assign_same in Hstep2. inversion Hstep2. subst x2.
  rewrite ne_str_normalized in H.
  apply update_ok in H. destruct H as (s3 & s4 & Hs3 & Hfill & ->).
  inversion Hfill. subst s4. clear Hfill.
  simpl in Hs3. rewrite lookup_select, lookup_assign_same in Hs3.
  inversion Hs3. subst s3. clear Hs3.
  unfold xxx_mask, column_values, has_column. rewrite Hs0. simpl.
  repeat split.
  - intros other Hne.
    rewrite lookup_assign_other by congruence.
    rewrite lookup_select.
    now rewrite !lookup_assign_other by congruence.
  - now rewrite lookup_assign_same.
Qed.

Lemma xxx_anycase_normalized s :
  is_xxx_anycase s = true -> normalized_name (VStr s) = VStr Xxx.
Proof.
  unfold is_xxx_anycase. intros H. apply pystr_eqb_eq in H.
  assert (Hx : forall c, ascii_tolower c = 120%N -> c = 120%N \/ c = 88%N).
  { intros c. unfold ascii_tolower, ascii_isupper, between.
    destruct ((65 <=? c)%N && (c <=? 90)%N) eqn:E; intros Hc; [right|left]; lia. }
  destruct s as [|c1 [|c2 [|c3 [|c4 s]]]]; try discriminate.
  inversion H as [[H1 H2 H3]].
  destruct (Hx _ H1) as [-> | ->], (Hx _ H2) as [-> | ->], (Hx _ H3) as [-> | ->];
    reflexivity.
Qed.

(** C10: the stage keeps exactly the rows that pass the [Xxx] test, which
    looks at the stripped and title-cased name.  A row whose raw name is
    "xxx" in any letter case fails it and is dropped; a row whose name is
    missing passes it and ends with the name "Unknown". *)
Theorem xxx_dropped_missing_kept (df df' : DataFrame) :
  clean_product_name df = Ok df' ->
  nrows df' = count_true (xxx_mask df)
  /\ (forall other, other <> product_name ->
      lookup other (columns df')
      = option_map (select_series (xxx_mask df)) (lookup other (columns df)))
  /\ (forall i s, cell df product_name i = Some (VStr s) ->
      is_xxx_anycase s = true -> nth_error (xxx_mask df) i = Some false)
  /\ (forall i, cell df product_name i = Some NA ->
      nth_error (xxx_mask df) i = Some true
      /\ cell df' product_name (count_true (firstn i (xxx_mask df)))
         = Some Unknown)
  /\ (forall j v, cell df' product_name j = Some v ->
      v <> VStr Xxx /\ isna v = false).
Proof.
  intros H. destruct (clean_product_name_spec _ _ H) as (Hn & Hother & Hhas & Hv).
  assert (Hcell : forall d i, cell d product_name i
                              = nth_error (column_values d product_name) i).
  { intros d i. unfold cell, column_values.
    destruct (lookup product_name (columns d)); [reflexivity|now destruct i]. }
  split; [exact Hn|]. split; [exact Hother|].
  split; [|split].
  - intros i s Hc Hx. rewrite Hcell in Hc. unfold xxx_mask.
    rewrite nth_error_map, Hc. simpl. unfold kept.
    now rewrite (xxx_anycase_normalized _ Hx).
  - intros i Hc. rewrite !Hcell in *.
    assert (Hm : nth_error (xxx_mask df) i = Some true).
    { unfold xxx_mask. now rewrite nth_error_map, Hc. }
    split; [exact Hm|].
    rewrite Hv, nth_error_map, (select_nth _ _ _ Hm).
    now rewrite nth_error_map, Hc.
  - intros j v Hc. rewrite Hcell, Hv in Hc. apply nth_error_In in Hc.
    apply in_map_iff in Hc. destruct Hc as (u & <- & Hin).
    split.
    + unfold xxx_mask in Hin. rewrite select_map in Hin.
      apply in_map_iff in Hin. destruct Hin as (r & <- & Hin).
      apply select_map_In in Hin. unfold kept in Hin.
      destruct (normalized_name r) as [x|[]]; simpl; try discriminate.
      intros Heq. inversion Heq. subst x. now rewrite pystr_eqb_refl in Hin.
    + unfold fill_cell. destruct (isna u) eqn:E; [reflexivity|exact E].
Qed.

End ProductName.

(** ** Row counts through the pipeline *)

Lemma dup_flags_length seen rs : List.length (dup_flags seen rs) = List.length rs.
Proof.
  revert seen. induction rs as [|r rs IH]; intros seen; simpl; [reflexivity|].
  now rewrite IH.
Qed.

Lemma duplicated_length df :
  df_empty df = false -> List.length (duplicated df) = nrows df.
Proof.
  intros H. unfold duplicated, rows. rewrite H, dup_flags_length.
  now rewrite length_map, length_seq.
Qed.

(** Deduplication removes as many rows as [duplicated] flags. *)
Lemma drop_duplicates_nrows df :
  (nrows (drop_duplicates df) + count_true (duplicated df) = nrows df)%nat.
Proof.
  unfold drop_duplicates. destruct (df_empty df) eqn:E.
  - unfold duplicated. rewrite E. unfold count_true. simpl. lia.
  - simpl. rewrite count_true_negb. now apply duplicated_length.
Qed.

Lemma select_rows_wf mask df :
  wf df -> List.length mask = nrows df -> wf (select_rows mask df).
Proof.
  unfold wf. intros H Hm. simpl. rewrite Forall_map.
  eapply Forall_impl; [|exact H]. intros [n s] Hs. simpl in *.
  unfold series_len in *. rewrite values_select_series.
  apply select_length. congruence.
Qed.

Lemma drop_duplicates_wf df : wf df -> wf (drop_duplicates df).
Proof.
  intros H. unfold drop_duplicates. destruct (df_empty df) eqn:E; [exact H|].
  apply select_rows_wf; [exact H|].
  rewrite length_map. now apply duplicated_length.
Qed.

Lemma wf_column_length df name :
  wf df -> has_column df name = true ->
  List.length (column_values df name) = nrows df.
Proof.
  unfold wf, has_column, column_values. intros H.
  induction H as [|[n s] cols Hs _ IH]; simpl; [discriminate|].
  destruct (pystr_eqb n name); [intros _; exact Hs|exact IH].
Qed.

(** ** Every column keeps one cell per row *)


















Section Shapes.
Context {L : PyLib}.









End Shapes.

Section RowCounts.
Context {L : PyLib}.

Ltac stage_nrows H :=
  repeat (match type of H with
          | bind _ _ = Ok _ =>
              let a := fresh "d" in
              let H1 := fresh "Hs" in
              apply bind_ok in H; destruct H as (a & H1 & H);
              try (apply update_nrows in H1)
          end);
  try (apply update_nrows in H); try congruence.

Lemma clean_brands_nrows df df' :
  clean_brands df = Ok df' -> nrows df' = nrows df.
Proof. unfold clean_brands. intros H. stage_nrows H. Qed.

Lemma clean_categories_nrows df df' :
  clean_categories df = Ok df' -> nrows df' = nrows df.
Proof.
  unfold clean_categories. intros H. stage_nrows H.
  inversion H. simpl. congruence.
Qed.

Lemma clean_countries_nrows df df' :
  clean_countries df = Ok df' -> nrows df' = nrows df.
Proof. unfold clean_countries. intros H. stage_nrows H. Qed.

Lemma clean_ingredients_labels_packaging_nrows df df' :
  clean_ingredients_labels_packaging df = Ok df' -> nrows df' = nrows df.
Proof. unfold clean_ingredients_labels_packaging. intros H. stage_nrows H. Qed.

Lemma clean_nutriscore_nrows df df' :
  clean_nutriscore df = Ok df' -> nrows df' = nrows df.
Proof.
  unfold clean_nutriscore. intros H. stage_nrows H.
  apply drop_column_ok in H. destruct H as (_ & Hn & _). simpl in Hn. congruence.
Qed.

Lemma clean_nova_group_nrows df df' :
  clean_nova_group df = Ok df' -> nrows df' = nrows df.
Proof.
  unfold clean_nova_group. intros H. stage_nrows H.
  inversion H. simpl. congruence.
Qed.

Lemma for_each_nrows cols df df' :
  for_each cols df = Ok df' -> nrows df' = nrows df.
Proof.
  revert df. induction cols as [|c cols IH]; intros df H; simpl in H.
  - now inversion H.
  - inv_bind H. apply IH in H. rewrite H.
    unfold clean_numeric_column in Hstep. stage_nrows Hstep.
Qed.

Lemma clean_nutritional_columns_nrows df df' :
  clean_nutritional_columns df = Ok df' -> nrows df' = nrows df.
Proof. apply for_each_nrows. Qed.

Lemma clean_product_name_nrows df df' :
  wf df -> clean_product_name df = Ok df' ->
  (nrows df' + xxx_rows df = nrows df)%nat.
Proof.
  intros Hwf H. destruct (clean_product_name_spec _ _ H) as (Hn & _ & Hhas & _).
  rewrite Hn. unfold xxx_rows. rewrite count_true_false.
  unfold xxx_mask. rewrite length_map. now apply wf_column_length.
Qed.


End RowCounts.

(** ** The reporter *)

(** *** Objects behind references *)

Lemma nth_error_put_same {A} i (a : A) l :
  (i < List.length l)%nat -> nth_error (InPlace.put i a l) i = Some a.
Proof.
  revert i. induction l as [|b l IH]; intros i H; simpl in H; [lia|].
  destruct i as [|i]; simpl; [reflexivity|]. apply IH. lia.
Qed.

Lemma nth_error_put_other {A} i j (a : A) l :
  i <> j -> nth_error (InPlace.put i a l) j = nth_error l j.
Proof.
  revert i j. induction l as [|b l IH]; intros i j H; simpl.
  - now destruct i.
  - destruct i as [|i], j as [|j]; simpl; try reflexivity; try congruence.
    apply IH. congruence.
Qed.

Lemma put_put {A} i (a b : A) l :
  InPlace.put i a (InPlace.put i b l) = InPlace.put i a l.
Proof.
  revert i. induction l as [|c l IH]; intros i; simpl; [now destruct i|].
  destruct i; simpl; [reflexivity|]. now rewrite IH.
Qed.

Lemma put_length {A} i (a : A) l :
  List.length (InPlace.put i a l) = List.length l.
Proof.
  revert i. induction l as [|b l IH]; intros i; simpl; [now destruct i|].
  destruct i; simpl; [reflexivity|]. now rewrite IH.
Qed.

Lemma nth_error_new {A} (l l' : list A) a :
  nth_error ((l ++ [a]) ++ l') (List.length l) = Some a.
Proof.
  rewrite <- app_assoc. rewrite nth_error_app2 by lia.
  now rewrite Nat.sub_diag.
Qed.

Lemma nth_error_last {A} (l : list A) a :
  nth_error (l ++ [a]) (List.length l) = Some a.
Proof. rewrite nth_error_app2 by lia. now rewrite Nat.sub_diag. Qed.

Lemma nth_error_old {A} (l l' : list A) r a :
  nth_error l r = Some a -> nth_error (l ++ l') r = Some a.
Proof.
  intros H. rewrite nth_error_app1; [exact H|].
  apply nth_error_Some. congruence.
Qed.


(** *** One statement at a time *)

Section Steps.
Import InPlace.
Variables (A : Type) (h : list object) (out : list printed)
          (err : list string) (file : option DataFrame).

Lemma print_step p (k : unit -> io A) :
  and_then (py_print p) k
    {| heap := h; stdout := out; stderr := err; csv := file |}
  = k tt {| heap := h; stdout := out ++ [p]; stderr := err; csv := file |}.
Proof. reflexivity. Qed.

Lemma logger_step s (k : unit -> io A) :
  and_then (logger_info s) k
    {| heap := h; stdout := out; stderr := err; csv := file |}
  = k tt {| heap := h; stdout := out; stderr := err ++ [s]; csv := file |}.
Proof. reflexivity. Qed.

Lemma frame_step r d (k : DataFrame -> io A) :
  nth_error h r = Some (Frame d) ->
  and_then (frame_at r) k
    {| heap := h; stdout := out; stderr := err; csv := file |}
  = k d {| heap := h; stdout := out; stderr := err; csv := file |}.
Proof. intros H. unfold and_then, frame_at. cbn [heap]. now rewrite H. Qed.

Lemma counts_step r c (k : list (pystr * nat) -> io A) :
  nth_error h r = Some (Counts c) ->
  and_then (counts_at r) k
    {| heap := h; stdout := out; stderr := err; csv := file |}
  = k c {| heap := h; stdout := out; stderr := err; csv := file |}.
Proof. intros H. unfold and_then, counts_at. cbn [heap]. now rewrite H. Qed.

Lemma alloc_step o (k : ref -> io A) :
  and_then (alloc o) k
    {| heap := h; stdout := out; stderr := err; csv := file |}
  = k (List.length h)
      {| heap := h ++ [o]; stdout := out; stderr := err; csv := file |}.
Proof. reflexivity. Qed.

Lemma store_step r o (k : unit -> io A) :
  and_then (store r o) k
    {| heap := h; stdout := out; stderr := err; csv := file |}
  = k tt {| heap := put r o h; stdout := out; stderr := err; csv := file |}.
Proof. reflexivity. Qed.

Lemma lift_step B (x : result B) (k : B -> io A) w :
  and_then (lift x) k w
  = match x with
    | Ok b => k b w
    | Raise e => Raise e
    end.
Proof. unfold and_then, lift. now destruct x. Qed.

Lemma and_then_assoc B C (c : io B) (f : B -> io C) (k : C -> io A) w :
  and_then (and_then c f) k w = and_then c (fun b => and_then (f b) k) w.
Proof. unfold and_then. destruct (c w) as [[b w']|e]; reflexivity. Qed.

Lemma ret_step B (b : B) (k : B -> io A) w : and_then (ret b) k w = k b w.
Proof. reflexivity. Qed.

End Steps.

Section ReporterInPlace.
Context {L : PyLib}.

Lemma show_cleaning_summary_in_place w df table original_shape :
  nth_error (InPlace.heap w) df = Some (InPlace.Frame table) ->
  InPlace.show_cleaning_summary df original_shape w
  = Ok (df,
        {| InPlace.heap :=
             InPlace.heap w
             ++ [InPlace.Counts (missing_counts table);
                 InPlace.Counts
                   (filter (fun c => (0 <? snd c)%nat) (missing_counts table));
                 InPlace.Counts (remaining_missing table)]
             ++ match remaining_missing table with
                | [] => []
                | _ :: _ =>
                    [InPlace.Counts (firstn 10 (remaining_missing table))]
                end;
           InPlace.stdout :=
             InPlace.stdout w
             ++ fst (show_cleaning_summary table original_shape);
           InPlace.stderr :=
             InPlace.stderr w ++ ["Generating cleaning summary..."%string];
           InPlace.csv := InPlace.csv w |}).
Proof.
  intros H. destruct w as [h out err file]. cbn [InPlace.heap] in H.
  cbn [InPlace.heap InPlace.stdout InPlace.stderr InPlace.csv].
  unfold InPlace.show_cleaning_summary.
  rewrite logger_step.
  unfold InPlace.df_shape. rewrite and_then_assoc, (frame_step _ _ _ _ _ _ _ _ H).
  rewrite ret_step. cbv beta zeta.
  repeat rewrite print_step.
  unfold InPlace.isnull_sum.
  rewrite and_then_assoc, (frame_step _ _ _ _ _ _ _ _ H), alloc_step.
  unfold InPlace.positive.
  rewrite and_then_assoc, (counts_step _ _ _ _ _ _ _ _ (nth_error_last _ _)).
  rewrite alloc_step.
  unfold InPlace.sort_values_desc.
  rewrite and_then_assoc, (counts_step _ _ _ _ _ _ _ _ (nth_error_last _ _)).
  rewrite alloc_step.
  fold (remaining_missing table).
  unfold InPlace.series_empty.
  rewrite and_then_assoc, (counts_step _ _ _ _ _ _ _ _ (nth_error_last _ _)).
  rewrite ret_step.
  unfold show_cleaning_summary. cbn [fst].
  destruct (remaining_missing table) as [|m ms] eqn:Em; cbn [negb].
  - repeat rewrite print_step. unfold InPlace.ret.
    repeat rewrite <- app_assoc. reflexivity.
  - rewrite and_then_assoc, print_step.
    unfold InPlace.series_head.
    rewrite !and_then_assoc, (counts_step _ _ _ _ _ _ _ _ (nth_error_last _ _)).
    rewrite alloc_step.
    unfold InPlace.print_counts.
    rewrite and_then_assoc, (counts_step _ _ _ _ _ _ _ _ (nth_error_last _ _)).
    repeat rewrite print_step. unfold InPlace.ret.
    repeat rewrite <- app_assoc. reflexivity.
Qed.

(** The stages, by contrast, write to the table they are given: what the
    NOVA stage returns is found behind the reference of its argument. *)
Lemma clean_nova_group_in_place w df table :
  nth_error (InPlace.heap w) df = Some (InPlace.Frame table) ->
  InPlace.clean_nova_group df w
  = match clean_nova_group table with
    | Ok table' =>
        Ok (df,
            {| InPlace.heap := InPlace.put df (InPlace.Frame table') (InPlace.heap w);
               InPlace.stdout := InPlace.stdout w;
               InPlace.stderr := InPlace.stderr w ++ ["Cleaning nova_group"%string];
               InPlace.csv := InPlace.csv w |})
    | Raise e => Raise e
    end.
Proof.
  intros H. destruct w as [h out err file]. cbn [InPlace.heap] in H.
  cbn [InPlace.heap InPlace.stdout InPlace.stderr InPlace.csv].
  assert (Hlt : (df < List.length h)%nat) by (apply nth_error_Some; congruence).
  unfold InPlace.clean_nova_group, clean_nova_group, update.
  rewrite logger_step.
  unfold InPlace.df_getitem at 1.
  rewrite and_then_assoc, (frame_step _ _ _ _ _ _ _ _ H), lift_step.
  destruct (getitem table nova_group) as [s|e]; [|reflexivity].
  cbn [bind]. unfold InPlace.df_setitem at 1.
  rewrite and_then_assoc, (frame_step _ _ _ _ _ _ _ _ H), store_step.
  unfold InPlace.df_getitem.
  rewrite and_then_assoc,
    (frame_step _ _ _ _ _ _ _ _ (nth_error_put_same _ _ _ Hlt)), lift_step.
  destruct (getitem (setitem table nova_group (fillna unknown s)) nova_group)
    as [s'|e]; [|reflexivity].
  cbn [bind]. unfold InPlace.df_setitem.
  rewrite and_then_assoc,
    (frame_step _ _ _ _ _ _ _ _ (nth_error_put_same _ _ _ Hlt)), store_step.
  unfold InPlace.ret. now rewrite put_put.
Qed.

Lemma save_data_in_place w df table :
  nth_error (InPlace.heap w) df = Some (InPlace.Frame table) ->
  InPlace.save_data df w
  = Ok (tt,
        {| InPlace.heap := InPlace.heap w;
           InPlace.stdout := InPlace.stdout w;
           InPlace.stderr :=
             InPlace.stderr w
             ++ ["Cleaned data saved to cleaned_openfood.csv"%string];
           InPlace.csv := Some table |}).
Proof.
  intros H. destruct w as [h out err file]. cbn [InPlace.heap] in H.
  unfold InPlace.save_data, InPlace.to_csv.
  rewrite and_then_assoc, (frame_step _ _ _ _ _ _ _ _ H).
  reflexivity.
Qed.

(** C9: the reporter only observes.  On the heap of the interpreter it
    returns the very reference it was given; every object that existed
    before the call, the table among them, is afterwards what it was
    before, so that no row, no column and no cell of the table has
    changed, and the file that [save_data] wrote is untouched: the call
    leaves behind the lines on the console, one line of the log and new
    objects that nothing refers to.  In the pipeline it runs last, on the
    table that has already been saved, and only its printed lines are
    kept. *)
Theorem show_cleaning_summary_observes :
  (forall w df table original_shape,
     nth_error (InPlace.heap w) df = Some (InPlace.Frame table) ->
     exists w',
       InPlace.show_cleaning_summary df original_shape w = Ok (df, w')
       /\ (forall r o, nth_error (InPlace.heap w) r = Some o ->
             nth_error (InPlace.heap w') r = Some o)
       /\ nth_error (InPlace.heap w') df = Some (InPlace.Frame table)
       /\ InPlace.csv w' = InPlace.csv w
       /\ InPlace.stdout w'
          = InPlace.stdout w
            ++ fst (show_cleaning_summary table original_shape)
       /\ InPlace.stderr w'
          = InPlace.stderr w ++ ["Generating cleaning summary..."%string])
  /\ (forall df original_shape,
        snd (show_cleaning_summary df original_shape) = df)
  /\ (forall raw r, run_pipeline raw = Ok r ->
      show_cleaning_summary (saved r) (shape (drop_duplicates raw))
      = (console r, saved r)).
Proof.
  split; [|split; [reflexivity|]].
  - intros w df table sh H. eexists.
    split; [exact (show_cleaning_summary_in_place w df table sh H)|].
    cbn [InPlace.heap InPlace.stdout InPlace.stderr InPlace.csv].
    assert (Hold : forall r o, nth_error (InPlace.heap w) r = Some o ->
              nth_error
                (InPlace.heap w
                 ++ [InPlace.Counts (missing_counts table);
                     InPlace.Counts
                       (filter (fun c => (0 <? snd c)%nat) (missing_counts table));
                     InPlace.Counts (remaining_missing table)]
                 ++ match remaining_missing table with
                    | [] => []
                    | _ :: _ =>
                        [InPlace.Counts (firstn 10 (remaining_missing table))]
                    end) r = Some o).
    { intros r o Hr. now apply nth_error_old. }
    split; [exact Hold|]. split; [now apply Hold|]. repeat split.
  - intros raw r H. unfold run_pipeline in H.
    repeat (match type of H with bind _ _ = Ok _ => inv_bind H end).
    inversion H. reflexivity.
Qed.

End ReporterInPlace.

(** ** The numeric sanitizer *)

Lemma all_floats_map_VNum l : all_floats (List.map VNum l) = Some l.
Proof. induction l as [|x l IH]; simpl; [reflexivity|now rewrite IH]. Qed.

Lemma floats_of_with_floats s l : floats_of (with_floats s l) = Ok l.
Proof. destruct s; simpl; [now rewrite all_floats_map_VNum|reflexivity]. Qed.

Lemma width_of_with_floats s l : width_of (with_floats s l) = width_of s.
Proof. now destruct s. Qed.

Lemma in_range_spec x :
  in_range x = negb (float_isnan x) && negb (out_of_range LO HI x).
Proof.
  destruct x as [| | |q]; try reflexivity.
  unfold in_range, out_of_range, float_gtb. simpl.
  now destruct (Qle_bool 0 q), (Qle_bool q 1000).
Qed.

(** Masking, then dropping the missing cells, leaves the accepted cells. *)
Lemma dropna_mask_outliers l : dropna (mask_outliers l) = filter in_range l.
Proof.
  unfold dropna, mask_outliers. induction l as [|x l IH]; simpl; [reflexivity|].
  rewrite in_range_spec.
  destruct (out_of_range LO HI x); simpl.
  - rewrite andb_false_r. exact IH.
  - rewrite andb_true_r. destruct (float_isnan x); simpl; now rewrite IH.
Qed.

(** Masking, then filling, replaces exactly the cells that are not
    accepted. *)
Lemma fill_mask_outliers m l :
  List.map (fun c => if float_isnan c then m else c) (mask_outliers l)
  = List.map (fun x => if in_range x then x else m) l.
Proof.
  unfold mask_outliers. rewrite map_map. apply map_ext. intros x.
  rewrite in_range_spec.
  destruct (out_of_range LO HI x); simpl; [now rewrite andb_false_r|].
  rewrite andb_true_r. now destruct (float_isnan x).
Qed.

Lemma fillna_astype s l m s' :
  floats_of s = Ok l ->
  astype_float32 (fillna (VNum m) s) = Ok s' ->
  s' = FloatSeries F32
         (List.map (float_cast F32)
            (List.map (fun c => if float_isnan c then m else c) l)).
Proof.
  destruct s as [cells|w cells]; simpl.
  - destruct (all_floats cells) as [xs|] eqn:E; [|discriminate].
    intros Hl. inversion Hl. subst xs. apply all_floats_values in E. subst cells.
    rewrite map_map.
    replace (List.map (fun x => fill_cell (VNum m) (VNum x)) l)
      with (List.map VNum (List.map (fun c => if float_isnan c then m else c) l)).
    + rewrite all_floats_map_VNum. intros H. now inversion H.
    + rewrite map_map. apply map_ext. now intros [| | |q].
  - intros Hl H. inversion Hl. subst. now inversion H.
Qed.

(** One turn of the loop: the column is replaced by its sanitized cells,
    every other column is left alone. *)
Lemma clean_numeric_column_spec df col df' :
  clean_numeric_column df col = Ok df' ->
  exists s l,
    lookup col (columns df) = Some s /\ floats_of s = Ok l
    /\ lookup col (columns df')
       = Some (FloatSeries F32 (sanitized (width_of s) l))
    /\ forall other, other <> col ->
         lookup other (columns df') = lookup other (columns df).
Proof.
  unfold clean_numeric_column. intros H.
  apply bind_ok in H. destruct H as (d1 & Hd1 & H).
  apply update_ok in Hd1. destruct Hd1 as (s & s1 & Hs & Hmask & ->).
  apply bind_ok in Hmask. destruct Hmask as (l & Hstep & Hmask).
  inversion Hmask. subst s1. clear Hmask.
  apply update_ok in H. destruct H as (s1 & s2 & Hs1 & Hfill & ->).
  simpl in Hs1. rewrite lookup_assign_same in Hs1. inversion Hs1. subst s1.
  apply bind_ok in Hfill. destruct Hfill as (m & Hm & Hfill).
  unfold series_median in Hm.
  rewrite floats_of_with_floats, width_of_with_floats in Hm.
  simpl in Hm. inversion Hm. subst m. clear Hm.
  apply fillna_astype with (l := mask_outliers l) in Hfill;
    [|apply floats_of_with_floats].
  exists s, l. split; [exact Hs|]. split; [exact Hstep|]. split.
  - simpl. rewrite lookup_assign_same. subst s2. f_equal. f_equal.
    rewrite fill_mask_outliers, dropna_mask_outliers, map_map. reflexivity.
  - intros other Hne. simpl.
    now rewrite !lookup_assign_other by congruence.
Qed.

Lemma for_each_spec cols df df' :
  NoDup cols ->
  for_each cols df = Ok df' ->
  (forall col, In col cols ->
     exists s l,
       lookup col (columns df) = Some s /\ floats_of s = Ok l
       /\ lookup col (columns df')
          = Some (FloatSeries F32 (sanitized (width_of s) l)))
  /\ (forall other, ~ In other cols ->
        lookup other (columns df') = lookup other (columns df)).
Proof.
  intros Hnd. revert df. induction Hnd as [|c cols Hc Hnd IH]; intros df H.
  - inversion H. split; [intros col []|reflexivity].
  - simpl in H. inv_bind H.
    destruct (clean_numeric_column_spec _ _ _ Hstep) as (s & l & Hs & Hl & Hs' & Hfr).
    destruct (IH _ H) as (Hin & Hout). split.
    + intros col [<-|Hcol].
      * exists s, l. rewrite (Hout _ Hc). auto.
      * destruct (Hin _ Hcol) as (s0 & l0 & Hs0 & Hl0 & Hs0').
        exists s0, l0. rewrite <- Hfr; [auto|]. intros ->. contradiction.
    + intros other Ho. rewrite Hout by (intros Hi; apply Ho; now right).
      apply Hfr. intros ->. apply Ho. now left.
Qed.

Lemma num_cols_NoDup : NoDup num_cols.
Proof.
  unfold num_cols.
  repeat (constructor;
          [simpl; intros Hin;
           repeat (destruct Hin as [Hin|Hin]; [discriminate Hin|]);
           exact Hin|]).
  constructor.
Qed.

(** The stage on one of its eight columns. *)
Lemma clean_nutritional_columns_spec df df' col :
  clean_nutritional_columns df = Ok df' ->
  In col num_cols ->
  exists s l,
    lookup col (columns df) = Some s /\ floats_of s = Ok l
    /\ lookup col (columns df')
       = Some (FloatSeries F32 (sanitized (width_of s) l)).
Proof.
  intros H Hin.
  destruct (for_each_spec _ _ _ num_cols_NoDup H) as (Hcols & _).
  exact (Hcols _ Hin).
Qed.

(** C4: each of the eight columns ends as its sanitized cells: an accepted
    cell is kept, and every other cell, out of range or missing, is
    replaced by one and the same median, which is taken over the accepted
    cells of the column only. *)
Theorem one_median_of_valid_cells (df df' : DataFrame) (col : pystr) :
  clean_nutritional_columns df = Ok df' ->
  In col num_cols ->
  exists s l,
    lookup col (columns df) = Some s /\ floats_of s = Ok l
    /\ lookup col (columns df')
       = Some (FloatSeries F32
                 (List.map
                    (fun x => float_cast F32
                       (if in_range x then x
                        else median_of (width_of s) (filter in_range l))) l)).
Proof. exact (clean_nutritional_columns_spec df df' col). Qed.

(** ** Rounding keeps the range *)

Lemma pow2_pos k : (0 < pow2 k)%Q.
Proof. apply Qpower_0_lt. reflexivity. Qed.

Lemma pow2_inject k : (0 <= k)%Z -> (pow2 k == inject_Z (2 ^ k))%Q.
Proof. intros H. unfold pow2. now rewrite Zpower_Qpower. Qed.

Lemma pow2_opp k : (pow2 (- k) == / pow2 k)%Q.
Proof. unfold pow2. apply Qpower_opp. Qed.

(** The exponent that [Qlog2_floor] returns is not too large. *)
Lemma Qlog2_floor_lower q : (0 < q)%Q -> (pow2 (Qlog2_floor q) <= q)%Q.
Proof.
  intros Hq. unfold Qlog2_floor.
  destruct (Qle_bool (pow2 (Z.log2 (Qnum q) - Z.log2 (Z.pos (Qden q)))) q) eqn:E.
  - now apply Qle_bool_iff.
  - clear E. destruct q as [n d]. cbn [Qnum Qden].
    assert (Hn : (0 < n)%Z).
    { unfold Qlt in Hq. simpl in Hq. lia. }
    pose proof (Z.log2_spec n Hn) as [Hn1 _].
    pose proof (Z.log2_spec (Z.pos d) (Pos2Z.is_pos d)) as [_ Hd2].
    pose proof (Z.log2_nonneg n) as Hln.
    pose proof (Z.log2_nonneg (Z.pos d)) as Hld.
    replace (Z.log2 n - Z.log2 (Z.pos d) - 1)%Z
      with (Z.log2 n - Z.succ (Z.log2 (Z.pos d)))%Z by lia.
    set (A := (2 ^ Z.log2 n)%Z) in *.
    set (B := (2 ^ Z.succ (Z.log2 (Z.pos d)))%Z) in *.
    assert (HB : (0 < B)%Z) by lia.
    assert (HA' : (2 ^ Z.log2 n == inject_Z A)%Q)
      by (apply (pow2_inject (Z.log2 n)); lia).
    assert (HB' : (2 ^ Z.succ (Z.log2 (Z.pos d)) == inject_Z B)%Q)
      by (apply (pow2_inject (Z.succ (Z.log2 (Z.pos d)))); lia).
    unfold pow2. rewrite Qpower_minus by discriminate.
    rewrite HA', HB'.
    apply Qle_shift_div_r; [unfold Qlt; simpl; lia|].
    unfold Qle, Qmult. simpl. nia.
Qed.

Lemma Qlog2_floor_lt q k :
  (0 < q)%Q -> (q < pow2 k)%Q -> (Qlog2_floor q < k)%Z.
Proof.
  intros Hq Hk. apply (Qpower_lt_compat_l_inv 2); [|reflexivity].
  eapply Qle_lt_trans; [apply Qlog2_floor_lower; exact Hq|exact Hk].
Qed.

Lemma round_half_even_bounds x a b :
  (inject_Z a <= x)%Q -> (x <= inject_Z b)%Q ->
  (a <= round_half_even x <= b)%Z.
Proof.
  intros Ha Hb. unfold round_half_even.
  pose proof (Qfloor_le x) as Hf.
  pose proof (Qfloor_resp_le _ _ Ha) as Hfa. rewrite Qfloor_Z in Hfa.
  pose proof (Qfloor_resp_le _ _ Hb) as Hfb. rewrite Qfloor_Z in Hfb.
  assert (Hup : (0 < x - inject_Z (Qfloor x))%Q -> (Qfloor x + 1 <= b)%Z).
  { intros Hpos.
    assert (Hlt : (inject_Z (Qfloor x) < inject_Z b)%Q).
    { eapply Qlt_le_trans; [|exact Hb]. lra. }
    rewrite <- Zlt_Qlt in Hlt. lia. }
  destruct (x - inject_Z (Qfloor x) ?= 1 # 2)%Q eqn:E.
  - apply Qeq_alt in E.
    assert (Hpos : (0 < x - inject_Z (Qfloor x))%Q) by (rewrite E; reflexivity).
    specialize (Hup Hpos). destruct (Z.even (Qfloor x)); lia.
  - lia.
  - apply Qgt_alt in E.
    assert (Hpos : (0 < x - inject_Z (Qfloor x))%Q) by lra.
    specialize (Hup Hpos). lia.
Qed.

Lemma inject_lt_pow2 B k :
  (0 <= k)%Z -> (B < 2 ^ k)%Z -> (inject_Z B < pow2 k)%Q.
Proof.
  intros Hk HB. rewrite (pow2_inject k Hk). rewrite <- Zlt_Qlt. exact HB.
Qed.

Lemma prec_ge w : (24 <= prec w)%Z.
Proof. destruct w; simpl; lia. Qed.

Lemma emax_ge w : (128 <= emax w)%Z.
Proof. destruct w; simpl; lia. Qed.

(** A positive number below an integer bound [B < 2^24] is rounded to a
    finite number that is still at most [B]: the bound is itself a
    multiple of the unit in the last place. *)
Lemma round_pos_range w q B :
  (0 < q)%Q -> (q <= inject_Z B)%Q -> (B < 2 ^ 24)%Z ->
  exists r, round_pos w q = Fin r /\ (0 <= r)%Q /\ (r <= inject_Z B)%Q.
Proof.
  intros Hq HB Hlt.
  assert (HqB : (q < pow2 24)%Q).
  { eapply Qle_lt_trans; [exact HB|]. apply inject_lt_pow2; [lia|exact Hlt]. }
  pose proof (Qlog2_floor_lt _ _ Hq HqB) as He.
  pose proof (prec_ge w) as Hp. pose proof (emax_ge w) as Hm.
  unfold round_pos.
  set (ex := Z.max (Qlog2_floor q - prec w + 1) (3 - emax w - prec w)).
  assert (Hex : (ex <= 0)%Z) by (unfold ex; lia).
  set (K := (2 ^ (- ex))%Z).
  assert (HK : (0 < K)%Z) by (unfold K; apply Z.pow_pos_nonneg; lia).
  assert (Hpow : (pow2 ex == / inject_Z K)%Q).
  { replace ex with (- (- ex))%Z at 1 by lia.
    rewrite pow2_opp, pow2_inject by lia. reflexivity. }
  assert (HKq : (0 < inject_Z K)%Q) by (change 0%Q with (inject_Z 0); rewrite <- Zlt_Qlt; exact HK).
  set (n := round_half_even (q / pow2 ex)).
  assert (Hn : (0 <= n <= B * K)%Z).
  { apply round_half_even_bounds; rewrite Hpow.
    - unfold Qdiv. rewrite Qinv_involutive.
      apply Qmult_le_0_compat; lra.
    - unfold Qdiv. rewrite Qinv_involutive, inject_Z_mult.
      apply Qmult_le_compat_r; lra. }
  set (r := Qred (inject_Z n * pow2 ex)).
  assert (Hr : (r == inject_Z n / inject_Z K)%Q).
  { unfold r. rewrite Qred_correct, Hpow. reflexivity. }
  assert (Hr0 : (0 <= r)%Q).
  { rewrite Hr. apply Qle_shift_div_l; [exact HKq|].
    rewrite Qmult_0_l. change 0%Q with (inject_Z 0). rewrite <- Zle_Qle. lia. }
  assert (HrB : (r <= inject_Z B)%Q).
  { rewrite Hr. apply Qle_shift_div_r; [exact HKq|].
    rewrite <- inject_Z_mult. rewrite <- Zle_Qle. lia. }
  exists r. split; [|split; assumption].
  destruct (Qle_bool (pow2 (emax w)) r) eqn:E; [|reflexivity].
  apply Qle_bool_iff in E. exfalso.
  assert (Hbig : (pow2 24 <= pow2 (emax w))%Q).
  { apply Qpower_le_compat_l; [lia|discriminate]. }
  assert (HBq : (inject_Z B < pow2 24)%Q).
  { apply inject_lt_pow2; [lia|exact Hlt]. }
  lra.
Qed.

Lemma round_to_range w q B :
  (0 <= q)%Q -> (q <= inject_Z B)%Q -> (B < 2 ^ 24)%Z ->
  exists r, round_to w q = Fin r /\ (0 <= r)%Q /\ (r <= inject_Z B)%Q.
Proof.
  intros Hq HB Hlt. unfold round_to.
  destruct (q ?= 0)%Q eqn:E.
  - exists 0%Q. split; [reflexivity|]. split; lra.
  - apply Qlt_alt in E. lra.
  - apply Qgt_alt in E. now apply round_pos_range.
Qed.

Lemma in_range_Fin x :
  in_range x = true <-> exists q, x = Fin q /\ (0 <= q)%Q /\ (q <= 1000)%Q.
Proof.
  split.
  - destruct x as [| | |q]; try discriminate.
    unfold in_range. simpl. intros H. apply andb_true_iff in H.
    destruct H as [H1 H2]. apply Qle_bool_iff in H1, H2. eauto.
  - intros (q & -> & H1 & H2). unfold in_range. simpl.
    apply andb_true_iff. split; now apply Qle_bool_iff.
Qed.

Lemma float_cast_in_range w x :
  in_range x = true -> in_range (float_cast w x) = true.
Proof.
  intros H. apply in_range_Fin in H. destruct H as (q & -> & H0 & H1).
  destruct (round_to_range w q 1000 H0 H1 eq_refl) as (r & Hr & Hr0 & Hr1).
  simpl. rewrite Hr. apply in_range_Fin. eauto.
Qed.

Lemma mean2_in_range w x y :
  in_range x = true -> in_range y = true -> in_range (mean2 w x y) = true.
Proof.
  intros Hx Hy. apply in_range_Fin in Hx, Hy.
  destruct Hx as (a & -> & Ha0 & Ha1). destruct Hy as (b & -> & Hb0 & Hb1).
  unfold mean2. simpl.
  destruct (round_to_range w (a + b) 2000) as (s & Hs & Hs0 & Hs1);
    [lra|unfold inject_Z; lra|reflexivity|].
  rewrite Hs. simpl.
  destruct (round_to_range w (s / 2) 1000) as (r & Hr & Hr0 & Hr1);
    [|  |reflexivity|].
  - apply Qle_shift_div_l; lra.
  - apply Qle_shift_div_r; [lra|]. unfold inject_Z in *. lra.
  - rewrite Hr. apply in_range_Fin. eauto.
Qed.

Lemma insert_sorted_In x y l : In x (insert_sorted y l) -> x = y \/ In x l.
Proof.
  induction l as [|z l IH]; simpl.
  - intros [<-|[]]. now left.
  - destruct (float_leb y z); simpl.
    + intros [<-|H]; auto.
    + intros [<-|H]; auto. destruct (IH H); auto.
Qed.

Lemma sort_floats_In x l : In x (sort_floats l) -> In x l.
Proof.
  induction l as [|y l IH]; simpl; [tauto|].
  intros H. apply insert_sorted_In in H. destruct H as [->|H]; auto.
Qed.

Lemma insert_sorted_length y l :
  List.length (insert_sorted y l) = S (List.length l).
Proof.
  induction l as [|z l IH]; simpl; [reflexivity|].
  destruct (float_leb y z); simpl; now rewrite ?IH.
Qed.

Lemma sort_floats_length l : List.length (sort_floats l) = List.length l.
Proof.
  induction l as [|y l IH]; simpl; [reflexivity|].
  now rewrite insert_sorted_length, IH.
Qed.

(** The median of accepted values is an accepted value. *)
Lemma median_in_range w l :
  l <> [] -> Forall (fun x => in_range x = true) l ->
  in_range (median_of w l) = true.
Proof.
  intros Hne Hall. unfold median_of.
  assert (Hlen : (0 < List.length (sort_floats l))%nat).
  { rewrite sort_floats_length. destruct l; [congruence|simpl; lia]. }
  assert (Hnth : forall i, (i < List.length (sort_floats l))%nat ->
                           in_range (nth i (sort_floats l) NaN) = true).
  { intros i Hi. rewrite Forall_forall in Hall. apply Hall.
    apply sort_floats_In. now apply nth_In. }
  set (n := List.length (sort_floats l)) in *.
  destruct (n =? 0)%nat eqn:E; [apply Nat.eqb_eq in E; lia|].
  assert (Hhalf : (n / 2 < n)%nat) by (apply Nat.div_lt; lia).
  destruct (Nat.odd n).
  - now apply Hnth.
  - apply mean2_in_range; apply Hnth; lia.
Qed.

(** C1, as the code has it: a column that holds at least one value of
    [0, 1000] ends with nothing but values of [0, 1000], none missing; a
    column without such a value ends entirely missing, because the median
    of no value is NaN and nothing is filled. *)
Theorem sanitized_range_unless_all_invalid (df df' : DataFrame) (col : pystr) :
  clean_nutritional_columns df = Ok df' ->
  In col num_cols ->
  exists s l,
    lookup col (columns df) = Some s /\ floats_of s = Ok l
    /\ (existsb in_range l = true ->
        forall i v, cell df' col i = Some v ->
          exists q, v = VNum (Fin q) /\ (0 <= q)%Q /\ (q <= 1000)%Q)
    /\ (existsb in_range l = false ->
        forall i v, cell df' col i = Some v -> v = NA).
Proof.
  intros H Hin.
  destruct (clean_nutritional_columns_spec _ _ _ H Hin) as (s & l & Hs & Hl & Hs').
  exists s, l. split; [exact Hs|]. split; [exact Hl|].
  unfold cell. rewrite Hs'. unfold sanitized, valid_median. simpl. split.
  - intros Hex i v Hv.
    assert (Hmed : in_range (median_of (width_of s) (filter in_range l)) = true).
    { apply median_in_range.
      - apply existsb_exists in Hex. destruct Hex as (x & Hx & Hxr).
        intros Hnil.
        assert (Hf : In x (filter in_range l)) by (apply filter_In; auto).
        rewrite Hnil in Hf. exact Hf.
      - apply Forall_forall. intros x Hx. now apply filter_In in Hx. }
    rewrite !nth_error_map in Hv.
    destruct (nth_error l i) as [x|]; [|discriminate]. simpl in Hv.
    inversion Hv. subst v. clear Hv.
    assert (Hr : in_range
                   (float_cast F32
                      (if in_range x then x
                       else median_of (width_of s) (filter in_range l))) = true).
    { apply float_cast_in_range. destruct (in_range x) eqn:E; assumption. }
    apply in_range_Fin in Hr. destruct Hr as (q & Hq & H0 & H1).
    exists q. rewrite Hq. auto.
  - intros Hex i v Hv.
    assert (Hnil : filter in_range l = []).
    { destruct (filter in_range l) as [|x t] eqn:E; [reflexivity|].
      assert (Hx : In x (filter in_range l)) by (rewrite E; now left).
      apply filter_In in Hx.
      assert (existsb in_range l = true) by (apply existsb_exists; eauto).
      congruence. }
    rewrite Hnil in Hv. rewrite !nth_error_map in Hv.
    destruct (nth_error l i) as [x|] eqn:Ex; [|discriminate]. simpl in Hv.
    inversion Hv. subst v.
    assert (Hx : in_range x = false).
    { destruct (in_range x) eqn:E; [|reflexivity].
      assert (existsb in_range l = true).
      { apply existsb_exists. exists x. split; [|exact E].
        eapply nth_error_In; eauto. }
      congruence. }
    rewrite Hx. reflexivity.
Qed.

(** ** Text columns *)

Lemma str_series_text s : str_series s = true -> text_series s = true.
Proof.
  destruct s as [l|w l]; simpl; [|discriminate].
  induction l as [|v l IH]; simpl; [reflexivity|].
  intros H. apply andb_true_iff in H. destruct H as [Hv Hl].
  now rewrite Hv, IH.
Qed.

Lemma text_cells_accessor l :
  forallb (fun v => is_str v || isna v) l = true ->
  existsb is_str l || forallb isna l = true.
Proof.
  induction l as [|v l IH]; simpl; [reflexivity|].
  intros H. apply andb_true_iff in H. destruct H as [Hv Hl].
  specialize (IH Hl).
  destruct (is_str v); simpl in *; [reflexivity|].
  rewrite Hv. simpl. exact IH.
Qed.

(** On a text column a [.str] method returns, and returns a text column;
    on a column of strings it returns a column of strings. *)
Lemma str_method_text f s :
  text_series s = true ->
  exists s', str_method f s = Ok s' /\ text_series s' = true
             /\ (str_series s = true -> str_series s' = true).
Proof.
  destruct s as [l|w l]; simpl; [|discriminate]. intros H.
  unfold str_method, str_accessor. rewrite (text_cells_accessor _ H). simpl.
  eexists. split; [reflexivity|]. simpl. split.
  - clear H. induction l as [|v l IH]; simpl; [reflexivity|].
    rewrite IH. now destruct v.
  - clear H. induction l as [|v l IH]; simpl; [reflexivity|].
    intros H. apply andb_true_iff in H. destruct H as [Hv Hl].
    rewrite (IH Hl). now destruct v.
Qed.

(** Whatever the column was, the result of a [.str] method is a text
    column. *)
Lemma str_method_post f s s' : str_method f s = Ok s' -> text_series s' = true.
Proof.
  intros H. apply str_method_values in H. subst s'. simpl.
  induction (values s) as [|v l IH]; simpl; [reflexivity|].
  rewrite IH. now destruct v.
Qed.

Lemma fillna_text u s :
  text_series s = true -> str_series (fillna (VStr u) s) = true.
Proof.
  destruct s as [l|w l]; simpl; [|discriminate].
  induction l as [|v l IH]; simpl; [reflexivity|].
  intros H. apply andb_true_iff in H. destruct H as [Hv Hl].
  rewrite (IH Hl). unfold fill_cell.
  destruct v as [x|[]]; simpl in *; try reflexivity; discriminate.
Qed.

Lemma series_replace_str olds u s :
  str_series s = true -> str_series (series_replace olds (VStr u) s) = true.
Proof.
  destruct s as [l|w l]; simpl; [|discriminate].
  induction l as [|v l IH]; simpl; [reflexivity|].
  intros H. apply andb_true_iff in H. destruct H as [Hv Hl].
  rewrite (IH Hl). unfold replace_cell.
  destruct (str_in olds v); simpl; [reflexivity|now rewrite Hv].
Qed.

Lemma series_replace_text olds new s :
  is_str new || isna new = true ->
  text_series s = true -> text_series (series_replace olds new s) = true.
Proof.
  intros Hn. destruct s as [l|w l]; simpl; [|discriminate].
  induction l as [|v l IH]; simpl; [reflexivity|].
  intros H. apply andb_true_iff in H. destruct H as [Hv Hl].
  rewrite (IH Hl). unfold replace_cell.
  destruct (str_in olds v); [now rewrite Hn|now rewrite Hv].
Qed.

Lemma select_series_str mask s :
  str_series s = true -> str_series (select_series mask s) = true.
Proof.
  destruct s as [l|w l]; simpl; [|discriminate].
  revert mask. induction l as [|v l IH]; intros [|b mask]; simpl;
    try reflexivity.
  intros H. apply andb_true_iff in H. destruct H as [Hv Hl].
  destruct b; simpl; rewrite ?Hv; now apply IH.
Qed.

Lemma select_series_text mask s :
  text_series s = true -> text_series (select_series mask s) = true.
Proof.
  destruct s as [l|w l]; simpl; [|discriminate].
  revert mask. induction l as [|v l IH]; intros [|b mask]; simpl;
    try reflexivity.
  intros H. apply andb_true_iff in H. destruct H as [Hv Hl].
  destruct b; simpl; rewrite ?Hv; now apply IH.
Qed.

Lemma all_floats_str v l : is_str v = true -> all_floats (v :: l) = None.
Proof. destruct v; [reflexivity|discriminate]. Qed.

Lemma mapM_str (f : value -> result value) (g : pystr -> pystr) l :
  (forall x, f (VStr x) = Ok (VStr (g x))) ->
  forallb is_str l = true ->
  exists l', mapM f l = Ok l' /\ forallb is_str l' = true
             /\ List.length l' = List.length l.
Proof.
  intros Hf. induction l as [|v l IH]; simpl.
  - exists []. auto.
  - intros H. apply andb_true_iff in H. destruct H as [Hv Hl].
    destruct (IH Hl) as (l' & Hm & Hs & Hlen).
    destruct v as [x|]; [|discriminate].
    rewrite Hf. simpl. rewrite Hm. simpl.
    eexists. split; [reflexivity|]. simpl. now rewrite Hs, Hlen.
Qed.

(** [apply] of a function that sends strings to strings, on a column of
    strings. *)
Lemma series_apply_str (f : value -> result value) (g : pystr -> pystr) s :
  (forall x, f (VStr x) = Ok (VStr (g x))) ->
  str_series s = true ->
  exists s', series_apply f s = Ok s' /\ str_series s' = true.
Proof.
  intros Hf. destruct s as [l|w l]; simpl; [|discriminate]. intros H.
  unfold series_apply. cbn [values]. destruct l as [|v l].
  - eexists. split; [reflexivity|]. reflexivity.
  - destruct (mapM_str f g (v :: l) Hf H) as (l' & Hm & Hs & Hlen).
    rewrite Hm. cbn [bind]. eexists. split; [reflexivity|].
    destruct l' as [|v' l']; [discriminate|].
    unfold infer_series. rewrite all_floats_str; [exact Hs|].
    simpl in Hs. apply andb_true_iff in Hs. tauto.
Qed.

(** What [apply] returns on a column of strings is a column of strings
    when the function keeps strings. *)
Lemma series_apply_post (f : value -> result value) (g : pystr -> pystr) s s' :
  (forall x, f (VStr x) = Ok (VStr (g x))) ->
  str_series s = true -> series_apply f s = Ok s' -> str_series s' = true.
Proof.
  intros Hf Hs H. destruct (series_apply_str f g s Hf Hs) as (s0 & H0 & Hs0).
  congruence.
Qed.

(** ** Columns of a table with a property, through an assignment *)

Lemma update_runs (P Q : Series -> bool) name f df :
  column_is P df name = true ->
  runs_on P Q f ->
  exists df', update name f df = Ok df' /\ column_is Q df' name = true.
Proof.
  unfold column_is, update, getitem. intros Hc Hf.
  destruct (lookup name (columns df)) as [s|]; [|discriminate].
  destruct (Hf s Hc) as (s' & Hs' & HQ). simpl. rewrite Hs'. simpl.
  eexists. split; [reflexivity|]. simpl. now rewrite lookup_assign_same.
Qed.

Lemma update_post (Q : Series -> bool) name f df df' :
  update name f df = Ok df' ->
  (forall s s', f s = Ok s' -> Q s' = true) ->
  column_is Q df' name = true.
Proof.
  intros H Hf. apply update_ok in H. destruct H as (s & s' & _ & Hfs & ->).
  unfold column_is. simpl. rewrite lookup_assign_same. eauto.
Qed.

Lemma update_post_from (P Q : Series -> bool) name f df df' :
  update name f df = Ok df' ->
  column_is P df name = true ->
  (forall s s', P s = true -> f s = Ok s' -> Q s' = true) ->
  column_is Q df' name = true.
Proof.
  intros H Hc Hf. apply update_ok in H. destruct H as (s & s' & Hs & Hfs & ->).
  unfold column_is in *. simpl. rewrite lookup_assign_same. rewrite Hs in Hc. eauto.
Qed.

Lemma update_frame (P : Series -> bool) name other f df df' :
  update name f df = Ok df' -> name <> other ->
  column_is P df' other = column_is P df other.
Proof.
  intros H Hne. unfold column_is. now rewrite (update_lookup_other _ _ _ _ _ H Hne).
Qed.

Lemma setitem_frame (P : Series -> bool) name other s df :
  name <> other -> column_is P (setitem df name s) other = column_is P df other.
Proof.
  intros Hne. unfold column_is. simpl. now rewrite lookup_assign_other.
Qed.

Lemma drop_frame (P : Series -> bool) name other df df' :
  drop_column df name = Ok df' -> name <> other ->
  column_is P df' other = column_is P df other.
Proof.
  intros H Hne. apply drop_column_ok in H. destruct H as (_ & _ & Hc).
  unfold column_is. now rewrite Hc, lookup_filter_other.
Qed.

Lemma select_rows_column (P : Series -> bool) mask df name :
  (forall s, P s = true -> P (select_series mask s) = true) ->
  column_is P df name = true -> column_is P (select_rows mask df) name = true.
Proof.
  intros HP. unfold column_is, select_rows. simpl. rewrite lookup_select.
  destruct (lookup name (columns df)); simpl; [apply HP|discriminate].
Qed.

Lemma drop_duplicates_column (P : Series -> bool) df name :
  (forall mask s, P s = true -> P (select_series mask s) = true) ->
  column_is P df name = true -> column_is P (drop_duplicates df) name = true.
Proof.
  intros HP H. unfold drop_duplicates. destruct (df_empty df); [exact H|].
  apply select_rows_column; [apply HP|exact H].
Qed.

(** ** Column programs that cannot fail on a text column *)

Lemma runs_bind (P Q R : Series -> bool) f g :
  runs_on P Q f -> runs_on Q R g -> runs_on P R (fun s => s1 <- f s ;; g s1).
Proof.
  intros Hf Hg s Hs. destruct (Hf s Hs) as (s1 & H1 & HQ).
  rewrite H1. simpl. now apply Hg.
Qed.

Lemma runs_ok (P Q : Series -> bool) g :
  (forall s, P s = true -> Q (g s) = true) -> runs_on P Q (fun s => Ok (g s)).
Proof. intros Hg s Hs. eauto. Qed.

Lemma runs_after (P Q R : Series -> bool) f g :
  (forall s, P s = true -> Q (g s) = true) ->
  runs_on Q R f -> runs_on P R (fun s => f (g s)).
Proof. intros Hg Hf s Hs. apply Hf. now apply Hg. Qed.

Lemma runs_str_method_text f : runs_on text_series text_series (str_method f).
Proof.
  intros s Hs. destruct (str_method_text f s Hs) as (s' & H & Ht & _). eauto.
Qed.

Lemma runs_str_method_str f : runs_on str_series str_series (str_method f).
Proof.
  intros s Hs.
  destruct (str_method_text f s (str_series_text s Hs)) as (s' & H & _ & Ht).
  eauto.
Qed.

Lemma runs_weaken (P P' Q Q' : Series -> bool) f :
  (forall s, P' s = true -> P s = true) ->
  (forall s, Q s = true -> Q' s = true) ->
  runs_on P Q f -> runs_on P' Q' f.
Proof.
  intros HP HQ Hf s Hs. destruct (Hf s (HP s Hs)) as (s' & H & Hq). eauto.
Qed.

Lemma fillna_str u s :
  str_series s = true -> str_series (fillna (VStr u) s) = true.
Proof. intros H. apply fillna_text. now apply str_series_text. Qed.

Ltac rb Q := apply (runs_bind _ Q _).

Ltac step P Q Hc Hc' :=
  match goal with
  | |- exists _, bind (update ?n ?f ?d) _ = _ =>
      let d' := fresh "d" in
      let Hr := fresh "Hr" in
      destruct (update_runs P Q n f d Hc) as (d' & Hr & Hc');
      [ | rewrite Hr; cbn [bind] ]
  end.

Section SecondRunStages.
Context {L : PyLib}.

Lemma runs_unescape : runs_on str_series str_series (series_apply unescape_cell).
Proof. intros s Hs. now apply (series_apply_str _ html_unescape). Qed.

Lemma runs_tidy (P : Series -> bool) :
  (forall f, runs_on P P (str_method f)) ->
  runs_on P P
    (fun s => s <- str_method str_strip s ;;
              s <- str_method (str_replace (py ", ") (py ",")) s ;;
              s <- str_method (str_replace (py ",") (py ", ")) s ;;
              str_method str_title s).
Proof. intros H. rb P; [apply H|]. rb P; [apply H|]. rb P; apply H. Qed.

(** *** The stages on a table whose text columns are clean *)

Lemma clean_product_name_runs df :
  column_is str_series df product_name = true ->
  exists df', clean_product_name df = Ok df'.
Proof.
  intros Hc. unfold clean_product_name.
  step str_series str_series Hc Hc1; [apply runs_unescape|].
  step str_series str_series Hc1 Hc2; [rb str_series; apply runs_str_method_str|].
  unfold getitem. unfold column_is in Hc2.
  destruct (lookup product_name (columns d0)) as [s|] eqn:E; [|discriminate].
  cbn [bind].
  destruct (update_runs str_series str_series product_name
              (fun s => Ok (fillna Unknown s))
              (select_rows (ne_str Xxx s) d0)) as (d' & Hr' & _).
  - apply select_rows_column; [intros; now apply select_series_str|].
    unfold column_is. now rewrite E.
  - apply runs_ok. intros. now apply fillna_str.
  - eauto.
Qed.

Lemma clean_brands_runs df :
  column_is str_series df brands = true -> exists df', clean_brands df = Ok df'.
Proof.
  intros Hc. unfold clean_brands.
  step str_series str_series Hc Hc1; [apply runs_unescape|].
  step str_series str_series Hc1 Hc2; [rb str_series; apply runs_str_method_str|].
  step str_series str_series Hc2 Hc3;
    [apply runs_ok; intros; now apply series_replace_str|].
  step str_series str_series Hc3 Hc4; [apply runs_str_method_str|].
  step str_series str_series Hc4 Hc5; [rb str_series; apply runs_str_method_str|].
  destruct (update_runs str_series str_series brands
              (fun s => Ok (fillna Unknown s)) d3 Hc5) as (d' & Hr' & _);
    [apply runs_ok; intros; now apply fillna_str|eauto].
Qed.

Lemma runs_lang_prefix :
  runs_on str_series str_series (series_apply remove_lang_prefix).
Proof. intros s Hs. now apply (series_apply_str _ remove_lang_prefix_str). Qed.

Lemma clean_categories_runs df :
  column_is text_series df categories = true ->
  exists df', clean_categories df = Ok df'.
Proof.
  intros Hc. unfold clean_categories.
  step text_series text_series Hc Hc1;
    [apply runs_ok; intros; now apply series_replace_text|].
  step text_series str_series Hc1 Hc2.
  { rb text_series; [apply runs_str_method_text|].
    apply (runs_after text_series str_series _
             (series_apply remove_lang_prefix) (fillna Unknown)).
    - intros. now apply fillna_text.
    - apply runs_lang_prefix. }
  unfold getitem. unfold column_is in Hc2.
  destruct (lookup categories (columns d0)) as [s|] eqn:E; [|discriminate].
  cbn [bind].
  destruct (runs_str_method_str first_segment s Hc2) as (s1 & H1 & Hs1).
  rewrite H1. cbn [bind].
  destruct (runs_str_method_str str_title s1 Hs1) as (s2 & H2 & Hs2).
  rewrite H2. cbn [bind]. eauto.
Qed.

Lemma runs_map_countries :
  runs_on str_series str_series (series_apply map_countries_cell).
Proof. intros s Hs. now apply (series_apply_str _ map_countries). Qed.

Lemma clean_countries_runs df :
  column_is text_series df countries = true ->
  exists df', clean_countries df = Ok df'.
Proof.
  intros Hc. unfold clean_countries.
  step text_series text_series Hc Hc1; [apply runs_str_method_text|].
  step text_series text_series Hc1 Hc2;
    [apply runs_tidy; apply runs_str_method_text|].
  step text_series str_series Hc2 Hc3;
    [apply runs_ok; intros; now apply fillna_text|].
  destruct (update_runs str_series str_series countries
              (series_apply map_countries_cell) d1 Hc3) as (d' & Hr' & _);
    [apply runs_map_countries|eauto].
Qed.

Lemma clean_ingredients_labels_packaging_runs df :
  column_is text_series df ingredients_text = true ->
  column_is text_series df labels = true ->
  column_is text_series df packaging = true ->
  exists df', clean_ingredients_labels_packaging df = Ok df'.
Proof.
  intros Hi Hl Hp. unfold clean_ingredients_labels_packaging.
  step text_series str_series Hi Hi1.
  { rb str_series.
    - apply (runs_after text_series str_series _
               (str_method str_strip) (fillna Unknown));
        [intros; now apply fillna_text|apply runs_str_method_str].
    - rb str_series; apply runs_str_method_str. }
  rewrite <- (update_frame text_series _ labels _ _ _ Hr) in Hl by discriminate.
  rewrite <- (update_frame text_series _ packaging _ _ _ Hr) in Hp by discriminate.
  step text_series str_series Hl Hl1.
  { rb str_series.
    - apply (runs_after text_series str_series _
               (str_method remove_code_colon) (fillna Unknown));
        [intros; now apply fillna_text|apply runs_str_method_str].
    - rb str_series; [apply runs_str_method_str|].
      rb str_series; apply runs_str_method_str. }
  rewrite <- (update_frame text_series _ packaging _ _ _ Hr0) in Hp by discriminate.
  step text_series str_series Hp Hp1.
  { rb text_series; [apply runs_str_method_text|].
    rb text_series; [apply runs_str_method_text|].
    rb text_series; [apply runs_str_method_text|].
    rb text_series; [apply runs_str_method_text|].
    apply (runs_after text_series str_series _
             (str_method str_title) (fillna Unknown));
      [intros; now apply fillna_text|apply runs_str_method_str]. }
  destruct (update_runs str_series str_series packaging
              (fun s => Ok (series_replace
                              [py "40g"; py "packaging"; py "plaza vea"; py "za"]
                              Unknown s)) d1 Hp1) as (d' & Hr' & _);
    [apply runs_ok; intros; now apply series_replace_str|eauto].
Qed.

(** On such a table without [environmental_score_score], the nutriscore
    stage gets as far as the drop, which raises. *)
Lemma clean_nutriscore_key_error df :
  column_is text_series df nutriscore_grade = true ->
  has_column df environmental_score_score = false ->
  clean_nutriscore df = Raise (KeyError environmental_score_score).
Proof.
  intros Hc Habs. unfold clean_nutriscore.
  destruct (update_runs text_series str_series nutriscore_grade
              (fun s => str_method str_lower
                          (series_replace [py "not-applicable"] Unknown
                             (fillna unknown s))) df Hc) as (d & Hr & Hc1).
  { apply (runs_after text_series str_series _
             (str_method str_lower)
             (fun s => series_replace [py "not-applicable"] Unknown
                         (fillna unknown s))).
    - intros s Hs. apply series_replace_str. now apply fillna_text.
    - apply runs_str_method_str. }
  rewrite Hr. cbn [bind].
  unfold getitem. unfold column_is in Hc1.
  destruct (lookup nutriscore_grade (columns d)) as [s|] eqn:E; [|discriminate].
  cbn [bind]. unfold drop_column.
  rewrite setitem_has_column by discriminate.
  now rewrite (update_has_column _ environmental_score_score _ _ _ Hr), Habs.
Qed.

End SecondRunStages.

(** ** What the stages leave untouched *)

Ltac ne_tac Hne :=
  let Heq := fresh "Heq" in
  intros Heq; apply Hne; rewrite <- Heq; simpl; tauto.

Ltac frames H Hne o :=
  repeat (match type of H with
          | bind _ _ = Ok _ =>
              let d := fresh "d" in
              let H1 := fresh "Hs" in
              apply bind_ok in H; destruct H as (d & H1 & H);
              try (apply update_lookup_other with (other := o) in H1;
                   [|ne_tac Hne])
          end);
  try (apply update_lookup_other with (other := o) in H; [|ne_tac Hne]).

Section Frames.
Context {L : PyLib}.

Lemma clean_brands_lookup df df' other :
  clean_brands df = Ok df' -> ~ In other [brands] ->
  lookup other (columns df') = lookup other (columns df).
Proof. unfold clean_brands. intros H Hne. frames H Hne other. congruence. Qed.

Lemma clean_categories_lookup df df' other :
  clean_categories df = Ok df' -> ~ In other [categories; categories_top] ->
  lookup other (columns df') = lookup other (columns df).
Proof.
  unfold clean_categories. intros H Hne. frames H Hne other.
  inversion H. simpl. rewrite lookup_assign_other by ne_tac Hne. congruence.
Qed.

Lemma clean_countries_lookup df df' other :
  clean_countries df = Ok df' -> ~ In other [countries] ->
  lookup other (columns df') = lookup other (columns df).
Proof. unfold clean_countries. intros H Hne. frames H Hne other. congruence. Qed.

Lemma clean_ingredients_labels_packaging_lookup df df' other :
  clean_ingredients_labels_packaging df = Ok df' ->
  ~ In other [ingredients_text; labels; packaging] ->
  lookup other (columns df') = lookup other (columns df).
Proof.
  unfold clean_ingredients_labels_packaging. intros H Hne.
  frames H Hne other. congruence.
Qed.

Lemma clean_nutriscore_lookup df df' other :
  clean_nutriscore df = Ok df' ->
  ~ In other [nutriscore_grade; nutriscore_numeric; environmental_score_score] ->
  lookup other (columns df') = lookup other (columns df).
Proof.
  unfold clean_nutriscore. intros H Hne. frames H Hne other.
  apply drop_column_ok in H. destruct H as (_ & _ & Hc). rewrite Hc.
  rewrite lookup_filter_other by ne_tac Hne. simpl.
  rewrite lookup_assign_other by ne_tac Hne. congruence.
Qed.

Lemma clean_nova_group_lookup df df' other :
  clean_nova_group df = Ok df' -> ~ In other [nova_group; nova_group_label] ->
  lookup other (columns df') = lookup other (columns df).
Proof.
  unfold clean_nova_group. intros H Hne. frames H Hne other.
  inversion H. simpl. rewrite lookup_assign_other by ne_tac Hne. congruence.
Qed.

Lemma clean_nutritional_columns_lookup df df' other :
  clean_nutritional_columns df = Ok df' -> ~ In other num_cols ->
  lookup other (columns df') = lookup other (columns df).
Proof.
  intros H Hne.
  destruct (for_each_spec _ _ _ num_cols_NoDup H) as (_ & Hout). now apply Hout.
Qed.

(** *** What the text stages leave in their own columns *)

Lemma clean_product_name_post df df' :
  clean_product_name df = Ok df' ->
  column_is str_series df' product_name = true.
Proof.
  unfold clean_product_name. intros H. inv_bind H. inv_bind H. inv_bind H.
  inv_bind Hstep1. inversion Hstep1. subst x1. clear Hstep1.
  apply (update_post text_series) in Hstep0.
  - apply (update_post_from text_series str_series) in H; [exact H| |].
    + apply select_rows_column; [intros; now apply select_series_text|exact Hstep0].
    + intros s s' Hs Hf. inversion Hf. now apply fillna_text.
  - intros s s' Hf. inv_bind Hf. now apply str_method_post in Hf.
Qed.

Lemma clean_brands_post df df' :
  clean_brands df = Ok df' -> column_is str_series df' brands = true.
Proof.
  unfold clean_brands. intros H. do 5 inv_bind H.
  apply (update_post text_series) in Hstep3.
  - apply (update_post_from text_series str_series) in H; [exact H|exact Hstep3|].
    intros s s' Hs Hf. inversion Hf. now apply fillna_text.
  - intros s s' Hf. inv_bind Hf. now apply str_method_post in Hf.
Qed.

Lemma clean_categories_post df df' :
  clean_categories df = Ok df' -> column_is text_series df' categories = true.
Proof.
  unfold clean_categories. intros H. do 5 inv_bind H.
  inversion H. subst df'. rewrite setitem_frame by discriminate.
  apply (update_post text_series) in Hstep0; [exact Hstep0|].
  intros s s' Hf. inv_bind Hf. apply str_method_post in Hstep4.
  apply str_series_text.
  apply (series_apply_post _ remove_lang_prefix_str _ _ (fun _ => eq_refl)) in Hf;
    [exact Hf|now apply fillna_text].
Qed.

Lemma clean_countries_post df df' :
  clean_countries df = Ok df' -> column_is text_series df' countries = true.
Proof.
  unfold clean_countries. intros H. do 3 inv_bind H.
  apply (update_post text_series) in Hstep0.
  - apply (update_post_from text_series str_series) in Hstep1;
      [|exact Hstep0|intros s s' Hs Hf; inversion Hf; now apply fillna_text].
    apply (update_post_from str_series text_series) in H; [exact H|exact Hstep1|].
    intros s s' Hs Hf. apply str_series_text.
    now apply (series_apply_post _ map_countries _ _ (fun _ => eq_refl)) in Hf.
  - intros s s' Hf. do 3 inv_bind Hf. now apply str_method_post in Hf.
Qed.

Lemma clean_ingredients_labels_packaging_post df df' :
  clean_ingredients_labels_packaging df = Ok df' ->
  column_is text_series df' ingredients_text = true
  /\ column_is text_series df' labels = true
  /\ column_is text_series df' packaging = true.
Proof.
  unfold clean_ingredients_labels_packaging. intros H. do 3 inv_bind H.
  pose proof Hstep as Hi. pose proof Hstep0 as Hl. pose proof Hstep1 as Hp.
  apply (update_post text_series) in Hi;
    [|intros s s' Hf; do 2 inv_bind Hf; now apply str_method_post in Hf].
  apply (update_post text_series) in Hl;
    [|intros s s' Hf; do 3 inv_bind Hf; now apply str_method_post in Hf].
  apply (update_post text_series) in Hp;
    [|intros s s' Hf; do 4 inv_bind Hf; now apply str_method_post in Hf].
  pose proof H as Hp'.
  apply (update_post_from text_series text_series) in Hp';
    [|exact Hp|intros s s' Hs Hf; inversion Hf; now apply series_replace_text].
  split; [|split; [|exact Hp']].
  - rewrite (update_frame _ _ ingredients_text _ _ _ H) by discriminate.
    rewrite (update_frame _ _ ingredients_text _ _ _ Hstep1) by discriminate.
    rewrite (update_frame _ _ ingredients_text _ _ _ Hstep0) by discriminate.
    exact Hi.
  - rewrite (update_frame _ _ labels _ _ _ H) by discriminate.
    rewrite (update_frame _ _ labels _ _ _ Hstep1) by discriminate.
    exact Hl.
Qed.

Lemma clean_nutriscore_post df df' :
  clean_nutriscore df = Ok df' ->
  column_is text_series df' nutriscore_grade = true.
Proof.
  unfold clean_nutriscore. intros H. do 2 inv_bind H.
  rewrite (drop_frame _ _ nutriscore_grade _ _ H) by discriminate.
  rewrite setitem_frame by discriminate.
  apply (update_post text_series) in Hstep; [exact Hstep|].
  intros s s' Hf. now apply str_method_post in Hf.
Qed.

End Frames.

(** ** A second run of the pipeline *)

Section SecondRun.
Context {L : PyLib}.

Local Abbreviation ESS := environmental_score_score.

Ltac stage_columns H :=
  repeat (match type of H with
          | bind _ _ = Ok _ =>
              let a := fresh "d" in
              let H1 := fresh "Hs" in
              apply bind_ok in H; destruct H as (a & H1 & H);
              try (apply (update_has_column _ ESS) in H1)
          end);
  try (apply (update_has_column _ ESS) in H).

Lemma clean_product_name_columns df df' :
  clean_product_name df = Ok df' -> has_column df' ESS = has_column df ESS.
Proof.
  unfold clean_product_name. intros H. stage_columns H.
  rewrite select_rows_has_column in H. congruence.
Qed.

Lemma clean_brands_columns df df' :
  clean_brands df = Ok df' -> has_column df' ESS = has_column df ESS.
Proof. unfold clean_brands. intros H. stage_columns H. congruence. Qed.

Lemma clean_categories_columns df df' :
  clean_categories df = Ok df' -> has_column df' ESS = has_column df ESS.
Proof.
  unfold clean_categories. intros H. stage_columns H.
  inversion H. rewrite setitem_has_column by discriminate. congruence.
Qed.

Lemma clean_countries_columns df df' :
  clean_countries df = Ok df' -> has_column df' ESS = has_column df ESS.
Proof. unfold clean_countries. intros H. stage_columns H. congruence. Qed.

Lemma clean_ingredients_labels_packaging_columns df df' :
  clean_ingredients_labels_packaging df = Ok df' ->
  has_column df' ESS = has_column df ESS.
Proof.
  unfold clean_ingredients_labels_packaging. intros H. stage_columns H.
  congruence.
Qed.

Lemma clean_nova_group_columns df df' :
  clean_nova_group df = Ok df' -> has_column df' ESS = has_column df ESS.
Proof.
  unfold clean_nova_group. intros H. stage_columns H.
  inversion H. rewrite setitem_has_column by discriminate. congruence.
Qed.

Lemma for_each_columns cols df df' :
  for_each cols df = Ok df' -> has_column df' ESS = has_column df ESS.
Proof.
  revert df. induction cols as [|c cols IH]; intros df H; simpl in H.
  - now inversion H.
  - inv_bind H. apply IH in H. rewrite H.
    unfold clean_numeric_column in Hstep. stage_columns Hstep. congruence.
Qed.

Lemma drop_duplicates_columns df :
  has_column (drop_duplicates df) ESS = has_column df ESS.
Proof.
  unfold drop_duplicates. destruct (df_empty df); [reflexivity|].
  apply select_rows_has_column.
Qed.

(** The table that a run saves has lost the column. *)
Lemma saved_without_column raw r :
  run_pipeline raw = Ok r -> has_column (saved r) ESS = false.
Proof.
  unfold run_pipeline. intros H.
  repeat (match type of H with bind _ _ = Ok _ => inv_bind H end).
  inversion H. subst r. simpl.
  apply clean_nutriscore_drops in Hstep4.
  apply clean_nova_group_columns in Hstep5.
  apply for_each_columns in Hstep6. congruence.
Qed.

(** A run on a table without the column does not get past the nutriscore
    stage. *)
Lemma run_without_column_raises raw :
  has_column raw ESS = false -> exists e, run_pipeline raw = Raise e.
Proof.
  intros H. unfold run_pipeline.
  rewrite <- drop_duplicates_columns in H.
  destruct (clean_product_name _) as [d1|e] eqn:E1; simpl; [|eauto].
  rewrite <- (clean_product_name_columns _ _ E1) in H.
  destruct (clean_brands d1) as [d2|e] eqn:E2; simpl; [|eauto].
  rewrite <- (clean_brands_columns _ _ E2) in H.
  destruct (clean_categories d2) as [d3|e] eqn:E3; simpl; [|eauto].
  rewrite <- (clean_categories_columns _ _ E3) in H.
  destruct (clean_countries d3) as [d4|e] eqn:E4; simpl; [|eauto].
  rewrite <- (clean_countries_columns _ _ E4) in H.
  destruct (clean_ingredients_labels_packaging d4) as [d5|e] eqn:E5; simpl; [|eauto].
  rewrite <- (clean_ingredients_labels_packaging_columns _ _ E5) in H.
  destruct (clean_nutriscore_raises _ H) as (e & He).
  rewrite He. simpl. eauto.
Qed.

Ltac side := simpl; intuition discriminate.

Ltac carry :=
  unfold column_is;
  repeat match goal with
    | H : clean_nutritional_columns _ = Ok ?d |- context [lookup ?c (columns ?d)] =>
        rewrite (clean_nutritional_columns_lookup _ _ c H) by side
    | H : clean_nova_group _ = Ok ?d |- context [lookup ?c (columns ?d)] =>
        rewrite (clean_nova_group_lookup _ _ c H) by side
    | H : clean_nutriscore _ = Ok ?d |- context [lookup ?c (columns ?d)] =>
        rewrite (clean_nutriscore_lookup _ _ c H) by side
    | H : clean_ingredients_labels_packaging _ = Ok ?d
      |- context [lookup ?c (columns ?d)] =>
        rewrite (clean_ingredients_labels_packaging_lookup _ _ c H) by side
    | H : clean_countries _ = Ok ?d |- context [lookup ?c (columns ?d)] =>
        rewrite (clean_countries_lookup _ _ c H) by side
    | H : clean_categories _ = Ok ?d |- context [lookup ?c (columns ?d)] =>
        rewrite (clean_categories_lookup _ _ c H) by side
    | H : clean_brands _ = Ok ?d |- context [lookup ?c (columns ?d)] =>
        rewrite (clean_brands_lookup _ _ c H) by side
    end.

Ltac push lem E :=
  repeat match goal with
    | Hx : context [lookup ?c (columns ?d)] |- _ =>
        lazymatch type of E with _ ?d0 = Ok _ => constr_eq d d0 end;
        rewrite <- (lem _ _ c E) in Hx by side
    end.

(** The text columns of a saved table are clean. *)
Lemma saved_text_columns raw r :
  run_pipeline raw = Ok r ->
  column_is str_series (saved r) product_name = true
  /\ column_is str_series (saved r) brands = true
  /\ column_is text_series (saved r) categories = true
  /\ column_is text_series (saved r) countries = true
  /\ column_is text_series (saved r) ingredients_text = true
  /\ column_is text_series (saved r) labels = true
  /\ column_is text_series (saved r) packaging = true
  /\ column_is text_series (saved r) nutriscore_grade = true.
Proof.
  unfold run_pipeline. intros H.
  repeat (match type of H with bind _ _ = Ok _ => inv_bind H end).
  inversion H. subst r. clear H. cbn [saved].
  pose proof (clean_product_name_post _ _ Hstep) as H1.
  pose proof (clean_brands_post _ _ Hstep0) as H2.
  pose proof (clean_categories_post _ _ Hstep1) as H3.
  pose proof (clean_countries_post _ _ Hstep2) as H4.
  destruct (clean_ingredients_labels_packaging_post _ _ Hstep3) as (H5 & H6 & H7).
  pose proof (clean_nutriscore_post _ _ Hstep4) as H8.
  unfold column_is in H1, H2, H3, H4, H5, H6, H7, H8.
  repeat split; carry; assumption.
Qed.

Lemma clean_product_name_keeps (P : Series -> bool) df df' other :
  (forall mask s, P s = true -> P (select_series mask s) = true) ->
  clean_product_name df = Ok df' -> other <> product_name ->
  column_is P df other = true -> column_is P df' other = true.
Proof.
  intros HP H Hne. destruct (clean_product_name_spec _ _ H) as (_ & Hother & _).
  unfold column_is. rewrite (Hother _ Hne).
  destruct (lookup other (columns df)); simpl; [apply HP|discriminate].
Qed.

(** On a table whose text columns are clean and which lacks
    [environmental_score_score], the run stops in the nutriscore stage. *)
Lemma run_stops_at_nutriscore raw :
  column_is str_series raw product_name = true ->
  column_is str_series raw brands = true ->
  column_is text_series raw categories = true ->
  column_is text_series raw countries = true ->
  column_is text_series raw ingredients_text = true ->
  column_is text_series raw labels = true ->
  column_is text_series raw packaging = true ->
  column_is text_series raw nutriscore_grade = true ->
  has_column raw environmental_score_score = false ->
  run_pipeline raw = Raise (KeyError environmental_score_score).
Proof.
  intros H1 H2 H3 H4 H5 H6 H7 H8 Habs. unfold run_pipeline.
  pose proof select_series_str as Cs. pose proof select_series_text as Ct.
  apply (drop_duplicates_column _ _ _ Cs) in H1, H2.
  apply (drop_duplicates_column _ _ _ Ct) in H3, H4, H5, H6, H7, H8.
  rewrite <- drop_duplicates_columns in Habs.
  destruct (clean_product_name_runs _ H1) as (d1 & E1). rewrite E1. cbn [bind].
  apply (clean_product_name_keeps _ _ _ _ Cs E1) in H2; [|discriminate].
  apply (clean_product_name_keeps _ _ _ _ Ct E1) in H3; [|discriminate].
  apply (clean_product_name_keeps _ _ _ _ Ct E1) in H4; [|discriminate].
  apply (clean_product_name_keeps _ _ _ _ Ct E1) in H5; [|discriminate].
  apply (clean_product_name_keeps _ _ _ _ Ct E1) in H6; [|discriminate].
  apply (clean_product_name_keeps _ _ _ _ Ct E1) in H7; [|discriminate].
  apply (clean_product_name_keeps _ _ _ _ Ct E1) in H8; [|discriminate].
  rewrite <- (clean_product_name_columns _ _ E1) in Habs.
  destruct (clean_brands_runs _ H2) as (d2 & E2). rewrite E2. cbn [bind].
  rewrite <- (clean_brands_columns _ _ E2) in Habs.
  unfold column_is in H3, H4, H5, H6, H7, H8.
  push clean_brands_lookup E2.
  destruct (clean_categories_runs d2 H3) as (d3 & E3). rewrite E3. cbn [bind].
  rewrite <- (clean_categories_columns _ _ E3) in Habs.
  push clean_categories_lookup E3.
  destruct (clean_countries_runs d3 H4) as (d4 & E4). rewrite E4. cbn [bind].
  rewrite <- (clean_countries_columns _ _ E4) in Habs.
  push clean_countries_lookup E4.
  destruct (clean_ingredients_labels_packaging_runs d4 H5 H6 H7) as (d5 & E5).
  rewrite E5. cbn [bind].
  rewrite <- (clean_ingredients_labels_packaging_columns _ _ E5) in Habs.
  push clean_ingredients_labels_packaging_lookup E5.
  now rewrite (clean_nutriscore_key_error d5 H8 Habs).
Qed.

(** C2, as the code has it: the pipeline cannot be run on its own output.
    On every table that a run has saved, the stages before the nutriscore
    stage return, and the nutriscore stage raises the error of the missing
    column [environmental_score_score], which the first run dropped. *)
Theorem second_run_raises (raw : DataFrame) (r : pipeline_run) :
  run_pipeline raw = Ok r ->
  has_column (saved r) environmental_score_score = false
  /\ run_pipeline (saved r) = Raise (KeyError environmental_score_score).
Proof.
  intros H. pose proof (saved_without_column _ _ H) as Hc.
  split; [exact Hc|].
  destruct (saved_text_columns _ _ H) as (H1 & H2 & H3 & H4 & H5 & H6 & H7 & H8).
  now apply run_stops_at_nutriscore.
Qed.

End SecondRun.

(** ** The theorems at work on the sample tables

    The runs below use [ascii_lib], the runtime that leaves non-ASCII
    characters and character references alone. *)

(** The sanitizer leaves a column without an accepted value entirely
    missing: the cell 2000 of [salt_100g] becomes NaN and stays so. *)
Lemma sanitizer_leaves_missing :
  exists df',
    clean_nutritional_columns sample = Ok df'
    /\ In (py "salt_100g") num_cols
    /\ cell sample (py "salt_100g") 1 = Some (VNum (fl 2000 1))
    /\ cell df' (py "salt_100g") 1 = Some NA.
Proof.
  eexists. split; [vm_compute; reflexivity|].
  split; [simpl; tauto|]. split; reflexivity.
Qed.

Lemma sanitized_range_witness :
  exists df',
    clean_nutritional_columns sample = Ok df'
    /\ In (py "fat_100g") num_cols
    /\ exists s l,
         lookup (py "fat_100g") (columns sample) = Some s /\ floats_of s = Ok l
         /\ (existsb in_range l = true ->
             forall i v, cell df' (py "fat_100g") i = Some v ->
               exists q, v = VNum (Fin q) /\ (0 <= q)%Q /\ (q <= 1000)%Q)
         /\ (existsb in_range l = false ->
             forall i v, cell df' (py "fat_100g") i = Some v -> v = NA).
Proof.
  eexists. split; [vm_compute; reflexivity|].
  split; [simpl; tauto|].
  apply (sanitized_range_unless_all_invalid sample _ (py "fat_100g"));
    [vm_compute; reflexivity | simpl; tauto].
Defined.

(** The second run on the saved sample stops at the nutriscore stage. *)
Lemma pipeline_not_idempotent :
  exists r,
    run_pipeline (L:=ascii_lib) sample = Ok r
    /\ run_pipeline (L:=ascii_lib) (saved r)
       = Raise (KeyError environmental_score_score).
Proof.
  eexists. split; [vm_compute; reflexivity|].
  vm_compute. reflexivity.
Qed.

Lemma second_run_witness :
  exists r,
    run_pipeline (L:=ascii_lib) sample = Ok r
    /\ has_column (saved r) environmental_score_score = false
    /\ run_pipeline (L:=ascii_lib) (saved r)
       = Raise (KeyError environmental_score_score).
Proof.
  eexists. split; [vm_compute; reflexivity|].
  apply (second_run_raises (L:=ascii_lib) sample). vm_compute. reflexivity.
Defined.

Lemma sample_wf : wf sample.
Proof. unfold wf. simpl. repeat constructor. Qed.


Lemma one_median_witness :
  exists df',
    clean_nutritional_columns sample = Ok df'
    /\ In (py "fat_100g") num_cols
    /\ exists s l,
         lookup (py "fat_100g") (columns sample) = Some s /\ floats_of s = Ok l
         /\ lookup (py "fat_100g") (columns df')
            = Some (FloatSeries F32
                      (List.map
                         (fun x => float_cast F32
                            (if in_range x then x
                             else median_of (width_of s) (filter in_range l))) l)).
Proof.
  eexists. split; [vm_compute; reflexivity|].
  split; [simpl; tauto|].
  apply (one_median_of_valid_cells sample _ (py "fat_100g"));
    [vm_compute; reflexivity | simpl; tauto].
Defined.

Lemma drops_or_raises_witness :
  (exists df',
      clean_nutriscore (L:=ascii_lib) grades_table = Ok df'
      /\ has_column grades_table environmental_score_score = true
      /\ has_column df' environmental_score_score = false)
  /\ has_column countries_table environmental_score_score = false
  /\ exists e, clean_nutriscore (L:=ascii_lib) countries_table = Raise e.
Proof.
  split.
  - eexists. split; [vm_compute; reflexivity|].
    apply (proj1 (clean_nutriscore_drops_or_raises (L:=ascii_lib) grades_table)).
    vm_compute. reflexivity.
  - split; [reflexivity|].
    apply (proj2 (clean_nutriscore_drops_or_raises (L:=ascii_lib) countries_table)).
    reflexivity.
Defined.

Lemma countries_mapping_witness :
  exists df',
    clean_countries (L:=ascii_lib) countries_table = Ok df'
    /\ cell df' countries 0 = Some (txt "France")
    /\ cell df' countries 1 = Some (txt "United States")
    /\ cell df' countries 2 = Some (txt "Xyzland").
Proof.
  eexists. split; [vm_compute; reflexivity|].
  assert (Hrun : clean_countries (L:=ascii_lib) countries_table
                 = Ok {| nrows := 3;
                         columns := [ (countries,
                                       ObjSeries [txt "France";
                                                  txt "United States";
                                                  txt "Xyzland"]) ] |})
    by (vm_compute; reflexivity).
  pose proof (countries_mapping (L:=ascii_lib) _ _ 0 Hrun) as (H0 & _).
  pose proof (countries_mapping (L:=ascii_lib) _ _ 1 Hrun) as (_ & H1 & _).
  pose proof (countries_mapping (L:=ascii_lib) _ _ 2 Hrun) as (_ & _ & H2 & _).
  split; [apply H0; reflexivity|].
  split; [apply H1; reflexivity|apply H2; reflexivity].
Defined.

Lemma nutriscore_mapping_witness :
  exists df',
    clean_nutriscore (L:=ascii_lib) grades_table = Ok df'
    /\ cell df' nutriscore_numeric 0 = Some (num 1)
    /\ cell df' nutriscore_numeric 1 = Some (num 0)
    /\ cell df' nutriscore_numeric 2 = Some (num 0).
Proof.
  eexists. split; [vm_compute; reflexivity|].
  split; [|split].
  - refine (proj1 (proj2 (nutriscore_mapping (L:=ascii_lib) grades_table _ 0 _)) _);
      [vm_compute; reflexivity|reflexivity].
  - refine (proj1 (proj2 (proj2
              (nutriscore_mapping (L:=ascii_lib) grades_table _ 1 _))) _);
      [vm_compute; reflexivity|reflexivity].
  - refine (proj2 (proj2 (proj2
              (nutriscore_mapping (L:=ascii_lib) grades_table _ 2 _))) _);
      [vm_compute; reflexivity|reflexivity].
Defined.

(** The NOVA group 5 gets no label at all, not the label "Unknown". *)
Lemma nova_unlisted_not_Unknown :
  exists df',
    clean_nova_group nova_five = Ok df'
    /\ cell nova_five nova_group 0 = Some (num 5)
    /\ cell df' nova_group_label 0 = Some NA
    /\ cell df' nova_group_label 0 <> Some Unknown.
Proof.
  eexists. split; [vm_compute; reflexivity|].
  split; [reflexivity|]. split; [reflexivity|]. discriminate.
Qed.

Lemma nova_mapping_witness :
  has_column sample nova_group = true
  /\ (exists df',
       clean_nova_group sample = Ok df'
       /\ cell df' nova_group_label 0 = Some (txt "Ultra-Processed Foods")
       /\ cell df' nova_group_label 1
          = Some (txt "Unprocessed or Minimally Processed")
       /\ cell df' nova_group_label 2 = Some Unknown
       /\ cell df' nova_group_label 3 = Some NA)
  /\ has_column nova_text nova_group = true
  /\ exists df',
       clean_nova_group nova_text = Ok df'
       /\ cell df' nova_group_label 0 = Some Unknown
       /\ cell df' nova_group_label 1 = Some NA.
Proof.
  split; [reflexivity|]. split; [|split; [reflexivity|]].
  - destruct (nova_mapping sample eq_refl) as (df' & Hrun & Hcells).
    exists df'. split; [exact Hrun|].
    split; [|split; [|split]].
    + apply (proj1 (proj2 (Hcells 0%nat)) 4%Q); reflexivity.
    + apply (proj1 (Hcells 1%nat) 1%Q); reflexivity.
    + apply (proj1 (proj2 (proj2 (Hcells 2%nat)))); reflexivity.
    + apply (proj1 (proj2 (proj2 (proj2 (Hcells 3%nat)))) (fl 5 1));
        reflexivity.
  - destruct (nova_mapping nova_text eq_refl) as (df' & Hrun & Hcells).
    exists df'. split; [exact Hrun|]. split.
    + apply (proj1 (proj2 (proj2 (proj2 (proj2 (Hcells 0%nat))))));
        reflexivity.
    + apply (proj2 (proj2 (proj2 (proj2 (proj2 (Hcells 1%nat))))) (py "n/a"));
        [reflexivity|discriminate].
Defined.

Lemma reporter_witness :
  nth_error (InPlace.heap sample_world) 0 = Some (InPlace.Frame sample)
  /\ (exists w',
        InPlace.show_cleaning_summary (L:=ascii_lib) 0%nat (5%nat, 18%nat)
          sample_world = Ok (0%nat, w')
        /\ nth_error (InPlace.heap w') 0 = Some (InPlace.Frame sample)
        /\ InPlace.csv w' = Some sample
        /\ List.length (InPlace.stdout w') = 21%nat)
  /\ exists r,
       run_pipeline (L:=ascii_lib) sample = Ok r
       /\ show_cleaning_summary (L:=ascii_lib) (saved r)
            (shape (drop_duplicates sample))
          = (console r, saved r)
       /\ snd (show_cleaning_summary (L:=ascii_lib) sample (5%nat, 18%nat))
          = sample.
Proof.
  split; [reflexivity|]. split.
  - destruct (proj1 (show_cleaning_summary_observes (L:=ascii_lib))
                sample_world 0%nat sample (5%nat, 18%nat) eq_refl)
      as (w' & Hrun & _ & Hdf & Hcsv & Hout & _).
    exists w'. split; [exact Hrun|]. split; [exact Hdf|].
    split; [exact Hcsv|]. rewrite Hout. reflexivity.
  - eexists. split; [vm_compute; reflexivity|].
    split.
    + apply (proj2 (proj2 (show_cleaning_summary_observes (L:=ascii_lib)))
               sample).
      vm_compute. reflexivity.
    + apply (proj1 (proj2 (show_cleaning_summary_observes (L:=ascii_lib)))).
Defined.

(** A stage, unlike the reporter, changes the table behind the reference
    it is given. *)
Example nova_stage_writes :
  exists w',
    InPlace.clean_nova_group 0%nat sample_world = Ok (0%nat, w')
    /\ nth_error (InPlace.heap w') 0 <> Some (InPlace.Frame sample)
    /\ InPlace.csv w' = Some sample.
Proof.
  eexists. split; [vm_compute; reflexivity|]. split; [|reflexivity].
  intros H.
  apply (f_equal (fun o => match o with
                           | Some (InPlace.Frame d) => List.length (columns d)
                           | _ => 0%nat
                           end)) in H.
  vm_compute in H. discriminate H.
Qed.

Lemma xxx_dropped_witness :
  exists df',
    clean_product_name (L:=ascii_lib) sample = Ok df'
    /\ cell sample product_name 1 = Some (txt "xXx")
    /\ nth_error (xxx_mask (L:=ascii_lib) sample) 1 = Some false
    /\ cell sample product_name 2 = Some NA
    /\ nth_error (xxx_mask (L:=ascii_lib) sample) 2 = Some true
    /\ cell df' product_name 1 = Some Unknown
    /\ nrows df' = 4%nat.
Proof.
  eexists. split; [vm_compute; reflexivity|].
  assert (Hrun : exists d, clean_product_name (L:=ascii_lib) sample = Ok d)
    by (eexists; vm_compute; reflexivity).
  destruct Hrun as (d & Hrun).
  destruct (xxx_dropped_missing_kept (L:=ascii_lib) sample d Hrun)
    as (_ & _ & Hx & Hm & _).
  split; [reflexivity|]. split; [apply (Hx 1%nat (py "xXx")); reflexivity|].
  split; [reflexivity|]. split; [apply (Hm 2%nat); reflexivity|].
  split; reflexivity.
Defined.

(** The product-name stage does not return on every table: when no
    product name is known the [.str] accessor is refused, and no row ends
    with the name "Unknown". *)
Lemma missing_names_not_filled :
  cell no_names product_name 0 = Some NA
  /\ cell no_names product_name 1 = Some NA
  /\ forall L : PyLib,
       clean_product_name (L:=L) no_names = Raise AttributeError.
Proof. split; [reflexivity|]. split; reflexivity. Qed.

(** * Further properties of the stages *)

(** ** The columns a run needs and the columns it leaves *)

Lemma has_column_names df c : has_column df c = true <-> In c (names df).
Proof.
  unfold has_column, names. induction (columns df) as [|[n s] cols IH]; simpl.
  - split; [discriminate|tauto].
  - destruct (pystr_eqb n c) eqn:E.
    + apply pystr_eqb_eq in E. split; auto.
    + rewrite IH. split; [auto|]. intros [->|H]; [|exact H].
      now rewrite pystr_eqb_refl in E.
Qed.

Lemma has_column_has_name df c : has_column df c = has_name (names df) c.
Proof.
  unfold has_column, has_name, names.
  induction (columns df) as [|[n s] cols IH]; simpl; [reflexivity|].
  destruct (pystr_eqb n c) eqn:E.
  - apply pystr_eqb_eq in E. subst. now rewrite pystr_eqb_refl.
  - rewrite pystr_eqb_neq; [exact IH|].
    intros ->. now rewrite pystr_eqb_refl in E.
Qed.

Lemma assign_names name s cols :
  List.map fst (assign name s cols)
  = match lookup name cols with
    | Some _ => List.map fst cols
    | None => List.map fst cols ++ [name]
    end.
Proof.
  induction cols as [|[n s0] cols IH]; simpl; [reflexivity|].
  destruct (pystr_eqb n name); simpl; [reflexivity|].
  rewrite IH. now destruct (lookup name cols).
Qed.

Lemma setitem_names df name s :
  names (setitem df name s) = with_column name (names df).
Proof.
  unfold with_column. rewrite <- has_column_has_name.
  unfold names, has_column. simpl. rewrite assign_names.
  now destruct (lookup name (columns df)).
Qed.

Lemma update_names name f df df' :
  update name f df = Ok df' -> In name (names df) /\ names df' = names df.
Proof.
  intros H. apply update_ok in H. destruct H as (s & s' & Hs & _ & ->).
  assert (Hc : has_column df name = true) by (unfold has_column; now rewrite Hs).
  split; [now apply has_column_names|].
  rewrite setitem_names. unfold with_column.
  now rewrite <- has_column_has_name, Hc.
Qed.

Lemma select_rows_names mask df : names (select_rows mask df) = names df.
Proof.
  unfold names, select_rows. simpl. rewrite map_map.
  apply map_ext. now intros [n s].
Qed.

Lemma drop_duplicates_names df : names (drop_duplicates df) = names df.
Proof.
  unfold drop_duplicates. destruct (df_empty df); [reflexivity|].
  apply select_rows_names.
Qed.

Lemma filter_names name (cols : list (pystr * Series)) :
  List.map fst (filter (fun c => negb (pystr_eqb (fst c) name)) cols)
  = without name (List.map fst cols).
Proof.
  unfold without. induction cols as [|[n s] cols IH]; simpl; [reflexivity|].
  destruct (pystr_eqb n name); simpl; now rewrite IH.
Qed.

Lemma drop_column_names df name df' :
  drop_column df name = Ok df' ->
  In name (names df) /\ names df' = without name (names df).
Proof.
  intros H. apply drop_column_ok in H. destruct H as (Hc & _ & Hcols).
  split; [now apply has_column_names|].
  unfold names. rewrite Hcols. apply filter_names.
Qed.

Lemma getitem_names df name s : getitem df name = Ok s -> In name (names df).
Proof.
  intros H. apply getitem_ok in H. apply has_column_names.
  unfold has_column. now rewrite H.
Qed.

(** Steps of a stage, read for the labels only. *)
Ltac name_steps H :=
  repeat (match type of H with
          | bind (update _ _ _) _ = Ok _ =>
              let d := fresh "d" in
              let H1 := fresh "Hu" in
              let Hin := fresh "Hin" in
              let Hn := fresh "Hn" in
              apply bind_ok in H; destruct H as (d & H1 & H);
              apply update_names in H1; destruct H1 as (Hin & Hn)
          | update _ _ _ = Ok _ =>
              let Hin := fresh "Hin" in
              let Hn := fresh "Hn" in
              apply update_names in H; destruct H as (Hin & Hn)
          end).

Section Labels.
Context {L : PyLib}.

Lemma clean_product_name_names df df' :
  clean_product_name df = Ok df' ->
  In product_name (names df) /\ names df' = names df.
Proof.
  unfold clean_product_name. intros H. name_steps H.
  inv_bind H. name_steps H. rewrite select_rows_names in *.
  split; congruence.
Qed.

Lemma clean_brands_names df df' :
  clean_brands df = Ok df' -> In brands (names df) /\ names df' = names df.
Proof. unfold clean_brands. intros H. name_steps H. split; congruence. Qed.

Lemma clean_categories_names df df' :
  clean_categories df = Ok df' ->
  In categories (names df)
  /\ names df' = with_column categories_top (names df).
Proof.
  unfold clean_categories. intros H. name_steps H.
  do 3 inv_bind H. inversion H. subst df'. split; [congruence|].
  rewrite setitem_names. congruence.
Qed.

Lemma clean_countries_names df df' :
  clean_countries df = Ok df' -> In countries (names df) /\ names df' = names df.
Proof. unfold clean_countries. intros H. name_steps H. split; congruence. Qed.

Lemma clean_ingredients_labels_packaging_names df df' :
  clean_ingredients_labels_packaging df = Ok df' ->
  In ingredients_text (names df) /\ In labels (names df)
  /\ In packaging (names df) /\ names df' = names df.
Proof.
  unfold clean_ingredients_labels_packaging. intros H. name_steps H.
  repeat split; congruence.
Qed.

Lemma clean_nutriscore_names df df' :
  clean_nutriscore df = Ok df' ->
  In nutriscore_grade (names df) /\ In environmental_score_score (names df)
  /\ names df'
     = without environmental_score_score
         (with_column nutriscore_numeric (names df)).
Proof.
  unfold clean_nutriscore. intros H. name_steps H. inv_bind H.
  apply drop_column_names in H. destruct H as (He & Hn').
  rewrite setitem_names, Hn in He, Hn'.
  split; [congruence|]. split; [|exact Hn'].
  unfold with_column in He.
  destruct (has_name (names df) nutriscore_numeric); [exact He|].
  apply in_app_or in He. destruct He as [He|[He|[]]]; [exact He|discriminate].
Qed.

Lemma clean_nova_group_names df df' :
  clean_nova_group df = Ok df' ->
  In nova_group (names df)
  /\ names df' = with_column nova_group_label (names df).
Proof.
  unfold clean_nova_group. intros H. name_steps H. inv_bind H.
  inversion H. subst df'. split; [congruence|].
  rewrite setitem_names. congruence.
Qed.

Lemma for_each_names cols df df' :
  for_each cols df = Ok df' ->
  (forall c, In c cols -> In c (names df)) /\ names df' = names df.
Proof.
  revert df. induction cols as [|c cols IH]; intros df H; simpl in H.
  - inversion H. split; [intros c []|reflexivity].
  - inv_bind H. destruct (IH _ H) as (Hin & Hn).
    unfold clean_numeric_column in Hstep. name_steps Hstep.
    split; [|congruence].
    intros c' [<-|Hc]; [congruence|].
    specialize (Hin _ Hc). congruence.
Qed.

End Labels.

Lemma in_with_column c x l : In c (with_column x l) -> c <> x -> In c l.
Proof.
  unfold with_column. destruct (has_name l x); [auto|].
  intros H Hne. apply in_app_or in H.
  destruct H as [H|[H|[]]]; [exact H|congruence].
Qed.

Lemma in_without c name l : In c (without name l) -> In c l.
Proof. unfold without. intros H. now apply filter_In in H. Qed.

Lemma has_name_app l l' c : has_name (l ++ l') c = has_name l c || has_name l' c.
Proof. unfold has_name. apply existsb_app. Qed.

Lemma has_name_without l name c :
  has_name l c = false -> has_name (without name l) c = false.
Proof.
  unfold has_name, without. induction l as [|x l IH]; simpl; [reflexivity|].
  intros H. apply orb_false_iff in H. destruct H as [Hx Hl].
  destruct (negb (pystr_eqb x name)); simpl; [rewrite Hx|]; auto.
Qed.

Lemma without_app name l l' :
  without name (l ++ l') = without name l ++ without name l'.
Proof. unfold without. apply filter_app. Qed.

Section Schema.
Context {L : PyLib}.

(** The labels along a run. *)
Lemma run_names raw r :
  run_pipeline raw = Ok r ->
  names (saved r) = saved_labels (names raw)
  /\ (forall c, In c [product_name; brands; categories] -> In c (names raw))
  /\ (forall c, In c [countries; ingredients_text; labels; packaging;
                     nutriscore_grade; environmental_score_score] ->
        In c (with_column categories_top (names raw)))
  /\ In nova_group
       (without environmental_score_score
          (with_column nutriscore_numeric
             (with_column categories_top (names raw))))
  /\ (forall c, In c num_cols -> In c (saved_labels (names raw))).
Proof.
  unfold run_pipeline. intros H.
  repeat (match type of H with bind _ _ = Ok _ => inv_bind H end).
  inversion H. subst r. clear H. cbn [saved].
  apply clean_product_name_names in Hstep. destruct Hstep as (I1 & N1).
  apply clean_brands_names in Hstep0. destruct Hstep0 as (I2 & N2).
  apply clean_categories_names in Hstep1. destruct Hstep1 as (I3 & N3).
  apply clean_countries_names in Hstep2. destruct Hstep2 as (I4 & N4).
  apply clean_ingredients_labels_packaging_names in Hstep3.
  destruct Hstep3 as (I5 & I6 & I7 & N5).
  apply clean_nutriscore_names in Hstep4. destruct Hstep4 as (I8 & I9 & N6).
  apply clean_nova_group_names in Hstep5. destruct Hstep5 as (I10 & N7).
  apply for_each_names in Hstep6. destruct Hstep6 as (I11 & N8).
  rewrite drop_duplicates_names in *.
  assert (H0 : names x0 = names raw) by congruence.
  rewrite H0 in N3, I3. rewrite N1 in I2.
  assert (H3 : names x3 = names x1) by congruence.
  rewrite H3, N3 in N6, I8, I9. rewrite N3 in I4. rewrite N4, N3 in I5, I6, I7.
  rewrite N6 in N7, I10. rewrite N7 in N8, I11.
  split; [exact N8|]. split; [|split; [|split; [exact I10|exact I11]]].
  - intros c [<-|[<-|[<-|[]]]]; assumption.
  - intros c [<-|[<-|[<-|[<-|[<-|[<-|[]]]]]]]; assumption.
Qed.

Lemma run_expected raw r :
  run_pipeline raw = Ok r ->
  Forall (fun c => has_column raw c = true) expected_columns.
Proof.
  intros H. destruct (run_names _ _ H) as (_ & Ha & Hb & Hc & Hd).
  apply Forall_forall. intros c Hin. apply has_column_names.
  unfold expected_columns in Hin. apply in_app_or in Hin.
  destruct Hin as [Hin|Hin].
  - simpl in Hin.
    destruct Hin as [<-|[<-|[<-|Hin]]]; try (apply Ha; simpl; tauto).
    destruct Hin as [Hin|[Hin|[Hin|[Hin|[Hin|[Hin|[Hin|[]]]]]]]];
      try (subst c; eapply in_with_column; [apply Hb; simpl; tauto|discriminate]).
    subst c. apply in_without in Hc.
    apply in_with_column in Hc; [|discriminate].
    now apply in_with_column in Hc.
  - pose proof (Hd _ Hin) as Hs. unfold saved_labels in Hs.
    assert (Hne : c <> nova_group_label /\ c <> nutriscore_numeric
                  /\ c <> categories_top).
    { simpl in Hin.
      repeat (destruct Hin as [<-|Hin]; [repeat split; discriminate|]).
      destruct Hin. }
    destruct Hne as (Hx & Hy & Hz).
    apply in_with_column in Hs; [|exact Hx]. apply in_without in Hs.
    apply in_with_column in Hs; [|exact Hy].
    now apply in_with_column in Hs.
Qed.

(** X1: a run returns only for a table that has all eighteen columns the
    stages read; when one of them is absent the run raises. *)
Theorem run_needs_expected_columns (raw : DataFrame) :
  (forall r, run_pipeline raw = Ok r ->
     Forall (fun c => has_column raw c = true) expected_columns)
  /\ (forall c, In c expected_columns -> has_column raw c = false ->
      exists e, run_pipeline raw = Raise e).
Proof.
  split; [apply run_expected|].
  intros c Hin Habs. destruct (run_pipeline raw) as [r|e] eqn:E; [|eauto].
  pose proof (run_expected _ _ E) as Hall. rewrite Forall_forall in Hall.
  rewrite (Hall c Hin) in Habs. discriminate.
Qed.

Lemma saved_labels_standard l :
  (forall c, In c derived_columns -> has_name l c = false) ->
  saved_labels l = without environmental_score_score l ++ derived_columns.
Proof.
  intros Hd.
  assert (H1 : has_name l categories_top = false) by (apply Hd; simpl; tauto).
  assert (H2 : has_name l nutriscore_numeric = false) by (apply Hd; simpl; tauto).
  assert (H3 : has_name l nova_group_label = false) by (apply Hd; simpl; tauto).
  unfold saved_labels, with_column at 3. rewrite H1.
  unfold with_column at 2. rewrite has_name_app, H2. cbn [orb has_name existsb].
  replace (pystr_eqb nutriscore_numeric categories_top) with false by reflexivity.
  cbn [orb]. rewrite !without_app.
  unfold with_column. rewrite !has_name_app, (has_name_without _ _ _ H3).
  replace (without environmental_score_score [categories_top])
    with [categories_top] by reflexivity.
  replace (without environmental_score_score [nutriscore_numeric])
    with [nutriscore_numeric] by reflexivity.
  replace (has_name [categories_top] nova_group_label) with false by reflexivity.
  replace (has_name [nutriscore_numeric] nova_group_label) with false
    by reflexivity.
  cbn [orb]. now rewrite <- !app_assoc.
Qed.

(** X2: the saved table has the columns of the table that was read, in
    their order, without [environmental_score_score], and the derived
    columns; a derived column that the input already had keeps its
    place.  For an input without the three derived columns these come
    last, in the order in which the stages add them. *)
Theorem saved_schema (raw : DataFrame) (r : pipeline_run) :
  run_pipeline raw = Ok r ->
  names (saved r) = saved_labels (names raw)
  /\ ((forall c, In c derived_columns -> has_column raw c = false) ->
      names (saved r)
      = without environmental_score_score (names raw) ++ derived_columns).
Proof.
  intros H. destruct (run_names _ _ H) as (Hn & _).
  split; [exact Hn|]. intros Hd. rewrite Hn.
  apply saved_labels_standard. intros c Hc.
  rewrite <- has_column_has_name. now apply Hd.
Qed.

End Schema.

(** ** A stage on a table without its column *)

Lemma update_key_error name f df :
  has_column df name = false -> update name f df = Raise (KeyError name).
Proof.
  unfold has_column, update, getitem.
  now destruct (lookup name (columns df)).
Qed.

(** X3: a stage that does not find the column it reads first raises
    [KeyError] with the label of that column, and so does a run on a table
    without [product_name]. *)
Theorem stage_key_errors {L : PyLib} (df : DataFrame) :
  (has_column df product_name = false ->
   clean_product_name df = Raise (KeyError product_name)
   /\ run_pipeline df = Raise (KeyError product_name))
  /\ (has_column df brands = false ->
      clean_brands df = Raise (KeyError brands))
  /\ (has_column df categories = false ->
      clean_categories df = Raise (KeyError categories))
  /\ (has_column df countries = false ->
      clean_countries df = Raise (KeyError countries))
  /\ (has_column df ingredients_text = false ->
      clean_ingredients_labels_packaging df = Raise (KeyError ingredients_text))
  /\ (has_column df nutriscore_grade = false ->
      clean_nutriscore df = Raise (KeyError nutriscore_grade))
  /\ (has_column df nova_group = false ->
      clean_nova_group df = Raise (KeyError nova_group))
  /\ (has_column df (py "energy-kcal_100g") = false ->
      clean_nutritional_columns df = Raise (KeyError (py "energy-kcal_100g"))).
Proof.
  repeat match goal with |- _ /\ _ => split end; intros H.
  - split.
    + unfold clean_product_name. now rewrite (update_key_error _ _ _ H).
    + unfold run_pipeline, clean_product_name.
      rewrite (update_key_error _ _ (drop_duplicates df)); [reflexivity|].
      rewrite has_column_has_name, drop_duplicates_names, <- has_column_has_name.
      exact H.
  - unfold clean_brands. now rewrite (update_key_error _ _ _ H).
  - unfold clean_categories. now rewrite (update_key_error _ _ _ H).
  - unfold clean_countries. now rewrite (update_key_error _ _ _ H).
  - unfold clean_ingredients_labels_packaging.
    now rewrite (update_key_error _ _ _ H).
  - unfold clean_nutriscore. now rewrite (update_key_error _ _ _ H).
  - unfold clean_nova_group. now rewrite (update_key_error _ _ _ H).
  - unfold clean_nutritional_columns. cbn [num_cols for_each].
    unfold clean_numeric_column. now rewrite (update_key_error _ _ _ H).
Qed.

(** ** The printed summary *)

Lemma insert_desc_perm c l : Permutation (insert_desc c l) (c :: l).
Proof.
  induction l as [|d l IH]; simpl; [reflexivity|].
  destruct (snd d <=? snd c)%nat; [reflexivity|].
  rewrite IH. apply perm_swap.
Qed.

Lemma falling_cons a b l :
  falling (a :: b :: l) = (snd b <=? snd a)%nat && falling (b :: l).
Proof. reflexivity. Qed.

Lemma falling_tail a l : falling (a :: l) = true -> falling l = true.
Proof.
  destruct l as [|b l]; [reflexivity|]. rewrite falling_cons.
  intros H. now apply andb_true_iff in H.
Qed.

Lemma insert_desc_falling c l : falling l = true -> falling (insert_desc c l) = true.
Proof.
  induction l as [|d l IH]; [reflexivity|].
  intros H. cbn [insert_desc]. destruct (snd d <=? snd c)%nat eqn:E.
  - rewrite falling_cons, E. exact H.
  - apply Nat.leb_gt in E. specialize (IH (falling_tail _ _ H)).
    destruct l as [|e l].
    + cbn [insert_desc]. rewrite falling_cons. apply andb_true_iff.
      split; [apply Nat.leb_le; lia|reflexivity].
    + rewrite falling_cons in H. apply andb_true_iff in H. destruct H as [Hed _].
      cbn [insert_desc] in *. destruct (snd e <=? snd c)%nat eqn:E2.
      * rewrite falling_cons. apply andb_true_iff.
        split; [apply Nat.leb_le; lia|exact IH].
      * rewrite falling_cons. apply andb_true_iff. split; [exact Hed|exact IH].
Qed.

(** Sorting by insertion is one way to sort. *)
Lemma insertion_sorts : sorts_falling ascii_lib.
Proof.
  intros l. cbn [pd_sort_desc ascii_lib].
  induction l as [|c l [IHp IHf]]; simpl; [split; [constructor|reflexivity]|].
  split.
  - rewrite insert_desc_perm. now constructor.
  - now apply insert_desc_falling.
Qed.

Lemma remaining_missing_falling {L : PyLib} df :
  sorts_falling L -> falling (remaining_missing df) = true.
Proof. intros H. apply H. Qed.

Lemma remaining_missing_perm {L : PyLib} df :
  sorts_falling L ->
  Permutation (remaining_missing df)
    (filter (fun c => (0 <? snd c)%nat) (missing_counts df)).
Proof. intros H. apply H. Qed.

Lemma falling_firstn n l : falling l = true -> falling (firstn n l) = true.
Proof.
  revert l. induction n as [|n IH]; intros l H; [reflexivity|].
  destruct l as [|a l]; [reflexivity|].
  specialize (IH _ (falling_tail _ _ H)).
  destruct l as [|b l]; [now destruct n|].
  destruct n as [|n]; [reflexivity|].
  rewrite falling_cons in H. apply andb_true_iff in H. destruct H as [Hab _].
  change (firstn (S (S n)) (a :: b :: l)) with (a :: firstn (S n) (b :: l)).
  change (firstn (S n) (b :: l)) with (b :: firstn n l) in *.
  rewrite falling_cons, Hab. exact IH.
Qed.

Lemma in_firstn {A} n (l : list A) a : In a (firstn n l) -> In a l.
Proof.
  intros H. rewrite <- (firstn_skipn n l). apply in_or_app. now left.
Qed.

(** A count later in a falling list is not above an earlier one. *)
Lemma falling_head a l b :
  falling (a :: l) = true -> In b l -> (snd b <= snd a)%nat.
Proof.
  revert a. induction l as [|c l IH]; intros a H Hin; [destruct Hin|].
  rewrite falling_cons in H. apply andb_true_iff in H. destruct H as [Hca Ht].
  apply Nat.leb_le in Hca. destruct Hin as [->|Hin]; [exact Hca|].
  specialize (IH _ Ht Hin). lia.
Qed.

Lemma falling_split l1 l2 a b :
  falling (l1 ++ l2) = true -> In a l1 -> In b l2 -> (snd b <= snd a)%nat.
Proof.
  induction l1 as [|c l1 IH]; intros H Ha Hb; [destruct Ha|].
  destruct Ha as [->|Ha].
  - apply (falling_head a (l1 ++ l2)); [exact H|]. apply in_or_app. now right.
  - apply IH; auto. now apply (falling_tail c).
Qed.

(** X4: whatever the sorting routine does with equal counts, as long as
    it returns the counts it was given in falling order: the table of
    remaining missing values is the head of the sorted counts; it lists
    columns that do have missing cells, with their true counts, at most
    ten of them, in falling order of the count, and no column that is left
    out has more missing cells than a listed one; the line "No missing
    values left!" is printed exactly when no column has a missing cell.
    Which of the columns with equal counts come first, and which of them
    are listed when there are more than ten, is the routine's choice. *)
Theorem missing_value_report {L : PyLib} (df : DataFrame)
    (original_shape : nat * nat) :
  sorts_falling L ->
  let out := fst (show_cleaning_summary df original_shape) in
  (forall counts, In (MissingTable counts) out ->
     counts = firstn 10 (remaining_missing df)
     /\ (List.length counts <= 10)%nat
     /\ falling counts = true
     /\ (forall c, In c counts ->
           (0 < snd c)%nat /\ In c (missing_counts df))
     /\ (forall c d, In c counts -> In d (skipn 10 (remaining_missing df)) ->
           (snd d <= snd c)%nat))
  /\ Permutation (remaining_missing df)
       (filter (fun c => (0 <? snd c)%nat) (missing_counts df))
  /\ (In (Text "No missing values left!") out <->
      forall c, In c (missing_counts df) -> snd c = 0%nat).
Proof.
  intros Hs. cbn zeta. unfold show_cleaning_summary. cbn [fst].
  set (missing := remaining_missing df).
  remember (firstn 10 missing) as top eqn:Etop.
  assert (Hperm := remaining_missing_perm df Hs). fold missing in Hperm.
  assert (Hfall := remaining_missing_falling df Hs). fold missing in Hfall.
  split; [|split; [exact Hperm|]].
  - intros counts Hin. apply in_app_or in Hin. destruct Hin as [Hin|Hin].
    { simpl in Hin. repeat (destruct Hin as [Hin|Hin]; [discriminate|]).
      destruct Hin. }
    apply in_app_or in Hin. destruct Hin as [Hin|Hin].
    2: { simpl in Hin. destruct Hin as [Hin|[]]. discriminate. }
    destruct missing as [|m0 ms] eqn:Em.
    { simpl in Hin. destruct Hin as [Hin|[]]. discriminate. }
    rewrite <- Em in *. cbn [In] in Hin.
    destruct Hin as [Hin|[Hin|[]]]; [discriminate|].
    inversion Hin. subst counts. clear Hin. subst top.
    split; [reflexivity|]. split; [apply firstn_le_length|].
    split; [now apply falling_firstn|]. split.
    + intros c Hc. apply in_firstn in Hc.
      apply (Permutation_in _ Hperm) in Hc. apply filter_In in Hc.
      destruct Hc as [Hc Hp]. apply Nat.ltb_lt in Hp. auto.
    + intros c d Hc Hd. apply (falling_split (firstn 10 missing) (skipn 10 missing));
        [now rewrite firstn_skipn|exact Hc|exact Hd].
  - split.
    + intros Hin c Hc. apply in_app_or in Hin. destruct Hin as [Hin|Hin].
      { simpl in Hin. repeat (destruct Hin as [Hin|Hin]; [discriminate|]).
        destruct Hin. }
      apply in_app_or in Hin. destruct Hin as [Hin|Hin].
      2: { simpl in Hin. destruct Hin as [Hin|[]]. discriminate. }
      destruct missing as [|m0 ms] eqn:Em.
      * destruct (snd c) eqn:En; [reflexivity|].
        assert (Hf : In c (filter (fun c => (0 <? snd c)%nat) (missing_counts df))).
        { apply filter_In. split; [exact Hc|]. now rewrite En. }
        apply (Permutation_in _ (Permutation_sym Hperm)) in Hf. destruct Hf.
      * simpl in Hin. destruct Hin as [Hin|[Hin|[]]]; discriminate.
    + intros Hall. apply in_or_app. right. apply in_or_app. left.
      destruct missing as [|m0 ms] eqn:Em; [now left|].
      assert (Hm : In m0 (filter (fun c => (0 <? snd c)%nat) (missing_counts df))).
      { apply (Permutation_in _ Hperm). now left. }
      apply filter_In in Hm. destruct Hm as [Hm Hp].
      rewrite (Hall _ Hm) in Hp. discriminate.
Qed.

Lemma without_length x l :
  NoDup l -> In x l -> S (List.length (without x l)) = List.length l.
Proof.
  unfold without. induction 1 as [|y l Hy Hnd IH]; intros Hin; [destruct Hin|].
  simpl. destruct (pystr_eqb y x) eqn:E; simpl.
  - apply pystr_eqb_eq in E. subst y. f_equal.
    clear IH Hin Hnd. induction l as [|z l IH]; [reflexivity|].
    simpl. rewrite pystr_eqb_neq.
    + simpl. f_equal. apply IH. intros H. apply Hy. now right.
    + intros ->. apply Hy. now left.
  - f_equal. apply IH. destruct Hin as [->|Hin]; [|exact Hin].
    now rewrite pystr_eqb_refl in E.
Qed.

Section Summary.
Context {L : PyLib}.

Lemma run_console raw r :
  run_pipeline raw = Ok r ->
  console r = fst (show_cleaning_summary (saved r) (shape (drop_duplicates raw))).
Proof.
  unfold run_pipeline. intros H.
  repeat (match type of H with bind _ _ = Ok _ => inv_bind H end).
  inversion H. reflexivity.
Qed.

Lemma run_rows raw r :
  wf raw -> run_pipeline raw = Ok r ->
  (nrows (saved r) + xxx_rows (drop_duplicates raw)
   = nrows (drop_duplicates raw))%nat.
Proof.
  unfold run_pipeline. intros Hwf H.
  repeat (match type of H with bind _ _ = Ok _ => inv_bind H end).
  inversion H. subst r. clear H. cbn [saved].
  apply clean_product_name_nrows in Hstep; [|now apply drop_duplicates_wf].
  apply clean_brands_nrows in Hstep0.
  apply clean_categories_nrows in Hstep1.
  apply clean_countries_nrows in Hstep2.
  apply clean_ingredients_labels_packaging_nrows in Hstep3.
  apply clean_nutriscore_nrows in Hstep4.
  apply clean_nova_group_nrows in Hstep5.
  apply clean_nutritional_columns_nrows in Hstep6. lia.
Qed.

Lemma count_line_in label n df sh :
  In (CountLine label n) (fst (show_cleaning_summary df sh)) ->
  (label = "Rows Removed         : "%string
   /\ n = (Z.of_nat (fst sh) - Z.of_nat (nrows df))%Z)
  \/ (label = "Columns Removed      : "%string
      /\ n = (Z.of_nat (snd sh) - Z.of_nat (List.length (columns df)))%Z).
Proof.
  unfold show_cleaning_summary. cbn [fst].
  remember (firstn 10 (remaining_missing df)) as top.
  intros Hin. apply in_app_or in Hin. destruct Hin as [Hin|Hin].
  - cbn [In] in Hin.
    repeat (destruct Hin as [Hin|Hin];
            [try discriminate Hin; inversion Hin; auto|]).
    destruct Hin.
  - apply in_app_or in Hin. destruct Hin as [Hin|Hin].
    + destruct (remaining_missing df); cbn [In] in Hin;
        repeat (destruct Hin as [Hin|Hin]; [discriminate Hin|]); destruct Hin.
    + cbn [In] in Hin. destruct Hin as [Hin|[]]. discriminate.
Qed.

(** X5: the summary is computed against the shape taken after the
    deduplication.  Its "Rows Removed" is the number of rows that the
    [Xxx] filter removed, without the duplicated rows; its "Columns
    Removed" is the number of labels read minus the number of labels
    saved, which is -2 for a table with distinct labels and none of the
    derived columns: one column dropped, three added. *)
Theorem summary_counts (raw : DataFrame) (r : pipeline_run) :
  wf raw ->
  run_pipeline raw = Ok r ->
  In (CountLine "Rows Removed         : "
        (Z.of_nat (xxx_rows (drop_duplicates raw)))) (console r)
  /\ (forall n, In (CountLine "Rows Removed         : " n) (console r) ->
      n = Z.of_nat (xxx_rows (drop_duplicates raw))
      /\ (n + Z.of_nat (duplicate_rows r)
          = Z.of_nat (nrows raw) - Z.of_nat (nrows (saved r)))%Z)
  /\ (forall n, In (CountLine "Columns Removed      : " n) (console r) ->
      n = (Z.of_nat (List.length (names raw))
           - Z.of_nat (List.length (saved_labels (names raw))))%Z
      /\ (NoDup (names raw) ->
          (forall c, In c derived_columns -> has_column raw c = false) ->
          n = (-2)%Z)).
Proof.
  intros Hwf H. pose proof (run_console _ _ H) as Hc.
  pose proof (run_rows _ _ Hwf H) as Hr.
  assert (Hd : duplicate_rows r = count_true (duplicated raw)).
  { unfold run_pipeline in H.
    repeat (match type of H with bind _ _ = Ok _ => inv_bind H end).
    now inversion H. }
  pose proof (drop_duplicates_nrows raw) as Hdd.
  split; [|split].
  - rewrite Hc. unfold show_cleaning_summary. cbn [fst shape].
    apply in_or_app. left. cbn [In]. do 5 right. left. f_equal. lia.
  - intros n Hin. rewrite Hc in Hin. apply count_line_in in Hin.
    destruct Hin as [[_ ->]|[Hl _]]; [|discriminate Hl].
    cbn [fst shape]. lia.
  - intros n Hin. rewrite Hc in Hin. apply count_line_in in Hin.
    destruct Hin as [[Hl _]|[_ ->]]; [discriminate Hl|].
    cbn [snd shape].
    destruct (run_names _ _ H) as (Hn & _).
    assert (Hl0 : List.length (columns (drop_duplicates raw))
                  = List.length (names raw)).
    { rewrite <- drop_duplicates_names. unfold names. now rewrite length_map. }
    assert (Hl1 : List.length (columns (saved r))
                  = List.length (saved_labels (names raw))).
    { rewrite <- Hn. unfold names. now rewrite length_map. }
    rewrite Hl0, Hl1. split; [reflexivity|].
    intros Hnd Hder.
    rewrite saved_labels_standard, length_app
      by (intros c0 Hc0; rewrite <- has_column_has_name; now apply Hder).
    unfold derived_columns. cbn [List.length].
    assert (He : In environmental_score_score (names raw)).
    { pose proof (run_expected _ _ H) as Hall. rewrite Forall_forall in Hall.
      apply has_column_names. apply Hall. unfold expected_columns.
      apply in_or_app. left. simpl. tauto. }
    pose proof (without_length _ _ Hnd He). lia.
Qed.

End Summary.

(** ** Deduplication *)

Lemma select_all {A} (mask : list bool) (l : list A) :
  forallb (fun b => b) mask = true -> List.length mask = List.length l ->
  select mask l = l.
Proof.
  revert l. induction mask as [|b mask IH]; intros [|a l] Hall Hlen;
    simpl in *; try discriminate; try reflexivity.
  apply andb_true_iff in Hall. destruct Hall as [-> Hall].
  f_equal. apply IH; auto.
Qed.

Lemma select_series_all mask s :
  forallb (fun b => b) mask = true -> List.length mask = series_len s ->
  select_series mask s = s.
Proof.
  unfold series_len. destruct s as [l|w l]; simpl; intros Hall Hlen.
  - now rewrite select_all.
  - rewrite length_map in Hlen. now rewrite select_all.
Qed.

Lemma count_true_all mask :
  forallb (fun b => b) mask = true -> count_true mask = List.length mask.
Proof.
  unfold count_true. induction mask as [|[|] mask IH]; simpl; intros H;
    try discriminate; auto.
Qed.

(** Selecting every row gives the table back. *)
Lemma select_rows_all mask df :
  wf df -> forallb (fun b => b) mask = true -> List.length mask = nrows df ->
  select_rows mask df = df.
Proof.
  intros Hwf Hall Hlen. destruct df as [n cols]. unfold select_rows. simpl in *.
  rewrite (count_true_all _ Hall), Hlen. f_equal.
  unfold wf in Hwf. simpl in Hwf.
  induction Hwf as [|[c s] cols Hs _ IH]; simpl; [reflexivity|].
  rewrite IH. f_equal. f_equal. apply select_series_all; [exact Hall|].
  simpl in Hs. congruence.
Qed.

(** The rows that are kept are not flagged when the kept rows alone are
    looked at, whatever rows were seen before, as long as those were seen
    the first time as well. *)
Lemma kept_rows_not_flagged rs :
  forall seen seen',
    (forall x, In x seen' -> In x seen) ->
    forallb negb
      (dup_flags seen' (select (List.map negb (dup_flags seen rs)) rs)) = true.
Proof.
  induction rs as [|r rs IH]; intros seen seen' Hsub; [reflexivity|].
  cbn [dup_flags List.map select].
  destruct (existsb (row_same r) seen) eqn:E; cbn [negb].
  - apply IH. intros x Hx. right. now apply Hsub.
  - cbn [dup_flags forallb].
    assert (E' : existsb (row_same r) seen' = false).
    { destruct (existsb (row_same r) seen') eqn:E'; [|reflexivity].
      apply existsb_exists in E'. destruct E' as (x & Hx & Hs).
      assert (existsb (row_same r) seen = true)
        by (apply existsb_exists; exists x; auto).
      congruence. }
    rewrite E'. cbn [negb andb].
    apply IH. intros x [<-|Hx]; [now left|right; now apply Hsub].
Qed.

(** The cells that a mask selects, by their positions. *)
Lemma select_positions {A} (d : A) (l : list A) :
  forall mask start,
    List.length mask = List.length l ->
    select mask l
    = List.map (fun i => nth (i - start) l d)
        (select mask (seq start (List.length l))).
Proof.
  induction l as [|a l IH]; intros [|b mask] start Hlen; simpl in *;
    try discriminate; try reflexivity.
  injection Hlen as Hlen.
  assert (Htail : select mask l
                  = List.map (fun i => nth (i - start) (a :: l) d)
                      (select mask (seq (S start) (List.length l)))).
  { rewrite (IH mask (S start) Hlen). apply map_ext_in.
    intros i Hi.
    assert (Hge : (S start <= i)%nat).
    { assert (Hin : In i (seq (S start) (List.length l))).
      { revert Hi. clear. generalize (seq (S start) (List.length l)).
        intros s. revert mask. induction s as [|x s IH]; intros [|[|] mask];
          simpl; try tauto.
        - intros [->|H]; [now left|right; eauto].
        - intros H. right. eauto. }
      apply in_seq in Hin. lia. }
    replace (i - start)%nat with (S (i - S start)) by lia. reflexivity. }
  destruct b; simpl; [|exact Htail].
  rewrite Nat.sub_diag. f_equal. exact Htail.
Qed.

(** The rows of a selection are the selected rows. *)
Lemma rows_select_rows mask df :
  wf df -> List.length mask = nrows df ->
  rows (select_rows mask df) = select mask (rows df).
Proof.
  intros Hwf Hlen. unfold rows. rewrite select_map.
  set (idx := select mask (seq 0 (nrows df))).
  assert (Hk : nrows (select_rows mask df) = List.length idx).
  { unfold idx. simpl. symmetry. apply select_length.
    now rewrite length_seq. }
  rewrite Hk.
  assert (Hrow : forall j, (j < List.length idx)%nat ->
            row_at (select_rows mask df) j = row_at df (nth j idx 0%nat)).
  { intros j Hj. unfold row_at, select_rows. simpl. rewrite map_map.
    apply map_ext_in. intros [c s] Hc. simpl.
    unfold wf in Hwf. rewrite Forall_forall in Hwf.
    pose proof (Hwf _ Hc) as Hs. simpl in Hs. unfold series_len in Hs.
    rewrite values_select_series.
    rewrite (select_positions NA (values s) mask 0) by congruence.
    rewrite Hs. fold idx.
    rewrite (nth_indep _ NA ((fun i => nth (i - 0) (values s) NA) 0%nat))
      by (now rewrite length_map).
    rewrite (map_nth (fun i => nth (i - 0) (values s) NA)).
    now rewrite Nat.sub_0_r. }
  clear Hk.
  transitivity (List.map (fun j => row_at df (nth j idx 0%nat))
                  (seq 0 (List.length idx))).
  - apply map_ext_in. intros j Hj. apply in_seq in Hj. apply Hrow. lia.
  - rewrite <- (map_map (fun j => nth j idx 0%nat) (row_at df)). f_equal.
    clear. induction idx as [|a idx IH]; [reflexivity|].
    simpl. f_equal. rewrite <- seq_shift, map_map. exact IH.
Qed.

Lemma count_true_none flags :
  count_true flags = 0%nat <-> forallb negb flags = true.
Proof.
  unfold count_true. induction flags as [|[|] flags IH]; simpl.
  - tauto.
  - split; discriminate.
  - exact IH.
Qed.

Lemma all_kept flags :
  forallb negb flags = true ->
  forallb (fun b => b) (List.map negb flags) = true.
Proof.
  induction flags as [|[|] flags IH]; simpl; auto.
Qed.

Lemma no_duplicates_unchanged df :
  wf df -> count_true (duplicated df) = 0%nat -> drop_duplicates df = df.
Proof.
  intros Hwf H. unfold drop_duplicates.
  destruct (df_empty df) eqn:E; [reflexivity|].
  apply select_rows_all; [exact Hwf| |].
  - apply all_kept. now apply count_true_none.
  - rewrite length_map. now apply duplicated_length.
Qed.

Lemma drop_duplicates_clean df :
  wf df -> count_true (duplicated (drop_duplicates df)) = 0%nat.
Proof.
  intros Hwf. apply count_true_none. unfold drop_duplicates.
  destruct (df_empty df) eqn:E.
  - unfold duplicated. now rewrite E.
  - unfold duplicated at 1.
    destruct (df_empty (select_rows _ df)); [reflexivity|].
    rewrite rows_select_rows;
      [|exact Hwf|rewrite length_map; now apply duplicated_length].
    unfold duplicated. rewrite E.
    apply kept_rows_not_flagged. auto.
Qed.

(** X6: deduplication reaches a fixed point at once: in the table it
    returns no row is flagged as duplicated, a table without a flagged row
    is returned as it is, and so deduplicating twice is deduplicating
    once. *)
Theorem drop_duplicates_fixed_point (df : DataFrame) :
  wf df ->
  count_true (duplicated (drop_duplicates df)) = 0%nat
  /\ (count_true (duplicated df) = 0%nat -> drop_duplicates df = df)
  /\ drop_duplicates (drop_duplicates df) = drop_duplicates df.
Proof.
  intros Hwf. split; [now apply drop_duplicates_clean|].
  split; [now apply no_duplicates_unchanged|].
  apply no_duplicates_unchanged; [now apply drop_duplicates_wf|].
  now apply drop_duplicates_clean.
Qed.

(** ** Commas *)

Lemma replace_from_cons old new c s :
  replace_from old new 0 (c :: s)
  = match strip_prefix old (c :: s) with
    | Some _ => new ++ replace_from old new (List.length old - 1) s
    | None => c :: replace_from old new 0 s
    end.
Proof. reflexivity. Qed.

Lemma replace_from_skip old new k c s :
  replace_from old new (S k) (c :: s) = replace_from old new k s.
Proof. reflexivity. Qed.

Lemma strip_prefix_comma c s :
  strip_prefix (py ",") (c :: s) = if (c =? COMMA)%N then Some s else None.
Proof.
  change (py ",") with [COMMA]. cbn [strip_prefix].
  rewrite N.eqb_sym. now destruct (c =? COMMA)%N.
Qed.

Lemma strip_prefix_comma_space c s :
  strip_prefix (py ", ") (c :: s)
  = if (c =? COMMA)%N
    then match s with
         | c' :: s' => if (c' =? SPACE)%N then Some s' else None
         | [] => None
         end
    else None.
Proof.
  change (py ", ") with [COMMA; SPACE]. cbn [strip_prefix].
  rewrite N.eqb_sym. destruct (c =? COMMA)%N; [|reflexivity].
  destruct s as [|c' s']; [reflexivity|].
  rewrite N.eqb_sym. now destruct (c' =? SPACE)%N.
Qed.

Lemma add_space_cons c s :
  str_replace (py ",") (py ", ") (c :: s)
  = if (c =? COMMA)%N
    then COMMA :: SPACE :: str_replace (py ",") (py ", ") s
    else c :: str_replace (py ",") (py ", ") s.
Proof.
  unfold str_replace. rewrite replace_from_cons, strip_prefix_comma.
  now destruct (c =? COMMA)%N.
Qed.

(** Taking the space after each comma away undoes putting one there. *)
Lemma drop_space_add_space t :
  str_replace (py ", ") (py ",") (str_replace (py ",") (py ", ") t) = t.
Proof.
  induction t as [|c t IH]; [reflexivity|].
  rewrite add_space_cons. destruct (c =? COMMA)%N eqn:E.
  - apply N.eqb_eq in E. subst c. unfold str_replace in *.
    rewrite replace_from_cons, strip_prefix_comma_space.
    rewrite !N.eqb_refl.
    change (List.length (py ", ") - 1)%nat with 1%nat.
    rewrite replace_from_skip. change (py ",") with [COMMA] in *.
    cbn [app]. now rewrite IH.
  - unfold str_replace in *.
    rewrite replace_from_cons, strip_prefix_comma_space, E. now rewrite IH.
Qed.

Lemma add_space_spaced t : comma_spaced (str_replace (py ",") (py ", ") t) = true.
Proof.
  induction t as [|c t IH]; [reflexivity|].
  rewrite add_space_cons. destruct (c =? COMMA)%N eqn:E.
  - cbn [comma_spaced]. rewrite N.eqb_refl, N.eqb_refl.
    replace (SPACE =? COMMA)%N with false by reflexivity. cbn [andb]. exact IH.
  - cbn [comma_spaced]. rewrite E. exact IH.
Qed.

(** X7: the comma spacing of the brands, countries, labels and packaging
    cells.  After the two replacements every comma is followed by a space;
    the first replacement undoes the second, so spacing a second time
    changes nothing. *)
Theorem comma_spacing :
  (forall s, comma_spaced (space_commas s) = true)
  /\ (forall t, str_replace (py ", ") (py ",")
                 (str_replace (py ",") (py ", ") t) = t)
  /\ (forall s, space_commas (space_commas s) = space_commas s).
Proof.
  split; [intros s; apply add_space_spaced|].
  split; [apply drop_space_add_space|].
  intros s. unfold space_commas. now rewrite drop_space_add_space.
Qed.

(** ** The text stages, cell by cell *)

Lemma mapM_returned (f : value -> result value) l l' :
  mapM f l = Ok l' -> l' = List.map (returned f) l.
Proof.
  revert l'. induction l as [|v l IH]; intros l' H; simpl in H.
  - now inversion H.
  - inv_bind H. inv_bind H. inversion H. subst l'. simpl.
    unfold returned at 1. rewrite Hstep. f_equal. now apply IH.
Qed.

Lemma series_apply_values f s s' :
  series_apply f s = Ok s' -> values s' = List.map (returned f) (values s).
Proof.
  unfold series_apply. intros H. destruct (values s) as [|v l] eqn:E.
  - inversion H. subst s'. now rewrite E.
  - inv_bind H. inversion H. rewrite values_infer_series.
    now apply mapM_returned.
Qed.

Lemma fillna_values_ok u s s' :
  Ok (fillna (VStr u) s) = Ok s' ->
  values s' = List.map (fill_cell (VStr u)) (values s).
Proof. intros H. inversion H. apply values_fillna_str. Qed.

Lemma replace_values_ok olds new s s' :
  Ok (series_replace olds new s) = Ok s' ->
  values s' = List.map (replace_cell olds new) (values s).
Proof. intros H. inversion H. apply values_series_replace. Qed.

Lemma str2_values f g s s' :
  (s1 <- str_method f s ;; str_method g s1) = Ok s' ->
  values s' = List.map (fun v => str_cell g (str_cell f v)) (values s).
Proof.
  intros H. inv_bind H. apply str_method_map in Hstep, H.
  now rewrite H, Hstep, map_map.
Qed.

Section TextCells.
Context {L : PyLib}.

Lemma clean_brands_cell df df' i :
  clean_brands df = Ok df' ->
  cell df' brands i = option_map brand_cell (cell df brands i).
Proof.
  unfold clean_brands. intros H. do 5 inv_bind H.
  apply (update_cell _ _ (returned unescape_cell) _ _ i) in Hstep;
    [|apply series_apply_values].
  apply (update_cell _ _ (fun v => str_cell str_strip (str_cell str_title v))
           _ _ i) in Hstep0; [|apply str2_values].
  apply (update_cell _ _ (replace_cell [py "Xylimgxyling"] Unknown) _ _ i)
    in Hstep1; [|apply replace_values_ok].
  apply (update_cell _ _ (str_cell (str_replace [8217%N] (py "'"))) _ _ i)
    in Hstep2; [|apply str_method_map].
  apply (update_cell _ _
           (fun v => str_cell (str_replace (py ",") (py ", "))
                       (str_cell (str_replace (py ", ") (py ",")) v)) _ _ i)
    in Hstep3; [|apply str2_values].
  apply (update_cell _ _ (fill_cell Unknown) _ _ i) in H;
    [|apply fillna_values_ok].
  rewrite H, Hstep3, Hstep2, Hstep1, Hstep0, Hstep.
  now destruct (cell df brands i).
Qed.

Lemma space_commas_cell v :
  str_cell (str_replace (py ",") (py ", "))
    (str_cell (str_replace (py ", ") (py ",")) v)
  = str_cell space_commas v.
Proof. now destruct v. Qed.

(** X8: when the brands stage returns, a brands cell that held a string
    holds its cleaned form, in which every comma is followed by a space
    (the junk brand becomes "Unknown"), and every other cell holds
    "Unknown": no brands cell is missing. *)
Theorem brands_cells (df df' : DataFrame) (i : nat) :
  clean_brands df = Ok df' ->
  (forall s, cell df brands i = Some (VStr s) ->
     cell df' brands i = Some (VStr (brand_of s)))
  /\ (forall x, cell df brands i = Some (VNum x) ->
      cell df' brands i = Some Unknown)
  /\ (forall v, cell df' brands i = Some v ->
      exists s, v = VStr s /\ comma_spaced s = true)
  /\ (forall s, str_strip (str_title (html_unescape s)) = py "Xylimgxyling" ->
      brand_of s = py "Unknown").
Proof.
  intros H. pose proof (clean_brands_cell _ _ i H) as Hc.
  assert (Hs : forall s, brand_cell (VStr s) = VStr (brand_of s)).
  { intros s. unfold brand_cell, brand_of, returned, unescape_cell.
    cbn [str_cell]. unfold replace_cell, str_in. cbn [existsb].
    destruct (pystr_eqb _ (py "Xylimgxyling")); reflexivity. }
  assert (Hx : forall x, brand_cell (VNum x) = Unknown).
  { intros x. unfold brand_cell, returned, unescape_cell.
    destruct (float_isnan x); reflexivity. }
  split; [|split; [|split]].
  - intros s Hraw. now rewrite Hc, Hraw, <- Hs.
  - intros x Hraw. now rewrite Hc, Hraw, <- (Hx x).
  - intros v Hv. rewrite Hc in Hv.
    destruct (cell df brands i) as [[s|x]|]; [| |discriminate];
      simpl in Hv; inversion Hv.
    + rewrite Hs. eexists. split; [reflexivity|].
      unfold brand_of. apply add_space_spaced.
    + rewrite Hx. now exists (py "Unknown").
  - intros s Hj. unfold brand_of. rewrite Hj. reflexivity.
Qed.

End TextCells.

Section CategoryCells.
Context {L : PyLib}.

Lemma clean_categories_cell df df' i :
  clean_categories df = Ok df' ->
  cell df' categories i = option_map category_cell (cell df categories i)
  /\ cell df' categories_top i
     = option_map category_top_cell (cell df' categories i).
Proof.
  unfold clean_categories. intros H. do 5 inv_bind H.
  inversion H. subst df'. clear H.
  apply (update_cell _ _ (replace_cell [py "undefined"; py "za"] NA) _ _ i)
    in Hstep; [|apply replace_values_ok].
  apply (update_cell _ _
           (fun v => returned remove_lang_prefix
                       (fill_cell Unknown (str_cell str_strip v))) _ _ i)
    in Hstep0.
  2: { intros s s' Hf. inv_bind Hf. apply str_method_map in Hstep4.
       apply series_apply_values in Hf.
       unfold Unknown in Hf. rewrite values_fillna_str, Hstep4 in Hf.
       now rewrite Hf, !map_map. }
  apply getitem_ok in Hstep1. apply str_method_map in Hstep2, Hstep3.
  rewrite cell_setitem_other by discriminate.
  rewrite cell_setitem_same. split.
  - rewrite Hstep0, Hstep. now destruct (cell df categories i).
  - unfold Unknown. rewrite values_fillna_str, Hstep3, Hstep2, !map_map.
    unfold cell. rewrite Hstep1. now rewrite nth_error_map.
Qed.

Lemma first_segment_no_comma s : ~ In COMMA (first_segment s).
Proof.
  unfold first_segment. induction s as [|c s IH]; simpl; [tauto|].
  destruct (c =? COMMA)%N eqn:E; simpl; [tauto|].
  destruct (str_split COMMA s) as [|p ps]; simpl in *.
  - intros [->|[]]. now rewrite N.eqb_refl in E.
  - intros [->|H]; [now rewrite N.eqb_refl in E|now apply IH].
Qed.

(** X9: when the categories stage returns, a categories cell that held
    "undefined" or "za", or no string at all, holds "Unknown" and so does
    its [categories_top]; any other cell holds the stripped string without
    its language prefix, and [categories_top] holds the title-cased text
    before its first comma.  No cell of the two columns is missing. *)
Theorem categories_cells (df df' : DataFrame) (i : nat) :
  clean_categories df = Ok df' ->
  (forall s, cell df categories i = Some (VStr s) ->
     cell df' categories i = Some (VStr (category_of s))
     /\ cell df' categories_top i
        = Some (VStr (category_top_of (category_of s))))
  /\ (forall x, cell df categories i = Some (VNum x) ->
      cell df' categories i = Some Unknown
      /\ cell df' categories_top i = Some Unknown)
  /\ category_of (py "undefined") = py "Unknown"
  /\ category_of (py "za") = py "Unknown"
  /\ (forall s, ~ In COMMA (first_segment s))
  /\ (forall v, cell df' categories i = Some v \/
                cell df' categories_top i = Some v -> is_str v = true).
Proof.
  intros H. destruct (clean_categories_cell _ _ i H) as (Hc & Ht).
  assert (Hs : forall s, category_cell (VStr s) = VStr (category_of s)).
  { intros s. unfold category_cell, category_of, replace_cell, str_in.
    cbn [existsb]. rewrite orb_false_r.
    destruct (pystr_eqb s (py "undefined") || pystr_eqb s (py "za"));
      reflexivity. }
  assert (Hx : forall x, category_cell (VNum x) = Unknown) by reflexivity.
  assert (Hu : category_top_cell Unknown = Unknown) by reflexivity.
  assert (Hstr : forall v, is_str (category_top_cell v) = true).
  { intros [s|x]; reflexivity. }
  split; [|split; [|split; [|split; [|split]]]].
  - intros s Hraw. rewrite Ht, Hc, Hraw. simpl. now rewrite Hs.
  - intros x Hraw. rewrite Ht, Hc, Hraw. simpl. now rewrite Hx, Hu.
  - reflexivity.
  - reflexivity.
  - apply first_segment_no_comma.
  - intros v [Hv|Hv].
    + rewrite Hc in Hv. destruct (cell df categories i) as [[s|x]|];
        [| |discriminate]; simpl in Hv; inversion Hv.
      * now rewrite Hs.
      * now rewrite Hx.
    + rewrite Ht in Hv. destruct (cell df' categories i); [|discriminate].
      simpl in Hv. inversion Hv. apply Hstr.
Qed.

End CategoryCells.

(** ** Ingredients, labels and packaging, cell by cell *)

Lemma update_cell_other name other f df df' i :
  update name f df = Ok df' -> name <> other ->
  cell df' other i = cell df other i.
Proof.
  intros H Hne. unfold cell. now rewrite (update_lookup_other _ _ _ _ _ H Hne).
Qed.

Section PackagingCells.
Context {L : PyLib}.

Lemma clean_ingredients_labels_packaging_cell df df' i :
  clean_ingredients_labels_packaging df = Ok df' ->
  cell df' ingredients_text i
  = option_map ingredients_cell (cell df ingredients_text i)
  /\ cell df' labels i = option_map labels_cell (cell df labels i)
  /\ cell df' packaging i = option_map packaging_cell (cell df packaging i).
Proof.
  unfold clean_ingredients_labels_packaging. intros H. do 3 inv_bind H.
  pose proof (update_cell_other _ ingredients_text _ _ _ i Hstep0) as A1.
  pose proof (update_cell_other _ ingredients_text _ _ _ i Hstep1) as A2.
  pose proof (update_cell_other _ ingredients_text _ _ _ i H) as A3.
  pose proof (update_cell_other _ labels _ _ _ i Hstep) as B0.
  pose proof (update_cell_other _ labels _ _ _ i Hstep1) as B2.
  pose proof (update_cell_other _ labels _ _ _ i H) as B3.
  pose proof (update_cell_other _ packaging _ _ _ i Hstep) as C0.
  pose proof (update_cell_other _ packaging _ _ _ i Hstep0) as C1.
  apply (update_cell _ _ ingredients_cell _ _ i) in Hstep.
  2: { intros s s' Hf. do 2 inv_bind Hf.
       apply str_method_map in Hstep2, Hstep3, Hf.
       unfold Unknown in Hstep2. rewrite values_fillna_str in Hstep2.
       now rewrite Hf, Hstep3, Hstep2, !map_map. }
  apply (update_cell _ _ labels_cell _ _ i) in Hstep0.
  2: { intros s s' Hf. do 3 inv_bind Hf.
       apply str_method_map in Hstep2, Hstep3, Hstep4, Hf.
       unfold Unknown in Hstep2. rewrite values_fillna_str in Hstep2.
       now rewrite Hf, Hstep4, Hstep3, Hstep2, !map_map. }
  apply (update_cell _ _
           (fun v => str_cell str_title
              (fill_cell Unknown
                 (str_cell str_strip
                    (str_cell (str_replace (py ",") (py ", "))
                       (str_cell (str_replace (py ", ") (py ","))
                          (str_cell remove_code_colon v)))))) _ _ i)
    in Hstep1.
  2: { intros s s' Hf. do 4 inv_bind Hf.
       apply str_method_map in Hstep2, Hstep3, Hstep4, Hstep5, Hf.
       unfold Unknown in Hf. rewrite values_fillna_str in Hf.
       now rewrite Hf, Hstep5, Hstep4, Hstep3, Hstep2, !map_map. }
  apply (update_cell _ _
           (replace_cell [py "40g"; py "packaging"; py "plaza vea"; py "za"]
              Unknown) _ _ i) in H; [|apply replace_values_ok].
  split; [|split].
  - rewrite A3, A2, A1 by discriminate. exact Hstep.
  - rewrite B3, B2 by discriminate. rewrite Hstep0. now rewrite B0 by discriminate.
  - rewrite H, Hstep1, C1, C0 by discriminate.
    now destruct (cell df packaging i).
Qed.

(** *** One space for every run of white space *)

Lemma sub_spaces_head t :
  match sub_spaces true t with
  | c :: _ => py_isspace c = false
  | [] => True
  end.
Proof.
  induction t as [|c t IH]; simpl; [exact I|].
  destruct (py_isspace c) eqn:E; simpl; [exact IH|exact E].
Qed.

Lemma space_isspace : py_isspace SPACE = true.
Proof. reflexivity. Qed.

Lemma sub_spaces_single b t : single_spaced (sub_spaces b t) = true.
Proof.
  revert b. induction t as [|c t IH]; intros b; simpl; [reflexivity|].
  destruct (py_isspace c) eqn:E.
  - destruct b; cbn [app]; [apply IH|].
    cbn [single_spaced]. rewrite space_isspace, N.eqb_refl, IH, andb_true_r.
    pose proof (sub_spaces_head t) as Hh.
    destruct (sub_spaces true t); [reflexivity|]. now rewrite Hh.
  - cbn [single_spaced]. rewrite E. apply IH.
Qed.

(** X10: when the stage of the three text columns returns, an ingredients
    cell that held a string holds it stripped, in lower case and with one
    space for every run of white space, and a labels cell holds the
    lower-cased string without its language codes, every comma followed by
    a space.  A missing cell of these two columns ends as "unknown" in
    lower case; a cell that held a number ends missing, since the filling
    comes before the string methods. *)
Theorem ingredients_labels_cells (df df' : DataFrame) (i : nat) :
  clean_ingredients_labels_packaging df = Ok df' ->
  (forall s, cell df ingredients_text i = Some (VStr s) ->
     cell df' ingredients_text i = Some (VStr (ingredients_of s))
     /\ single_spaced (ingredients_of s) = true)
  /\ (forall s, cell df labels i = Some (VStr s) ->
      cell df' labels i = Some (VStr (labels_of s))
      /\ comma_spaced (labels_of s) = true)
  /\ (cell df ingredients_text i = Some NA ->
      cell df' ingredients_text i = Some unknown)
  /\ (cell df labels i = Some NA -> cell df' labels i = Some unknown)
  /\ (forall x, float_isnan x = false ->
      (cell df ingredients_text i = Some (VNum x) ->
       cell df' ingredients_text i = Some NA)
      /\ (cell df labels i = Some (VNum x) -> cell df' labels i = Some NA)).
Proof.
  intros H.
  destruct (clean_ingredients_labels_packaging_cell _ _ i H) as (Hi & Hl & _).
  split; [|split; [|split; [|split]]].
  - intros s Hraw. rewrite Hi, Hraw. split; [reflexivity|].
    apply sub_spaces_single.
  - intros s Hraw. rewrite Hl, Hraw. split; [reflexivity|].
    apply add_space_spaced.
  - intros Hraw. now rewrite Hi, Hraw.
  - intros Hraw. now rewrite Hl, Hraw.
  - intros x Hx. split; intros Hraw.
    + rewrite Hi, Hraw. now destruct x.
    + rewrite Hl, Hraw. now destruct x.
Qed.

End PackagingCells.

(** *** Title case and the replacement of line 95 *)

Lemma toupper_not_lower c : ascii_islower (ascii_toupper c) = false.
Proof.
  unfold ascii_toupper. destruct (ascii_islower c) eqn:E; [|exact E].
  unfold ascii_islower, between in *.
  apply andb_true_iff in E. destruct E as (E1 & E2).
  apply N.leb_le in E1, E2. apply andb_false_iff. left.
  apply N.leb_gt. lia.
Qed.

Lemma toupper_isalpha c : ascii_isalpha (ascii_toupper c) = ascii_isalpha c.
Proof.
  unfold ascii_toupper. destruct (ascii_islower c) eqn:E; [|reflexivity].
  unfold ascii_isalpha. rewrite E, orb_true_r.
  unfold ascii_islower, ascii_isupper, between in *.
  apply andb_true_iff in E. destruct E as (E1 & E2).
  apply N.leb_le in E1, E2. apply orb_true_iff. left.
  apply andb_true_iff. split; apply N.leb_le; lia.
Qed.

Lemma tolower_isalpha c : ascii_isalpha (ascii_tolower c) = ascii_isalpha c.
Proof.
  unfold ascii_tolower. destruct (ascii_isupper c) eqn:E; [|reflexivity].
  unfold ascii_isalpha. rewrite E, orb_true_l.
  unfold ascii_islower, ascii_isupper, between in *.
  apply andb_true_iff in E. destruct E as (E1 & E2).
  apply N.leb_le in E1, E2. apply orb_true_iff. right.
  apply andb_true_iff. split; apply N.leb_le; lia.
Qed.

Section Titles.
Context {L : PyLib}.

Lemma do_title_titled s i b rest :
  forallb is_ascii rest = true -> titled b (do_title s i b rest) = true.
Proof.
  revert i b. induction rest as [|c rest IH]; intros i b H; [reflexivity|].
  simpl in H. apply andb_true_iff in H. destruct H as (Hc & Hr).
  cbn [do_title]. unfold lower_ucs4, py_totitle, py_iscased. rewrite Hc.
  destruct b; cbn [app titled].
  - rewrite tolower_isalpha, (IH _ _ Hr).
    now destruct (ascii_islower (ascii_tolower c)).
  - now rewrite toupper_not_lower, toupper_isalpha, (IH _ _ Hr).
Qed.

Lemma sub_code_colon_in c b k s : In c (sub_code_colon b k s) -> In c s.
Proof.
  revert b k. induction s as [|d s IH]; intros b k H; [exact H|].
  cbn [sub_code_colon] in H. destruct k as [|k].
  - destruct (match_code_colon b (d :: s)).
    + right. exact (IH _ _ H).
    + destruct H as [H|H]; [now left|right; exact (IH _ _ H)].
  - right. exact (IH _ _ H).
Qed.

Lemma replace_from_in c old new k s :
  In c (replace_from old new k s) -> In c s \/ In c new.
Proof.
  revert k. induction s as [|d s IH]; intros k H; [now left|].
  cbn [replace_from] in H. destruct k as [|k].
  - destruct (strip_prefix old (d :: s)).
    + apply in_app_or in H. destruct H as [H|H]; [now right|].
      destruct (IH _ H); [left; now right|now right].
    + destruct H as [H|H]; [left; now left|].
      destruct (IH _ H); [left; now right|now right].
  - destruct (IH _ H); [left; now right|now right].
Qed.

Lemma lstrip_in c s : In c (lstrip s) -> In c s.
Proof.
  induction s as [|d s IH]; intros H; [exact H|].
  cbn [lstrip] in H. destruct (py_isspace d); [right; exact (IH H)|exact H].
Qed.

Lemma str_strip_in c s : In c (str_strip s) -> In c s.
Proof.
  unfold str_strip, rstrip. intros H. apply in_rev in H.
  apply lstrip_in in H. apply in_rev in H. now apply lstrip_in.
Qed.

Lemma packaging_text_ascii s :
  forallb is_ascii s = true ->
  forallb is_ascii (str_strip (space_commas (remove_code_colon s))) = true.
Proof.
  intros H. rewrite forallb_forall in *. intros c Hc.
  apply str_strip_in in Hc. unfold space_commas, str_replace in Hc.
  apply replace_from_in in Hc. destruct Hc as [Hc|Hc].
  - apply replace_from_in in Hc. destruct Hc as [Hc|Hc].
    + apply H. exact (sub_code_colon_in _ _ _ _ Hc).
    + destruct Hc as [<-|[]]. reflexivity.
  - destruct Hc as [<-|[<-|[]]]; reflexivity.
Qed.

Lemma title_never_junk t :
  forallb is_ascii t = true ->
  existsb (pystr_eqb (str_title t))
    [py "40g"; py "packaging"; py "plaza vea"; py "za"] = false.
Proof.
  intros H. pose proof (do_title_titled t 0 false t H) as Ht.
  fold (str_title t) in Ht.
  cbn [existsb].
  repeat match goal with
         | |- context [pystr_eqb (str_title t) ?w] =>
             let E := fresh "E" in
             destruct (pystr_eqb (str_title t) w) eqn:E;
             [apply pystr_eqb_eq in E; rewrite E in Ht; discriminate Ht|]
         end.
  reflexivity.
Qed.

(** X11: when the stage of the three text columns returns, no packaging
    cell is missing: a cell that held no string holds "Unknown", and a
    cell that held a string holds it without language codes, commas
    spaced, stripped and in title case.  The replacement of the four junk
    values by "Unknown" comes after the title-casing and changes no cell
    of ASCII text: none of "40g", "packaging", "plaza vea" and "za" is in
    title case, so that a cell "40g" ends as "40G" and a cell "za" as
    "Za". *)
Theorem packaging_cells (df df' : DataFrame) (i : nat) :
  clean_ingredients_labels_packaging df = Ok df' ->
  (forall s, cell df packaging i = Some (VStr s) ->
     cell df' packaging i = Some (VStr (packaging_of s)))
  /\ (forall x, cell df packaging i = Some (VNum x) ->
      cell df' packaging i = Some Unknown)
  /\ (forall v, cell df' packaging i = Some v -> is_str v = true)
  /\ (forall s, forallb is_ascii s = true ->
      packaging_of s
      = str_title (str_strip (space_commas (remove_code_colon s))))
  /\ packaging_of (py "40g") = py "40G"
  /\ packaging_of (py " za") = py "Za".
Proof.
  intros H.
  destruct (clean_ingredients_labels_packaging_cell _ _ i H) as (_ & _ & Hp).
  assert (Hs : forall s, packaging_cell (VStr s) = VStr (packaging_of s)).
  { intros s. unfold packaging_cell, packaging_of, space_commas.
    cbn [str_cell]. unfold replace_cell, str_in.
    change (fill_cell Unknown (VStr ?a)) with (VStr a). cbn [str_cell].
    destruct (existsb _ _); reflexivity. }
  assert (Hx : forall x, packaging_cell (VNum x) = Unknown) by reflexivity.
  repeat match goal with |- _ /\ _ => split end.
  - intros s Hraw. now rewrite Hp, Hraw, <- Hs.
  - intros x Hraw. now rewrite Hp, Hraw, <- (Hx x).
  - intros v Hv. rewrite Hp in Hv.
    destruct (cell df packaging i) as [[s|x]|]; [| |discriminate];
      simpl in Hv; inversion Hv.
    + now rewrite Hs.
    + now rewrite Hx.
  - intros s Ha. unfold packaging_of.
    now rewrite (title_never_junk _ (packaging_text_ascii _ Ha)).
  - reflexivity.
  - reflexivity.
Qed.

End Titles.

(** ** The columns that the script does not name *)

Lemma drop_duplicates_lookup df other :
  lookup other (columns (drop_duplicates df))
  = if df_empty df then lookup other (columns df)
    else option_map (select_series (List.map negb (duplicated df)))
           (lookup other (columns df)).
Proof.
  unfold drop_duplicates. destruct (df_empty df); [reflexivity|].
  apply lookup_select.
Qed.

Section Untouched.
Context {L : PyLib}.

Lemma run_lookup_other raw r other :
  run_pipeline raw = Ok r ->
  ~ In other (expected_columns ++ derived_columns) ->
  lookup other (columns (saved r))
  = option_map (select_series (xxx_mask (drop_duplicates raw)))
      (lookup other (columns (drop_duplicates raw))).
Proof.
  unfold run_pipeline. intros H Hne. do 8 inv_bind H.
  inversion H. subst r. clear H. cbn [saved].
  assert (Hno : forall l, incl l (expected_columns ++ derived_columns) ->
                          ~ In other l).
  { intros l Hl Hin. apply Hne. now apply Hl. }
  rewrite (clean_nutritional_columns_lookup _ _ other Hstep6).
  2: { apply Hno. intros c Hc. unfold expected_columns.
       apply in_or_app. left. apply in_or_app. now right. }
  rewrite (clean_nova_group_lookup _ _ other Hstep5)
    by (apply Hno; intros c Hc; vm_compute in Hc |- *; tauto).
  rewrite (clean_nutriscore_lookup _ _ other Hstep4)
    by (apply Hno; intros c Hc; vm_compute in Hc |- *; tauto).
  rewrite (clean_ingredients_labels_packaging_lookup _ _ other Hstep3)
    by (apply Hno; intros c Hc; vm_compute in Hc |- *; tauto).
  rewrite (clean_countries_lookup _ _ other Hstep2)
    by (apply Hno; intros c Hc; vm_compute in Hc |- *; tauto).
  rewrite (clean_categories_lookup _ _ other Hstep1)
    by (apply Hno; intros c Hc; vm_compute in Hc |- *; tauto).
  rewrite (clean_brands_lookup _ _ other Hstep0)
    by (apply Hno; intros c Hc; vm_compute in Hc |- *; tauto).
  destruct (clean_product_name_spec _ _ Hstep) as (_ & Ho & _).
  apply Ho. intros ->. apply Hne. vm_compute. tauto.
Qed.

(** X12: a column that the script does not name is saved as it was read,
    but for the rows that are removed: its cells are those of the rows
    that are no duplicates and pass the "Xxx" filter, in their order and
    with the column's type. *)
Theorem unnamed_columns_pass_through (raw : DataFrame) (r : pipeline_run)
    (other : pystr) :
  run_pipeline raw = Ok r ->
  ~ In other (expected_columns ++ derived_columns) ->
  lookup other (columns (saved r))
  = option_map (select_series (xxx_mask (drop_duplicates raw)))
      (lookup other (columns (drop_duplicates raw)))
  /\ lookup other (columns (drop_duplicates raw))
     = (if df_empty raw then lookup other (columns raw)
        else option_map (select_series (List.map negb (duplicated raw)))
               (lookup other (columns raw))).
Proof.
  intros H Hne. split; [now apply run_lookup_other|].
  apply drop_duplicates_lookup.
Qed.

End Untouched.

(** ** Columns of the wrong type *)

Lemma mapM_unescape_floats {L : PyLib} l :
  mapM unescape_cell (List.map VNum l)
  = if forallb float_isnan l then Ok (List.map VNum l) else Raise TypeError.
Proof.
  induction l as [|x l IH]; [reflexivity|].
  cbn [List.map mapM forallb]. unfold unescape_cell at 1.
  destruct (float_isnan x); [|reflexivity].
  cbn [bind andb]. rewrite IH. now destruct (forallb float_isnan l).
Qed.

Lemma apply_unescape_floats {L : PyLib} w l :
  series_apply unescape_cell (FloatSeries w l)
  = if forallb float_isnan l
    then Ok (FloatSeries (match l with [] => w | _ => F64 end) l)
    else Raise TypeError.
Proof.
  unfold series_apply. cbn [values]. destruct l as [|x l]; [reflexivity|].
  pose proof (mapM_unescape_floats (x :: l)) as Hm.
  cbn [List.map] in Hm |- *. rewrite Hm.
  destruct (forallb float_isnan (x :: l)); [|reflexivity].
  cbn [bind]. unfold infer_series.
  change (VNum x :: List.map VNum l) with (List.map VNum (x :: l)).
  now rewrite all_floats_map_VNum.
Qed.

Lemma update_float_str {L : PyLib} name w l f k df :
  lookup name (columns df) = Some (FloatSeries w l) ->
  update name (fun s => s <- str_method f s ;; k s) df = Raise AttributeError.
Proof. intros H. unfold update, getitem. now rewrite H. Qed.

Lemma update_float_str_method {L : PyLib} name w l f df :
  lookup name (columns df) = Some (FloatSeries w l) ->
  update name (str_method f) df = Raise AttributeError.
Proof. intros H. unfold update, getitem. now rewrite H. Qed.

Lemma update_float_unescape {L : PyLib} name w l df :
  lookup name (columns df) = Some (FloatSeries w l) ->
  update name (series_apply unescape_cell) df
  = if forallb float_isnan l
    then Ok (setitem df name
               (FloatSeries (match l with [] => w | _ => F64 end) l))
    else Raise TypeError.
Proof.
  intros H. unfold update, getitem. rewrite H. cbn [bind].
  rewrite apply_unescape_floats. now destruct (forallb float_isnan l).
Qed.

Lemma lookup_setitem_same df name s :
  lookup name (columns (setitem df name s)) = Some s.
Proof. apply lookup_assign_same. Qed.

Section WrongTypes.
Context {L : PyLib}.

(** X13: a text column that was read as a column of floats (as an empty
    column of the file is) stops five of the stages.  The product-name
    and brands stages raise TypeError when the column holds a number and
    AttributeError when all its cells are missing; the categories and
    countries stages raise AttributeError; the stage of
    [ingredients_text], [labels] and [packaging] does not return when
    [packaging] is such a column. *)
Theorem float_text_column_raises (df : DataFrame) (w : width) (l : list float) :
  (lookup product_name (columns df) = Some (FloatSeries w l) ->
   clean_product_name df
   = Raise (if forallb float_isnan l then AttributeError else TypeError))
  /\ (lookup brands (columns df) = Some (FloatSeries w l) ->
      clean_brands df
      = Raise (if forallb float_isnan l then AttributeError else TypeError))
  /\ (lookup categories (columns df) = Some (FloatSeries w l) ->
      clean_categories df = Raise AttributeError)
  /\ (lookup countries (columns df) = Some (FloatSeries w l) ->
      clean_countries df = Raise AttributeError)
  /\ (lookup packaging (columns df) = Some (FloatSeries w l) ->
      exists e, clean_ingredients_labels_packaging df = Raise e).
Proof.
  split; [|split; [|split; [|split]]]; intros H.
  - unfold clean_product_name. rewrite (update_float_unescape _ _ _ _ H).
    destruct (forallb float_isnan l); [|reflexivity]. cbn [bind].
    now rewrite (update_float_str _ _ _ _ _ _ (lookup_setitem_same _ _ _)).
  - unfold clean_brands. rewrite (update_float_unescape _ _ _ _ H).
    destruct (forallb float_isnan l); [|reflexivity]. cbn [bind].
    now rewrite (update_float_str _ _ _ _ _ _ (lookup_setitem_same _ _ _)).
  - unfold clean_categories. unfold update at 1, getitem. rewrite H.
    cbn [bind series_replace].
    now rewrite (update_float_str _ _ _ _ _ _ (lookup_setitem_same _ _ _)).
  - unfold clean_countries.
    now rewrite (update_float_str_method _ _ _ _ _ H).
  - destruct (clean_ingredients_labels_packaging df) as [df'|e] eqn:E;
      [exfalso|eauto].
    unfold clean_ingredients_labels_packaging in E. do 3 inv_bind E.
    apply update_lookup_other with (other := packaging) in Hstep;
      [|discriminate].
    apply update_lookup_other with (other := packaging) in Hstep0;
      [|discriminate].
    rewrite <- Hstep, <- Hstep0 in H.
    rewrite (update_float_str _ _ _ _ _ _ H) in Hstep1. discriminate.
Qed.

(** X14: the numeric sanitizer does not return on a table in which one of
    the eight columns holds a string, and the loop body raises TypeError
    on such a column: the comparison with 0 is refused. *)
Theorem sanitizer_refuses_strings (df : DataFrame) (col : pystr)
    (cells : list value) :
  lookup col (columns df) = Some (ObjSeries cells) ->
  existsb is_str cells = true ->
  clean_numeric_column df col = Raise TypeError
  /\ (In col num_cols -> exists e, clean_nutritional_columns df = Raise e).
Proof.
  intros H Hs.
  assert (Hf : floats_of (ObjSeries cells) = Raise TypeError).
  { unfold floats_of. destruct (all_floats cells) as [xs|] eqn:E; [|reflexivity].
    apply all_floats_values in E. subst cells.
    apply existsb_exists in Hs. destruct Hs as (v & Hin & Hv).
    apply in_map_iff in Hin. destruct Hin as (x & <- & _). discriminate. }
  split.
  - unfold clean_numeric_column, update at 1, getitem. rewrite H. cbn [bind].
    now rewrite Hf.
  - intros Hin. destruct (clean_nutritional_columns df) as [df'|e] eqn:E;
      [exfalso|eauto].
    destruct (for_each_spec _ _ _ num_cols_NoDup E) as (Hc & _).
    destruct (Hc _ Hin) as (s & xs & Hl & Hfl & _).
    rewrite H in Hl. inversion Hl. subst s. rewrite Hf in Hfl. discriminate.
Qed.

End WrongTypes.

(** ** The values of the derived columns *)

Lemma map_cell_values d v :
  map_cell d v = NA \/ In (map_cell d v) (List.map snd d).
Proof.
  unfold map_cell. induction d as [|[k r] d IH]; simpl; [now left|].
  destruct (key_eqb k v); [right; now left|].
  destruct IH as [IH|IH]; [now left|right; now right].
Qed.

Section Derived.
Context {L : PyLib}.

(** X15: the two derived columns take their values from the
    dictionaries of the script.  When the nutriscore stage returns, a cell
    of [nutriscore_numeric] is one of the numbers 0 to 5 or missing; when
    the NOVA stage returns, a cell of [nova_group_label] is one of the
    five labels or missing. *)
Theorem derived_values (df df' : DataFrame) (i : nat) (v : value) :
  (clean_nutriscore df = Ok df' ->
   cell df' nutriscore_numeric i = Some v ->
   In v [num 0; num 1; num 2; num 3; num 4; num 5; NA])
  /\ (clean_nova_group df = Ok df' ->
      cell df' nova_group_label i = Some v ->
      In v [txt "Unprocessed or Minimally Processed";
            txt "Processed Culinary Ingredients";
            txt "Processed Foods"; txt "Ultra-Processed Foods";
            txt "Unknown"; NA]).
Proof.
  split; intros H Hv.
  - destruct (clean_nutriscore_cells _ _ i H) as (_ & Hn).
    rewrite Hn in Hv. destruct (cell df' nutriscore_grade i) as [g|];
      [|discriminate].
    simpl in Hv. inversion Hv.
    destruct (map_cell_values nutri_map g) as [->|Hin]; [simpl; tauto|].
    simpl in Hin. simpl. tauto.
  - rewrite (clean_nova_group_cells _ _ i H) in Hv.
    destruct (cell df nova_group i) as [g|]; [|discriminate].
    simpl in Hv. inversion Hv. unfold nova_label.
    destruct (map_cell_values nova_map (fill_cell unknown g)) as [->|Hin];
      [simpl; tauto|].
    simpl in Hin. simpl. tauto.
Qed.

End Derived.

(** ** Stripping and the country mapping, applied twice *)

Lemma get_or_cases d c default :
  get_or d c default = default \/ In (get_or d c default) (List.map snd d).
Proof.
  induction d as [|[k v] d IH]; simpl; [now left|].
  destruct (pystr_eqb k c); [right; now left|].
  destruct IH as [IH|IH]; [now left|right; now right].
Qed.

Lemma split_not_nil sep s : str_split sep s <> [].
Proof.
  destruct s as [|c s]; simpl; [discriminate|].
  destruct (c =? sep)%N; [discriminate|].
  destruct (str_split sep s); discriminate.
Qed.

Lemma split_pieces s p : In p (str_split COMMA s) -> ~ In COMMA p.
Proof.
  revert p. induction s as [|c s IH]; intros p H; simpl in H.
  - destruct H as [<-|[]]. intros [].
  - destruct (c =? COMMA)%N eqn:E.
    + destruct H as [<-|H]; [intros []|now apply IH].
    + apply N.eqb_neq in E.
      destruct (str_split COMMA s) as [|q qs].
      * destruct H as [<-|[]]. intros [H|[]]. congruence.
      * destruct H as [<-|H].
        -- intros [H|H]; [congruence|]. revert H. apply IH. now left.
        -- apply IH. now right.
Qed.

Lemma split_no_comma p : ~ In COMMA p -> str_split COMMA p = [p].
Proof.
  induction p as [|c p IH]; intros H; simpl; [reflexivity|].
  destruct (c =? COMMA)%N eqn:E.
  - apply N.eqb_eq in E. exfalso. apply H. now left.
  - rewrite IH; [reflexivity|]. intros Hin. apply H. now right.
Qed.

Lemma split_app p rest :
  ~ In COMMA p ->
  str_split COMMA (p ++ COMMA :: rest) = p :: str_split COMMA rest.
Proof.
  induction p as [|c p IH]; intros H; simpl; [reflexivity|].
  destruct (c =? COMMA)%N eqn:E.
  - apply N.eqb_eq in E. exfalso. apply H. now left.
  - rewrite IH; [reflexivity|]. intros Hin. apply H. now right.
Qed.

Lemma split_join l :
  (forall p, In p l -> ~ In COMMA p) ->
  str_split COMMA (str_join (py ", ") l)
  = match l with
    | [] => [[]]
    | p :: ps => p :: List.map (cons SPACE) ps
    end.
Proof.
  induction l as [|p l IH]; intros H; [reflexivity|].
  destruct l as [|q l].
  - simpl. apply split_no_comma. apply H. now left.
  - change (str_join (py ", ") (p :: q :: l))
      with (p ++ COMMA :: SPACE :: str_join (py ", ") (q :: l)).
    rewrite split_app by (apply H; now left).
    change (str_split COMMA (SPACE :: str_join (py ", ") (q :: l)))
      with (match str_split COMMA (str_join (py ", ") (q :: l)) with
            | piece :: pieces => (SPACE :: piece) :: pieces
            | [] => [[SPACE]]
            end).
    rewrite IH by (intros r Hr; apply H; now right).
    reflexivity.
Qed.

Section Twice.
Context {L : PyLib}.

Lemma lstrip_cases s :
  lstrip s = [] \/ exists c t, lstrip s = c :: t /\ py_isspace c = false.
Proof.
  induction s as [|c s IH]; simpl; [now left|].
  destruct (py_isspace c) eqn:E; [exact IH|right; eauto].
Qed.

Lemma lstrip_snoc u c :
  py_isspace c = false -> lstrip (u ++ [c]) = lstrip u ++ [c].
Proof.
  intros Hc. induction u as [|d u IH]; simpl.
  - now rewrite Hc.
  - destruct (py_isspace d); [exact IH|reflexivity].
Qed.

Lemma lstrip_idem s : lstrip (lstrip s) = lstrip s.
Proof.
  destruct (lstrip_cases s) as [->|(c & t & -> & Hc)]; [reflexivity|].
  simpl. now rewrite Hc.
Qed.

Lemma rstrip_cons c t :
  py_isspace c = false -> rstrip (c :: t) = c :: rstrip t.
Proof.
  intros Hc. unfold rstrip. simpl. rewrite (lstrip_snoc _ _ Hc).
  now rewrite rev_unit.
Qed.

Lemma rstrip_idem s : rstrip (rstrip s) = rstrip s.
Proof. unfold rstrip. now rewrite rev_involutive, lstrip_idem. Qed.

Lemma str_strip_idem s : str_strip (str_strip s) = str_strip s.
Proof.
  unfold str_strip.
  destruct (lstrip_cases s) as [->|(c & t & -> & Hc)]; [reflexivity|].
  rewrite (rstrip_cons _ _ Hc). cbn [lstrip]. rewrite Hc.
  now rewrite (rstrip_cons _ _ Hc), rstrip_idem.
Qed.

Lemma str_strip_space s : str_strip (SPACE :: s) = str_strip s.
Proof. reflexivity. Qed.

Lemma country_values_settled :
  Forall settled (List.map snd country_map).
Proof.
  repeat constructor;
    try (intros H; simpl in H;
         repeat (destruct H as [H|H]; [discriminate H|]); exact H).
Qed.

Lemma country_get_settled c :
  ~ In COMMA c -> settled (country_get (str_strip c)).
Proof.
  intros Hc. unfold country_get.
  destruct (get_or_cases country_map (str_strip c) (str_strip c)) as [E|E].
  - rewrite E. unfold settled. split; [|split].
    + intros H. apply Hc. exact (str_strip_in _ _ H).
    + apply str_strip_idem.
    + exact E.
  - pose proof country_values_settled as Hall.
    rewrite Forall_forall in Hall. now apply Hall.
Qed.

Lemma map_countries_twice x : map_countries (map_countries x) = map_countries x.
Proof.
  unfold map_countries.
  set (g := fun c => country_get (str_strip c)).
  set (l := List.map g (str_split COMMA x)).
  assert (Hl : forall e, In e l -> settled e).
  { intros e He. apply in_map_iff in He. destruct He as (c & <- & Hc).
    apply country_get_settled. now apply split_pieces with (s := x). }
  rewrite split_join by (intros p Hp; apply (Hl p Hp)).
  f_equal. destruct l as [|p ps] eqn:El.
  - exfalso. apply (split_not_nil COMMA x).
    unfold l in El. now apply map_eq_nil in El.
  - cbn [List.map]. f_equal.
    + destruct (Hl p (or_introl eq_refl)) as (_ & Hs & Hg).
      unfold g. now rewrite Hs.
    + rewrite map_map. rewrite <- (map_id ps) at 2.
      apply map_ext_in. intros e He.
      destruct (Hl e (or_intror He)) as (_ & Hs & Hg).
      unfold g. now rewrite str_strip_space, Hs.
Qed.

(** X16: the country mapping of line 87 settles in one step: the
    dictionary sends every name to a name that it leaves alone, and a
    cell that has been mapped is mapped to itself.  Stripping a string
    twice is stripping it once. *)
Theorem country_mapping_idempotent (x c s : pystr) :
  map_countries (map_countries x) = map_countries x
  /\ country_get (country_get c) = country_get c
  /\ str_strip (str_strip s) = str_strip s.
Proof.
  split; [apply map_countries_twice|split; [|apply str_strip_idem]].
  unfold country_get at 2.
  destruct (get_or_cases country_map c c) as [E|E].
  - now rewrite E.
  - pose proof country_values_settled as Hall.
    rewrite Forall_forall in Hall. now apply Hall.
Qed.

(** X17: [remove_lang_prefix] returns a string without white space at
    its ends, and so every cell of [categories] is when the categories
    stage has returned. *)
Theorem categories_stripped (df df' : DataFrame) (i : nat) (s : pystr) :
  clean_categories df = Ok df' ->
  cell df' categories i = Some (VStr s) ->
  str_strip s = s
  /\ forall t, str_strip (remove_lang_prefix_str t) = remove_lang_prefix_str t.
Proof.
  intros H Hs.
  assert (Hr : forall t,
             str_strip (remove_lang_prefix_str t) = remove_lang_prefix_str t).
  { intros t. unfold remove_lang_prefix_str. apply str_strip_idem. }
  split; [|exact Hr].
  destruct (clean_categories_cell _ _ i H) as (Hc & _).
  rewrite Hc in Hs. destruct (cell df categories i) as [[t|y]|];
    [| |discriminate]; simpl in Hs.
  - unfold category_cell, replace_cell, str_in in Hs. cbn [existsb] in Hs.
    destruct (pystr_eqb t (py "undefined") || (pystr_eqb t (py "za") || false));
      simpl in Hs; inversion Hs; [reflexivity|apply Hr].
  - inversion Hs. reflexivity.
Qed.

End Twice.

Section CountriesCells.
Context {L : PyLib}.

Lemma clean_countries_cell_all df df' i :
  clean_countries df = Ok df' ->
  cell df' countries i
  = option_map
      (fun v => returned map_countries_cell
                  (fill_cell Unknown
                     (str_cell str_title
                        (str_cell (str_replace (py ",") (py ", "))
                           (str_cell (str_replace (py ", ") (py ","))
                              (str_cell str_strip
                                 (str_cell remove_code_colon v)))))))
      (cell df countries i).
Proof.
  unfold clean_countries. intros H. do 3 inv_bind H.
  apply (update_cell _ _ (str_cell remove_code_colon) _ _ i) in Hstep;
    [|apply str_method_map].
  apply (update_cell _ _
           (fun v => str_cell str_title
              (str_cell (str_replace (py ",") (py ", "))
                 (str_cell (str_replace (py ", ") (py ","))
                    (str_cell str_strip v)))) _ _ i) in Hstep0;
    [|apply tidy_step].
  apply (update_cell _ _ (fill_cell Unknown) _ _ i) in Hstep1;
    [|apply fillna_values_ok].
  apply (update_cell _ _ (returned map_countries_cell) _ _ i) in H;
    [|apply series_apply_values].
  rewrite H, Hstep1, Hstep0, Hstep. now destruct (cell df countries i).
Qed.

(** X18: when the countries stage returns, no countries cell is missing:
    a cell that held no string holds "Unknown", and every cell holds a
    string that the mapping of line 87 would leave as it is. *)
Theorem countries_cells (df df' : DataFrame) (i : nat) :
  clean_countries df = Ok df' ->
  (forall x, cell df countries i = Some (VNum x) ->
     cell df' countries i = Some Unknown)
  /\ (forall v, cell df' countries i = Some v ->
      exists s, v = VStr s /\ map_countries s = s).
Proof.
  intros H. pose proof (clean_countries_cell_all _ _ i H) as Hc.
  split.
  - intros x Hraw. now rewrite Hc, Hraw.
  - intros v Hv. rewrite Hc in Hv.
    destruct (cell df countries i) as [[s|x]|]; [| |discriminate];
      simpl in Hv; inversion Hv.
    + eexists. split; [reflexivity|]. apply map_countries_twice.
    + exists (py "Unknown"). split; reflexivity.
Qed.

End CountriesCells.

(** ** The further theorems at work on the sample tables *)

Lemma run_needs_expected_columns_witness :
  (exists r, run_pipeline (L:=ascii_lib) sample = Ok r)
  /\ Forall (fun c => has_column sample c = true) expected_columns
  /\ In product_name expected_columns
  /\ has_column countries_table product_name = false
  /\ exists e, run_pipeline (L:=ascii_lib) countries_table = Raise e.
Proof.
  assert (Hrun : exists r, run_pipeline (L:=ascii_lib) sample = Ok r)
    by (eexists; vm_compute; reflexivity).
  split; [exact Hrun|]. destruct Hrun as (r & Hrun).
  split;
    [exact (proj1 (run_needs_expected_columns (L:=ascii_lib) sample) r Hrun)|].
  split; [simpl; tauto|]. split; [reflexivity|].
  apply (proj2 (run_needs_expected_columns (L:=ascii_lib) countries_table)
           product_name); [simpl; tauto|reflexivity].
Defined.

Lemma saved_schema_witness :
  exists r,
    run_pipeline (L:=ascii_lib) sample = Ok r
    /\ names (saved r) = saved_labels (names sample)
    /\ (forall c, In c derived_columns -> has_column sample c = false)
    /\ names (saved r)
       = without environmental_score_score (names sample) ++ derived_columns.
Proof.
  assert (Hd : forall c, In c derived_columns -> has_column sample c = false).
  { intros c Hc. simpl in Hc. destruct Hc as [<-|[<-|[<-|[]]]]; reflexivity. }
  eexists. split; [vm_compute; reflexivity|].
  split; [|split; [exact Hd|]].
  - refine (proj1 (saved_schema (L:=ascii_lib) sample _ _)).
    vm_compute. reflexivity.
  - refine (proj2 (saved_schema (L:=ascii_lib) sample _ _) Hd).
    vm_compute. reflexivity.
Defined.

Lemma stage_key_errors_witness :
  has_column nova_five brands = false
  /\ clean_brands (L:=ascii_lib) nova_five = Raise (KeyError brands)
  /\ has_column nova_five product_name = false
  /\ run_pipeline (L:=ascii_lib) nova_five = Raise (KeyError product_name).
Proof.
  destruct (stage_key_errors (L:=ascii_lib) nova_five) as (Hp & Hb & _).
  split; [reflexivity|]. split; [apply Hb; reflexivity|].
  split; [reflexivity|]. apply Hp. reflexivity.
Defined.

Lemma missing_value_report_witness :
  sorts_falling ascii_lib
  /\ In (MissingTable (firstn 10 (remaining_missing (L:=ascii_lib) sample)))
       (fst (show_cleaning_summary (L:=ascii_lib) sample (5%nat, 18%nat)))
  /\ falling (firstn 10 (remaining_missing (L:=ascii_lib) sample)) = true
  /\ List.length (remaining_missing (L:=ascii_lib) sample) = 18%nat.
Proof.
  assert (Hin : In (MissingTable
                      (firstn 10 (remaining_missing (L:=ascii_lib) sample)))
                  (fst (show_cleaning_summary (L:=ascii_lib) sample
                          (5%nat, 18%nat)))).
  { vm_compute. do 19 right. left. reflexivity. }
  split; [exact insertion_sorts|].
  split; [exact Hin|]. split; [|reflexivity].
  exact (proj1 (proj2 (proj2
           (proj1 (missing_value_report (L:=ascii_lib) sample (5%nat, 18%nat)
                     insertion_sorts) _ Hin)))).
Defined.

Lemma summary_counts_witness :
  wf sample
  /\ exists r,
       run_pipeline (L:=ascii_lib) sample = Ok r
       /\ xxx_rows (L:=ascii_lib) (drop_duplicates sample) = 1%nat
       /\ duplicate_rows r = 1%nat
       /\ In (CountLine "Rows Removed         : "
                (Z.of_nat (xxx_rows (L:=ascii_lib) (drop_duplicates sample))))
             (console r).
Proof.
  split; [exact sample_wf|].
  eexists. split; [vm_compute; reflexivity|].
  split; [vm_compute; reflexivity|]. split; [reflexivity|].
  refine (proj1 (summary_counts (L:=ascii_lib) sample _ sample_wf _)).
  vm_compute. reflexivity.
Defined.

Lemma drop_duplicates_fixed_point_witness :
  wf sample
  /\ count_true (duplicated sample) = 1%nat
  /\ count_true (duplicated (drop_duplicates sample)) = 0%nat
  /\ drop_duplicates (drop_duplicates sample) = drop_duplicates sample.
Proof.
  destruct (drop_duplicates_fixed_point sample sample_wf) as (H1 & _ & H3).
  split; [exact sample_wf|]. split; [reflexivity|]. split; assumption.
Defined.

Lemma brands_cells_witness :
  exists df',
    clean_brands (L:=ascii_lib) sample = Ok df'
    /\ cell sample brands 0 = Some (txt "ferrero,kinder")
    /\ cell df' brands 0
       = Some (VStr (brand_of (L:=ascii_lib) (py "ferrero,kinder")))
    /\ brand_of (L:=ascii_lib) (py "ferrero,kinder") = py "Ferrero, Kinder".
Proof.
  eexists. split; [vm_compute; reflexivity|].
  split; [reflexivity|]. split; [|vm_compute; reflexivity].
  refine (proj1 (brands_cells (L:=ascii_lib) sample _ 0 _) _ _);
    [vm_compute; reflexivity|reflexivity].
Defined.

Lemma categories_cells_witness :
  exists df',
    clean_categories (L:=ascii_lib) sample = Ok df'
    /\ cell sample categories 0 = Some (txt "en:spreads,sweet")
    /\ cell df' categories 0
       = Some (VStr (category_of (L:=ascii_lib) (py "en:spreads,sweet")))
    /\ cell df' categories_top 0
       = Some (VStr (category_top_of (L:=ascii_lib)
                       (category_of (L:=ascii_lib) (py "en:spreads,sweet"))))
    /\ category_top_of (L:=ascii_lib)
         (category_of (L:=ascii_lib) (py "en:spreads,sweet")) = py "Spreads".
Proof.
  eexists. split; [vm_compute; reflexivity|].
  split; [reflexivity|].
  split; [|split; [|vm_compute; reflexivity]].
  - refine (proj1 (proj1 (categories_cells (L:=ascii_lib) sample _ 0 _) _ _));
      [vm_compute; reflexivity|reflexivity].
  - refine (proj2 (proj1 (categories_cells (L:=ascii_lib) sample _ 0 _) _ _));
      [vm_compute; reflexivity|reflexivity].
Defined.

Lemma ingredients_labels_cells_witness :
  exists df',
    clean_ingredients_labels_packaging (L:=ascii_lib) sample = Ok df'
    /\ cell sample ingredients_text 0 = Some (txt "Sugar,   palm oil ")
    /\ cell df' ingredients_text 0
       = Some (VStr (ingredients_of (L:=ascii_lib) (py "Sugar,   palm oil ")))
    /\ ingredients_of (L:=ascii_lib) (py "Sugar,   palm oil ")
       = py "sugar, palm oil"
    /\ cell sample labels 2 = Some NA
    /\ cell df' labels 2 = Some unknown.
Proof.
  eexists. split; [vm_compute; reflexivity|].
  split; [reflexivity|]. split; [|split; [vm_compute; reflexivity|]].
  - refine (proj1 (proj1 (ingredients_labels_cells (L:=ascii_lib) sample _ 0 _)
                     _ _));
      [vm_compute; reflexivity|reflexivity].
  - split; [reflexivity|].
    refine (proj1 (proj2 (proj2 (proj2
              (ingredients_labels_cells (L:=ascii_lib) sample _ 2 _)))) _);
      [vm_compute; reflexivity|reflexivity].
Defined.

Lemma packaging_cells_witness :
  exists df',
    clean_ingredients_labels_packaging (L:=ascii_lib) sample = Ok df'
    /\ cell sample packaging 3 = Some (txt "40g")
    /\ cell df' packaging 3
       = Some (VStr (packaging_of (L:=ascii_lib) (py "40g")))
    /\ packaging_of (L:=ascii_lib) (py "40g") = py "40G".
Proof.
  eexists. split; [vm_compute; reflexivity|].
  split; [reflexivity|]. split; [|vm_compute; reflexivity].
  refine (proj1 (packaging_cells (L:=ascii_lib) sample _ 3 _) _ _);
    [vm_compute; reflexivity|reflexivity].
Defined.

Lemma unnamed_columns_pass_through_witness :
  ~ In (py "code") (expected_columns ++ derived_columns)
  /\ exists r,
       run_pipeline (L:=ascii_lib) coded = Ok r
       /\ lookup (py "code") (columns (saved r))
          = Some (ObjSeries [txt "c1"; txt "c3"; txt "c4"; txt "c5"])
       /\ lookup (py "code") (columns (saved r))
          = option_map
              (select_series (xxx_mask (L:=ascii_lib) (drop_duplicates coded)))
              (lookup (py "code") (columns (drop_duplicates coded))).
Proof.
  assert (Hne : ~ In (py "code") (expected_columns ++ derived_columns)).
  { intros H. simpl in H.
    repeat (destruct H as [H|H]; [discriminate H|]). exact H. }
  split; [exact Hne|].
  eexists. split; [vm_compute; reflexivity|].
  split; [reflexivity|].
  refine (proj1 (unnamed_columns_pass_through (L:=ascii_lib) coded _
                   (py "code") _ Hne)).
  vm_compute. reflexivity.
Defined.

Lemma float_text_column_raises_witness :
  lookup countries (columns float_text) = Some (FloatSeries F64 [NaN; NaN])
  /\ clean_countries (L:=ascii_lib) float_text = Raise AttributeError
  /\ clean_product_name (L:=ascii_lib) float_text = Raise AttributeError.
Proof.
  destruct (float_text_column_raises (L:=ascii_lib) float_text F64 [NaN; NaN])
    as (Hp & _ & _ & Hc & _).
  split; [reflexivity|]. split; [apply Hc; reflexivity|].
  apply Hp. reflexivity.
Defined.

Lemma sanitizer_refuses_strings_witness :
  lookup (py "energy-kcal_100g") (columns kcal_text)
  = Some (ObjSeries [num 12; txt "n/a"])
  /\ clean_numeric_column kcal_text (py "energy-kcal_100g") = Raise TypeError
  /\ exists e, clean_nutritional_columns kcal_text = Raise e.
Proof.
  destruct (sanitizer_refuses_strings kcal_text (py "energy-kcal_100g")
              [num 12; txt "n/a"] eq_refl eq_refl) as (H1 & H2).
  split; [reflexivity|]. split; [exact H1|].
  apply H2. simpl. tauto.
Defined.

Lemma derived_values_witness :
  exists df',
    clean_nutriscore (L:=ascii_lib) grades_table = Ok df'
    /\ cell df' nutriscore_numeric 0 = Some (num 1)
    /\ In (num 1) [num 0; num 1; num 2; num 3; num 4; num 5; NA].
Proof.
  eexists. split; [vm_compute; reflexivity|].
  split; [reflexivity|].
  refine (proj1 (derived_values (L:=ascii_lib) grades_table _ 0 (num 1)) _ _);
    [vm_compute; reflexivity|reflexivity].
Defined.

Lemma categories_stripped_witness :
  exists df',
    clean_categories (L:=ascii_lib) sample = Ok df'
    /\ cell df' categories 0 = Some (txt "spreads,sweet")
    /\ str_strip (L:=ascii_lib) (py "spreads,sweet") = py "spreads,sweet".
Proof.
  eexists. split; [vm_compute; reflexivity|].
  split; [reflexivity|].
  refine (proj1 (categories_stripped (L:=ascii_lib) sample _ 0 _ _ _));
    [vm_compute; reflexivity|reflexivity].
Defined.

Lemma countries_cells_witness :
  exists df',
    clean_countries (L:=ascii_lib) sample = Ok df'
    /\ cell sample countries 2 = Some NA
    /\ cell df' countries 2 = Some Unknown
    /\ cell df' countries 0 = Some (txt "France, United States")
    /\ exists s, txt "France, United States" = VStr s
                 /\ map_countries (L:=ascii_lib) s = s.
Proof.
  eexists. split; [vm_compute; reflexivity|].
  split; [reflexivity|]. split; [|split; [reflexivity|]].
  - refine (proj1 (countries_cells (L:=ascii_lib) sample _ 2 _) _ _);
      [vm_compute; reflexivity|reflexivity].
  - refine (proj2 (countries_cells (L:=ascii_lib) sample _ 0 _) _ _);
      [vm_compute; reflexivity|reflexivity].
Defined.
